(** * suitcase.nxsas.utils: a shallow embedding and its verified properties

    The module under study (src/suitcase/nxsas/utils.py) holds

    - [_bluesky_doc_query_re] and [_parse_bluesky_document_path]: the parser
      of reference strings such as [#bluesky/desc/primary/a/b@c];
    - [_get_h5_group_or_dataset]: the lookup of a parsed reference in an HDF5
      file;
    - [_copy_nexus_md_to_nexus_h5]: the recursive walk over a nexus metadata
      dictionary that creates groups, datasets, attributes and links;
    - [_copy_metadata_to_h5_attrs] and [_copy_metadata_to_h5_datasets]: the two
      recursive copies of a plain dictionary.

    Python values are an inductive type, a Python [str] is a [string] whose
    characters are the code points U+0000..U+00FF, exceptions are values of an
    error monad over the HDF5 object table, and the libraries the module calls
    ([re], [json], [h5py]) are modelled next to the code that uses them. *)

From Stdlib Require Import ZArith Ascii String List Bool Lia.
From Stdlib Require Import DecimalFacts DecimalPos DecimalN DecimalZ.
From stdpp Require Import base option list strings gmap.

Local Open Scope string_scope.
Local Open Scope list_scope.

(** ** Python values *)

(** The values a metadata dictionary holds.  A [dict] is an association list
    in insertion order (the order [.items()] yields); its keys are strings.
    Floating point numbers are left out. *)
#[warnings="-register-all"]
Inductive pyval : Type :=
| PNone
| PBool (b : bool)
| PInt (z : Z)
| PStr (s : string)
| PBytes (b : list ascii)
| PList (l : list pyval)
| PTuple (l : list pyval)
| PDict (d : list (string * pyval)).

(** The exceptions that occur.  [FailedToParse s] is the plain [Exception]
    that [_parse_bluesky_document_path] raises. *)
Inductive exn : Type :=
| TypeError
| ValueError
| KeyError (k : string)
| AttributeError
| FailedToParse (s : string).

Inductive result (A : Type) : Type :=
| Ok (a : A)
| Raise (e : exn).
Arguments Ok {A} a.
Arguments Raise {A} e.

(** [isinstance(v, str)] *)
Definition is_str (v : pyval) : bool :=
  match v with PStr _ => true | _ => false end.

(** [k in d] and [d[k]] for a dictionary with unique keys. *)
Fixpoint dict_get (k : string) (d : list (string * pyval)) : option pyval :=
  match d with
  | [] => None
  | (k', v) :: d' => if String.eqb k k' then Some v else dict_get k d'
  end.

Definition dict_has (k : string) (d : list (string * pyval)) : bool :=
  match dict_get k d with Some _ => true | None => false end.

(** ** Strings as lists of characters *)

Abbreviation chars := (list ascii).

Definition chars_of (s : string) : chars := list_ascii_of_string s.
Definition str_of (l : chars) : string := string_of_list_ascii l.

(** [s.startswith(p)] *)
Fixpoint startswith (p s : chars) : bool :=
  match p, s with
  | [], _ => true
  | a :: p', b :: s' => Ascii.eqb a b && startswith p' s'
  | _ :: _, [] => false
  end.

(** [s.split(sep)] for a one-character separator: never an empty list. *)
Fixpoint split (sep : ascii) (s : chars) : list chars :=
  match s with
  | [] => [[]]
  | c :: s' =>
      if Ascii.eqb c sep then [] :: split sep s'
      else match split sep s' with
           | w :: ws => (c :: w) :: ws
           | [] => [[c]]
           end
  end.

(** [sep.join(l)] *)
Fixpoint join (sep : chars) (l : list chars) : chars :=
  match l with
  | [] => []
  | [w] => w
  | w :: l' => w ++ sep ++ join sep l'
  end.

(** ** The regular expressions of [re] that the module uses *)

Module Re.

(** [\w] on the code points below U+0100: the ASCII letters, the digits and
    the underscore, and the Latin-1 letters and numeric characters
    (everything from U+00C0 on but the two signs U+00D7 and U+00F7, and
    U+00AA, U+00B2, U+00B3, U+00B5, U+00B9, U+00BA, U+00BC..U+00BE). *)
Definition is_word (c : ascii) : bool :=
  let n := N_of_ascii c in
  ((48 <=? n) && (n <=? 57)
   || (65 <=? n) && (n <=? 90)
   || (97 <=? n) && (n <=? 122)
   || (n =? 95)
   || (n =? 170) || (n =? 178) || (n =? 179) || (n =? 181)
   || (n =? 185) || (n =? 186) || (188 <=? n) && (n <=? 190)
   || (192 <=? n) && negb (n =? 215) && negb (n =? 247))%N.

(** Patterns.  [Group name r] is [(?P<name>r)]; a group without a name is
    plain bracketing, since only [groupdict()] is read. *)
Inductive regex : Type :=
| Eps
| Chr (c : ascii)
| Word
| Seq (r1 r2 : regex)
| Alt (r1 r2 : regex)
| Star (r : regex)
| Opt (r : regex)
| Group (name : string) (r : regex).

(** [r+] *)
Definition Plus (r : regex) : regex := Seq r (Star r).

(** A literal string. *)
Fixpoint Lit (l : chars) : regex :=
  match l with
  | [] => Eps
  | c :: l' => Seq (Chr c) (Lit l')
  end.

(** The groups matched so far: name and matched text, latest first. *)
Definition captures := list (string * chars).

Fixpoint cap_get (name : string) (c : captures) : option chars :=
  match c with
  | [] => None
  | (n, w) :: c' => if String.eqb name n then Some w else cap_get name c'
  end.

(** The ways a pattern matches a prefix of the input: the rest of the input
    and the groups, the way that [re] tries first at the head. *)
Definition matches := list (chars * captures).

(** The iterations of a greedy repetition whose body matches as [body]
    says; [n] bounds their number.  An iteration that consumes nothing ends
    the repetition. *)
Fixpoint star_loop (body : chars -> captures -> matches) (n : nat)
    (s : chars) (c : captures) : matches :=
  match n with
  | O => [(s, c)]
  | S n' =>
      flat_map (fun m =>
                  if (length (fst m) <? length s)%nat
                  then star_loop body n' (fst m) (snd m) else [])
               (body s c)
      ++ [(s, c)]
  end.

(** The backtracking matcher: every way [r] matches a prefix of [s], in the
    order in which [re] tries them (the left alternative first, a greedy
    repetition longest first). *)
Fixpoint run (r : regex) (s : chars) (c : captures) : matches :=
  match r with
  | Eps => [(s, c)]
  | Chr a =>
      match s with
      | b :: s' => if Ascii.eqb a b then [(s', c)] else []
      | [] => []
      end
  | Word =>
      match s with
      | b :: s' => if is_word b then [(s', c)] else []
      | [] => []
      end
  | Seq r1 r2 => flat_map (fun m => run r2 (fst m) (snd m)) (run r1 s c)
  | Alt r1 r2 => run r1 s c ++ run r2 s c
  | Star r1 => star_loop (run r1) (length s) s c
  | Opt r1 => run r1 s c ++ [(s, c)]
  | Group name r1 =>
      map (fun m => (fst m,
                     (name, firstn (length s - length (fst m)) s) :: snd m))
          (run r1 s c)
  end.

(** [pattern.match(s)]: the first way the pattern matches at the start of
    [s], if any; the result is the groups. *)
Definition rmatch (r : regex) (s : chars) : option captures :=
  match run r s [] with
  | [] => None
  | m :: _ => Some (snd m)
  end.

End Re.

(** ** The parser of reference strings *)

(** [_bluesky_doc_query_re]; the leading [^] holds where [match] starts. *)
Definition _bluesky_doc_query_re : Re.regex :=
  Re.Seq (Re.Lit (chars_of "#bluesky/"))
  (Re.Seq (Re.Group "doc"
             (Re.Alt (Re.Lit (chars_of "start"))
             (Re.Alt (Re.Lit (chars_of "stop"))
                     (Re.Seq (Re.Lit (chars_of "desc/"))
                             (Re.Group "stream" (Re.Plus Re.Word))))))
  (Re.Seq (Re.Group "all_keys"
             (Re.Star (Re.Seq (Re.Chr "/") (Re.Plus Re.Word))))
          (Re.Opt (Re.Seq (Re.Chr "@")
                          (Re.Group "attribute" (Re.Plus Re.Word)))))).

(** The dictionary [path_info] that the parser returns: the four named groups
    and the added entry [keys]. *)
Record path_info : Type := PathInfo {
  doc : string;
  stream : option string;
  all_keys : option string;
  attribute : option string;
  keys : list string
}.

Definition _parse_bluesky_document_path (bluesky_document_path : string)
  : result path_info :=
  match Re.rmatch _bluesky_doc_query_re (chars_of bluesky_document_path) with
  | None => Raise (FailedToParse bluesky_document_path)
  | Some m =>
      match Re.cap_get "doc" m, Re.cap_get "all_keys" m with
      | Some d, Some ak =>
          let d' := if startswith (chars_of "desc") d
                    then hd [] (split "/" d) else d in
          Ok {| doc := str_of d';
                stream := str_of <$> Re.cap_get "stream" m;
                all_keys := Some (str_of ak);
                attribute := str_of <$> Re.cap_get "attribute" m;
                keys := str_of <$> tl (split "/" ak) |}
      | _, _ => Raise AttributeError
      end
  end.

(** ** The HDF5 file, as h5py presents it *)

Module H5.

(** An object of the file is named by its index in the object table; a
    hard link stores such an index, so two links to one object share every
    later change of it.  Object 0 is the root group.  The name of a link is
    one component of a path: it has no slash. *)
Abbreviation ref := nat.

(** What [create_dataset] receives as [data]: the value itself, or
    [np.array(value, dtype=h5py.string_dtype())]. *)
Inductive h5data : Type :=
| Raw (v : pyval)
| StrArray (v : pyval).

Inductive body : Type :=
| Group (links : gmap string ref)
| Dataset (d : h5data).

Record obj : Type := Obj {
  attrs : gmap string pyval;
  content : body
}.

Abbreviation file := (list obj).

Definition has_nul (s : string) : bool :=
  existsb (Ascii.eqb "000"%char) (chars_of s).

(** Which values the format takes.  [attr_check v] is the exception that
    [attrs[name] = v] raises on the value, [data_check d] the one that
    [create_dataset(name, data=d)] raises on the data; [None] when the value
    is stored.  Text without a NUL character is always stored. *)
Class Format : Type := {
  attr_check : pyval -> option exn;
  data_check : h5data -> option exn;
  attr_check_text : forall s, has_nul s = false -> attr_check (PStr s) = None;
  data_check_text :
    forall s, has_nul s = false -> data_check (StrArray (PStr s)) = None
}.

(** Computations on the file: the file is threaded through, and it keeps
    what was written before an exception. *)
Definition M (A : Type) : Type := file -> result A * file.

Definition ret {A} (a : A) : M A := fun st => (Ok a, st).
Definition raise {A} (e : exn) : M A := fun st => (Raise e, st).
Definition bind {A B} (m : M A) (f : A -> M B) : M B :=
  fun st => match m st with
            | (Ok a, st') => f a st'
            | (Raise e, st') => (Raise e, st')
            end.
Definition lift {A} (r : result A) : M A := fun st => (r, st).

(** [for x in l: f(x)] *)
Section ForEach.
Context {A : Type} (f : A -> M unit).
Fixpoint for_each (l : list A) : M unit :=
  match l with
  | [] => ret tt
  | x :: l' => bind (f x) (fun _ => for_each l')
  end.
End ForEach.

(** [try: m except TypeError: h] *)
Definition except_TypeError {A} (m : M A) (h : M A) : M A :=
  fun st => match m st with
            | (Raise TypeError, st') => h st'
            | other => other
            end.

End H5.

Declare Scope h5_scope.
Delimit Scope h5_scope with h5.
Notation "'let*' x ':=' m 'in' k" := (H5.bind m (fun x => k))
  (at level 10, x name, m at level 100, k at level 200) : h5_scope.
Notation "m ';;' k" := (H5.bind m (fun _ => k))
  (at level 100, k at level 200, right associativity) : h5_scope.

Module H5ops.
Import H5.
Local Open Scope h5_scope.

Section WithFormat.
Context {F : Format}.

(** [h[k]]: [KeyError] when the group has no such link; a dataset has no
    links to follow. *)
Definition get_item (h : ref) (k : string) : M ref :=
  fun st =>
    match st !! h with
    | Some (Obj _ (Group links)) =>
        match links !! k with
        | Some r => (Ok r, st)
        | None => (Raise (KeyError k), st)
        end
    | Some (Obj _ (Dataset _)) => (Raise ValueError, st)
    | None => (Raise ValueError, st)
    end.

(** [h[k] = target], a new hard link to an object of the file; a taken
    name is refused, and a dataset takes no links. *)
Definition set_item (h : ref) (k : string) (target : ref) : M unit :=
  fun st =>
    match st !! h with
    | Some (Obj a (Group links)) =>
        match links !! k with
        | Some _ => (Raise ValueError, st)
        | None => (Ok tt, <[h := Obj a (Group (<[k := target]> links))]> st)
        end
    | Some (Obj _ (Dataset _)) => (Raise TypeError, st)
    | None => (Raise ValueError, st)
    end.

(** [h.attrs[name] = value]; an attribute of that name is replaced. *)
Definition set_attr (h : ref) (name : string) (value : pyval) : M unit :=
  fun st =>
    match st !! h with
    | Some (Obj a b) =>
        match attr_check value with
        | Some e => (Raise e, st)
        | None => (Ok tt, <[h := Obj (<[name := value]> a) b]> st)
        end
    | None => (Raise ValueError, st)
    end.

(** The creation of a child object named [name] under [h]: only a group
    has the method, the data is converted before the name is looked at,
    and a taken name is refused. *)
Definition create_child (h : ref) (name : string) (chk : option exn)
    (o : obj) : M ref :=
  fun st =>
    match st !! h with
    | Some (Obj a (Group links)) =>
        match chk with
        | Some e => (Raise e, st)
        | None =>
            match links !! name with
            | Some _ => (Raise ValueError, st)
            | None =>
                (Ok (length st),
                 <[h := Obj a (Group (<[name := length st]> links))]> st
                   ++ [o])
            end
        end
    | Some (Obj _ (Dataset _)) => (Raise AttributeError, st)
    | None => (Raise ValueError, st)
    end.

(** [h.create_dataset(name=name, data=d)] *)
Definition create_dataset (h : ref) (name : string) (d : h5data) : M ref :=
  create_child h name (data_check d) (Obj ∅ (Dataset d)).

(** [h.create_group(name)] *)
Definition create_group (h : ref) (name : string) : M ref :=
  create_child h name None (Obj ∅ (Group ∅)).

(** [h.file]: the root group. *)
Definition file_of (h : ref) : ref := 0.

End WithFormat.
End H5ops.

(** ** The lookup of a reference and the walk over the nexus metadata *)

Module Nexus.
Import H5 H5ops.
Local Open Scope h5_scope.

Section WithFormat.
Context {F : Format}.

(** The loop [for key in keys: target = target[key]]. *)
Fixpoint descend (target : ref) (ks : list string) : M ref :=
  match ks with
  | [] => ret target
  | key :: ks' => let* t := get_item target key in descend t ks'
  end.

Definition _get_h5_group_or_dataset (bluesky_document_path : path_info)
    (h5_file : ref) : M ref :=
  let doc := doc bluesky_document_path in
  let* bluesky := get_item h5_file "bluesky" in
  let* h5_target_group := get_item bluesky doc in
  descend h5_target_group (keys bluesky_document_path).

(** [_parse_bluesky_document_path(v)] on a value: [re] takes a [str]
    only. *)
Definition parse_link (v : pyval) : M path_info :=
  match v with
  | PStr s => lift (_parse_bluesky_document_path s)
  | _ => raise TypeError
  end.

(** The loop [for attr_name, attr_value in d.items(): h.attrs[...] = ...]. *)
Fixpoint set_attrs (h : ref) (d : list (string * pyval)) : M unit :=
  match d with
  | [] => ret tt
  | (attr_name, attr_value) :: d' =>
      set_attr h attr_name attr_value ;; set_attrs h d'
  end.

(** [nexus_value["_link"]] and [nexus_value["_data"]], read after the
    test that the key is there. *)
Definition dict_item (k : string) (d : list (string * pyval)) : M pyval :=
  match dict_get k d with
  | Some v => ret v
  | None => raise (KeyError k)
  end.

(** The body of the loop of [_copy_nexus_md_to_nexus_h5] for one pair of
    [nexus_md.items()]; [self] is the function itself, for the calls on
    [nexus_value]. *)
Definition nexus_item (self : pyval -> ref -> M unit)
    (h5_group_or_dataset : ref) (nexus_key : string) (nexus_value : pyval)
  : M unit :=
  if String.eqb nexus_key "_data" || String.eqb nexus_key "_link"
  then ret tt
  else if String.eqb nexus_key "_attributes" then
    match nexus_value with
    | PDict attrs => set_attrs h5_group_or_dataset attrs
    | _ => raise AttributeError
    end
  else
    match nexus_value with
    | PDict sub =>
        if dict_has "_link" sub then
          let* link := dict_item "_link" sub in
          let* path := parse_link link in
          let* target :=
            _get_h5_group_or_dataset path (file_of h5_group_or_dataset) in
          set_item h5_group_or_dataset nexus_key target ;;
          let* child := get_item h5_group_or_dataset nexus_key in
          self nexus_value child
        else if dict_has "_data" sub then
          let* data := dict_item "_data" sub in
          create_dataset h5_group_or_dataset nexus_key (Raw data) ;;
          let* child := get_item h5_group_or_dataset nexus_key in
          self nexus_value child
        else
          let* child := create_group h5_group_or_dataset nexus_key in
          self nexus_value child
    | PStr s =>
        if startswith (chars_of "#bluesky") (chars_of s) then
          let* bluesky_document_path :=
            lift (_parse_bluesky_document_path s) in
          let* target :=
            _get_h5_group_or_dataset bluesky_document_path
              (file_of h5_group_or_dataset) in
          set_item h5_group_or_dataset nexus_key target
        else
          create_dataset h5_group_or_dataset nexus_key (Raw nexus_value) ;;
          ret tt
    | _ =>
        create_dataset h5_group_or_dataset nexus_key (Raw nexus_value) ;;
        ret tt
    end.

(** [_copy_nexus_md_to_nexus_h5], by recursion on the metadata; a value
    that is no mapping has no [.items()]. *)
Fixpoint copy_nexus (nexus_md : pyval) (h5_group_or_dataset : ref)
    {struct nexus_md} : M unit :=
  match nexus_md with
  | PDict items =>
      for_each (fun kv => nexus_item copy_nexus h5_group_or_dataset
                            (fst kv) (snd kv)) items
  | _ => raise AttributeError
  end.

Definition _copy_nexus_md_to_nexus_h5 (nexus_md : list (string * pyval))
    (h5_group_or_dataset : ref) : M unit :=
  copy_nexus (PDict nexus_md) h5_group_or_dataset.

End WithFormat.
End Nexus.

(** ** [json.dumps] *)

Module Json.

Definition hex_digit (n : N) : ascii :=
  ascii_of_N (if (n <? 10)%N then 48 + n else 87 + n).

(** One character of a string, as [json.dumps] writes it (with
    [ensure_ascii], the default): the short escapes, the characters from the
    space to the tilde as they are, and [\u00xx] for the others. *)
Definition escape (c : ascii) : chars :=
  let n := N_of_ascii c in
  if (n =? 34)%N then ["\"; "034"]%char
  else if (n =? 92)%N then chars_of "\\"
  else if (n =? 10)%N then chars_of "\n"
  else if (n =? 13)%N then chars_of "\r"
  else if (n =? 9)%N then chars_of "\t"
  else if (n =? 8)%N then chars_of "\b"
  else if (n =? 12)%N then chars_of "\f"
  else if ((32 <=? n) && (n <=? 126))%N then [c]
  else chars_of "\u00" ++ [hex_digit (n / 16); hex_digit (n mod 16)].

Definition quote : ascii := "034".

Definition encode_str (s : chars) : chars :=
  quote :: flat_map escape s ++ [quote].

(** The decimal digits of a number, the first digit first. *)
Fixpoint digits (u : Decimal.uint) : chars :=
  match u with
  | Decimal.Nil => []
  | Decimal.D0 u' => "0"%char :: digits u'
  | Decimal.D1 u' => "1"%char :: digits u'
  | Decimal.D2 u' => "2"%char :: digits u'
  | Decimal.D3 u' => "3"%char :: digits u'
  | Decimal.D4 u' => "4"%char :: digits u'
  | Decimal.D5 u' => "5"%char :: digits u'
  | Decimal.D6 u' => "6"%char :: digits u'
  | Decimal.D7 u' => "7"%char :: digits u'
  | Decimal.D8 u' => "8"%char :: digits u'
  | Decimal.D9 u' => "9"%char :: digits u'
  end.

(** [repr] of an integer. *)
Definition encode_int (z : Z) : chars :=
  match Z.to_int z with
  | Decimal.Pos u => digits u
  | Decimal.Neg u => "-"%char :: digits u
  end.

(** The texts of the items of a list and of the members of a dictionary,
    when [enc] gives the text of a value. *)
Section Items.
Variable enc : pyval -> option chars.

Fixpoint encode_all (l : list pyval) : option (list chars) :=
  match l with
  | [] => Some []
  | x :: l' =>
      match enc x, encode_all l' with
      | Some e, Some es => Some (e :: es)
      | _, _ => None
      end
  end.

Fixpoint encode_members (d : list (string * pyval)) : option (list chars) :=
  match d with
  | [] => Some []
  | kv :: d' =>
      match enc (snd kv), encode_members d' with
      | Some e, Some es =>
          Some ((encode_str (chars_of (fst kv)) ++ chars_of ": " ++ e) :: es)
      | _, _ => None
      end
  end.
End Items.

(** The text of a value; [None] where [json.dumps] raises [TypeError]
    (a [bytes] object).  Items are separated by a comma and a space, a key
    and its value by a colon and a space; a tuple is written as a list. *)
Fixpoint encode (v : pyval) : option chars :=
  match v with
  | PNone => Some (chars_of "null")
  | PBool true => Some (chars_of "true")
  | PBool false => Some (chars_of "false")
  | PInt z => Some (encode_int z)
  | PStr s => Some (encode_str (chars_of s))
  | PBytes _ => None
  | PList l | PTuple l =>
      match encode_all encode l with
      | Some es => Some ("["%char :: join (chars_of ", ") es ++ ["]"%char])
      | None => None
      end
  | PDict d =>
      match encode_members encode d with
      | Some es => Some ("{"%char :: join (chars_of ", ") es ++ ["}"%char])
      | None => None
      end
  end.

Definition dumps (v : pyval) : result string :=
  match encode v with
  | Some t => Ok (str_of t)
  | None => Raise TypeError
  end.

(** *** [json.loads]

    The decoder on the texts whose numbers are integers and whose [\u]
    escapes are below U+0100; [None] stands for [JSONDecodeError] and for
    the texts outside (a fraction, an exponent, [NaN], a larger escape). *)

Definition is_ws (c : ascii) : bool :=
  let n := N_of_ascii c in
  ((n =? 32) || (n =? 9) || (n =? 10) || (n =? 13))%N.

Fixpoint skip_ws (s : chars) : chars :=
  match s with
  | c :: s' => if is_ws c then skip_ws s' else s
  | [] => []
  end.

Definition hex_val (c : ascii) : option N :=
  let n := N_of_ascii c in
  if ((48 <=? n) && (n <=? 57))%N then Some (n - 48)%N
  else if ((97 <=? n) && (n <=? 102))%N then Some (n - 87)%N
  else if ((65 <=? n) && (n <=? 70))%N then Some (n - 55)%N
  else None.

(** The character that follows a backslash, but for [u]. *)
Definition unescape (c : ascii) : option ascii :=
  let n := N_of_ascii c in
  if ((n =? 34) || (n =? 92) || (n =? 47))%N then Some c
  else if (n =? 98)%N then Some "008"%char
  else if (n =? 102)%N then Some "012"%char
  else if (n =? 110)%N then Some "010"%char
  else if (n =? 114)%N then Some "013"%char
  else if (n =? 116)%N then Some "009"%char
  else None.

Definition cons_char (c : ascii) (r : option (chars * chars))
  : option (chars * chars) :=
  match r with
  | Some (w, rest) => Some (c :: w, rest)
  | None => None
  end.

(** The text of a string after its opening quote: the content and what
    follows the closing quote.  A raw control character is refused. *)
Fixpoint scan_string (s : chars) : option (chars * chars) :=
  match s with
  | [] => None
  | c :: s' =>
      if (N_of_ascii c =? 34)%N then Some ([], s')
      else if (N_of_ascii c =? 92)%N then
        match s' with
        | [] => None
        | e :: s'' =>
            if (N_of_ascii e =? 117)%N then
              match s'' with
              | h1 :: h2 :: h3 :: h4 :: s3 =>
                  match hex_val h1, hex_val h2, hex_val h3, hex_val h4 with
                  | Some a, Some b, Some c, Some d =>
                      if ((a =? 0) && (b =? 0))%N
                      then cons_char (ascii_of_N (16 * c + d)) (scan_string s3)
                      else None
                  | _, _, _, _ => None
                  end
              | _ => None
              end
            else
              match unescape e with
              | Some c' => cons_char c' (scan_string s'')
              | None => None
              end
        end
      else if (N_of_ascii c <? 32)%N then None
      else cons_char c (scan_string s')
  end.

Definition digit (c : ascii) : option (Decimal.uint -> Decimal.uint) :=
  let n := N_of_ascii c in
  if (n =? 48)%N then Some Decimal.D0
  else if (n =? 49)%N then Some Decimal.D1
  else if (n =? 50)%N then Some Decimal.D2
  else if (n =? 51)%N then Some Decimal.D3
  else if (n =? 52)%N then Some Decimal.D4
  else if (n =? 53)%N then Some Decimal.D5
  else if (n =? 54)%N then Some Decimal.D6
  else if (n =? 55)%N then Some Decimal.D7
  else if (n =? 56)%N then Some Decimal.D8
  else if (n =? 57)%N then Some Decimal.D9
  else None.

(** The longest run of digits at the start of [s]. *)
Fixpoint scan_digits (s : chars) : Decimal.uint * chars :=
  match s with
  | [] => (Decimal.Nil, [])
  | c :: s' =>
      match digit c with
      | Some d => (d (fst (scan_digits s')), snd (scan_digits s'))
      | None => (Decimal.Nil, s)
      end
  end.

(** After the integer part: a fraction or an exponent is outside. *)
Definition no_fraction (r : chars) : bool :=
  match r with
  | c :: _ =>
      let n := N_of_ascii c in
      negb ((n =? 46) || (n =? 101) || (n =? 69))%N
  | [] => true
  end.

(** An integer: an optional sign, then a zero or a run of digits with a
    first digit that is no zero. *)
Definition scan_number (s : chars) : option (Z * chars) :=
  let sign_rest :=
    match s with
    | c :: r => if (N_of_ascii c =? 45)%N then (true, r) else (false, s)
    | [] => (false, s)
    end in
  let neg := fst sign_rest in
  let mk (u : Decimal.uint) :=
    Z.of_int (if neg then Decimal.Neg u else Decimal.Pos u) in
  match snd sign_rest with
  | [] => None
  | c :: r =>
      if (N_of_ascii c =? 48)%N then
        if no_fraction r then Some (mk (Decimal.D0 Decimal.Nil), r) else None
      else
        match digit c with
        | Some _ =>
            let ur := scan_digits (c :: r) in
            if no_fraction (snd ur) then Some (mk (fst ur), snd ur) else None
        | None => None
        end
  end.

(** [d[k] = v] on a dictionary: a key that is there keeps its place. *)
Fixpoint dict_set (k : string) (v : pyval) (d : list (string * pyval))
  : list (string * pyval) :=
  match d with
  | [] => [(k, v)]
  | (k', v') :: d' =>
      if String.eqb k k' then (k, v) :: d' else (k', v') :: dict_set k v d'
  end.

(** [dict(pairs)] *)
Definition make_dict (pairs : list (string * pyval)) : list (string * pyval) :=
  fold_left (fun d kv => dict_set (fst kv) (snd kv) d) pairs [].

(** The recursive descent; [n] bounds the depth of the calls. *)
Fixpoint parse_value (n : nat) (s : chars) : option (pyval * chars) :=
  match n with
  | O => None
  | S n' =>
      match s with
      | [] => None
      | c :: r =>
          let k := N_of_ascii c in
          if (k =? 34)%N then
            match scan_string r with
            | Some (w, r') => Some (PStr (str_of w), r')
            | None => None
            end
          else if (k =? 123)%N then
            match skip_ws r with
            | c' :: r' =>
                if (N_of_ascii c' =? 125)%N then Some (PDict [], r')
                else match parse_members n' (c' :: r') with
                     | Some (d, r'') => Some (PDict (make_dict d), r'')
                     | None => None
                     end
            | [] => None
            end
          else if (k =? 91)%N then
            match skip_ws r with
            | c' :: r' =>
                if (N_of_ascii c' =? 93)%N then Some (PList [], r')
                else match parse_elems n' (c' :: r') with
                     | Some (l, r'') => Some (PList l, r'')
                     | None => None
                     end
            | [] => None
            end
          else if startswith (chars_of "null") s then Some (PNone, drop 4 s)
          else if startswith (chars_of "true") s then Some (PBool true, drop 4 s)
          else if startswith (chars_of "false") s then Some (PBool false, drop 5 s)
          else match scan_number s with
               | Some (z, r') => Some (PInt z, r')
               | None => None
               end
      end
  end
with parse_elems (n : nat) (s : chars) : option (list pyval * chars) :=
  match n with
  | O => None
  | S n' =>
      match parse_value n' s with
      | Some (v, r) =>
          match skip_ws r with
          | c :: r' =>
              if (N_of_ascii c =? 93)%N then Some ([v], r')
              else if (N_of_ascii c =? 44)%N then
                match parse_elems n' (skip_ws r') with
                | Some (l, r'') => Some (v :: l, r'')
                | None => None
                end
              else None
          | [] => None
          end
      | None => None
      end
  end
with parse_members (n : nat) (s : chars)
  : option (list (string * pyval) * chars) :=
  match n with
  | O => None
  | S n' =>
      match s with
      | c :: r =>
          if (N_of_ascii c =? 34)%N then
            match scan_string r with
            | Some (k, r1) =>
                match skip_ws r1 with
                | c1 :: r2 =>
                    if (N_of_ascii c1 =? 58)%N then
                      match parse_value n' (skip_ws r2) with
                      | Some (v, r3) =>
                          match skip_ws r3 with
                          | c3 :: r4 =>
                              if (N_of_ascii c3 =? 125)%N
                              then Some ([(str_of k, v)], r4)
                              else if (N_of_ascii c3 =? 44)%N then
                                match parse_members n' (skip_ws r4) with
                                | Some (d, r5) => Some ((str_of k, v) :: d, r5)
                                | None => None
                                end
                              else None
                          | [] => None
                          end
                      | None => None
                      end
                    else None
                | [] => None
                end
            | None => None
            end
          else None
      | [] => None
      end
  end.

(** [json.loads(s)]; [JSONDecodeError] is a [ValueError]. *)
Definition loads (s : string) : result pyval :=
  let cs := skip_ws (chars_of s) in
  match parse_value (S (length cs)) cs with
  | Some (v, r) =>
      match skip_ws r with
      | [] => Ok v
      | _ :: _ => Raise ValueError
      end
  | None => Raise ValueError
  end.

End Json.

(** ** The two copies of a plain dictionary *)

Module Copy.
Import H5 H5ops.
Local Open Scope h5_scope.

Section WithFormat.
Context {F : Format}.

(** The special case of both copies: [None] becomes the text
    ["None"]. *)
Definition attr_value (value : pyval) : pyval :=
  match value with
  | PNone => PStr "None"
  | _ => value
  end.

(** One leaf of [_copy_metadata_to_h5_attrs]. *)
Definition attr_leaf (h5_group : ref) (key : string) (value : pyval)
  : M unit :=
  let value := attr_value value in
  except_TypeError
    (set_attr h5_group key value)
    (let* text := lift (Json.dumps value) in
     set_attr h5_group key (PStr text)).

(** The body of the loop of [_copy_metadata_to_h5_attrs]. *)
Definition attrs_item (self : pyval -> ref -> M unit) (h5_group : ref)
    (key : string) (value : pyval) : M unit :=
  match value with
  | PDict _ =>
      let* g := create_group h5_group key in
      self value g
  | _ => attr_leaf h5_group key value
  end.

Fixpoint copy_attrs (a_mapping : pyval) (h5_group : ref)
    {struct a_mapping} : M unit :=
  match a_mapping with
  | PDict items =>
      for_each (fun kv => attrs_item copy_attrs h5_group (fst kv) (snd kv))
               items
  | _ => raise AttributeError
  end.

Definition _copy_metadata_to_h5_attrs (a_mapping : list (string * pyval))
    (h5_group : ref) : M unit :=
  copy_attrs (PDict a_mapping) h5_group.

(** [isinstance(value, str) or (isinstance(value, Sequence) and
    all([isinstance(x, str) for x in value]))]; a [bytes] object is a
    sequence of integers. *)
Definition str_or_str_sequence (value : pyval) : bool :=
  match value with
  | PStr _ => true
  | PList l | PTuple l => forallb is_str l
  | PBytes b => forallb (fun _ => false) b
  | _ => false
  end.

(** The special cases of the second copy: [None] becomes the text
    ["None"], the one NUL byte the empty text. *)
Definition dataset_value (value : pyval) : pyval :=
  match value with
  | PNone => PStr "None"
  | PBytes ["000"%char] => PStr EmptyString
  | _ => value
  end.

(** One leaf of [_copy_metadata_to_h5_datasets]; the logger has no
    effect on the file. *)
Definition dataset_leaf (h5_group : ref) (key : string) (value : pyval)
  : M ref :=
  let value := dataset_value value in
  except_TypeError
    (if str_or_str_sequence value
     then create_dataset h5_group key (StrArray value)
     else create_dataset h5_group key (Raw value))
    (let* text := lift (Json.dumps value) in
     create_dataset h5_group key (StrArray (PStr text))).

(** The data that the first attempt of [dataset_leaf] hands over. *)
Definition first_data (value : pyval) : h5data :=
  if str_or_str_sequence value then StrArray value else Raw value.

(** The leaf, with the dataset that it returns dropped. *)
Definition dataset_leaf_unit (h5_group : ref) (key : string)
    (value : pyval) : M unit :=
  dataset_leaf h5_group key value ;; ret tt.

(** The body of the loop of [_copy_metadata_to_h5_datasets]. *)
Definition datasets_item (self : pyval -> ref -> M unit) (h5_group : ref)
    (key : string) (value : pyval) : M unit :=
  match value with
  | PDict _ =>
      let* group := create_group h5_group key in
      self value group
  | _ => dataset_leaf_unit h5_group key value
  end.

Fixpoint copy_datasets (a_mapping : pyval) (h5_group : ref)
    {struct a_mapping} : M unit :=
  match a_mapping with
  | PDict items =>
      for_each (fun kv => datasets_item copy_datasets h5_group
                            (fst kv) (snd kv)) items
  | _ => raise AttributeError
  end.

Definition _copy_metadata_to_h5_datasets
    (a_mapping : list (string * pyval)) (h5_group : ref) : M unit :=
  copy_datasets (PDict a_mapping) h5_group.

End WithFormat.
End Copy.

(** ** A format to run the code on *)

(** A format that behaves as the comments of the module say h5py does: text
    with a NUL character is refused with [ValueError]; [None], a dictionary
    and a sequence that is neither all numbers nor all text are refused with
    [TypeError]. *)
Module Sample.
Import H5.

Definition is_number (v : pyval) : bool :=
  match v with PBool _ | PInt _ => true | _ => false end.

Definition is_text (v : pyval) : bool :=
  match v with PStr s => negb (has_nul s) | _ => false end.

Definition text_check (v : pyval) : option exn :=
  match v with
  | PStr s => if has_nul s then Some ValueError else None
  | PList l | PTuple l =>
      if forallb is_str l then
        if forallb is_text l then None else Some ValueError
      else Some TypeError
  | PBytes [] => None
  | _ => Some TypeError
  end.

Definition value_check (v : pyval) : option exn :=
  match v with
  | PNone => Some TypeError
  | PBool _ | PInt _ => None
  | PStr s => if has_nul s then Some ValueError else None
  | PBytes b => None
  | PList l | PTuple l =>
      if forallb is_number l || forallb is_text l then None
      else Some TypeError
  | PDict _ => Some TypeError
  end.

Definition sample_data_check (d : h5data) : option exn :=
  match d with
  | Raw v => value_check v
  | StrArray v => text_check v
  end.

Definition value_check_text (s : string) (H : has_nul s = false)
  : value_check (PStr s) = None :=
  @eq_ind_r bool false
    (fun b : bool => (if b then Some ValueError else None) = None)
    eq_refl (has_nul s) H.

Definition text_check_text (s : string) (H : has_nul s = false)
  : sample_data_check (StrArray (PStr s)) = None :=
  @eq_ind_r bool false
    (fun b : bool => (if b then Some ValueError else None) = None)
    eq_refl (has_nul s) H.

Definition format : Format :=
  {| attr_check := value_check;
     data_check := sample_data_check;
     attr_check_text := value_check_text;
     data_check_text := text_check_text |}.

(** A file with the datasets [/bluesky/desc/primary/k1] (object 4) and
    [/bluesky/desc/k1] (object 5). *)
Definition streams_file : file :=
  [ Obj ∅ (Group {[ "bluesky" := 1 ]});
    Obj ∅ (Group {[ "desc" := 2 ]});
    Obj ∅ (Group (<[ "primary" := 3 ]> {[ "k1" := 5 ]}));
    Obj ∅ (Group {[ "k1" := 4 ]});
    Obj ∅ (Dataset (StrArray (PStr "of the stream primary")));
    Obj ∅ (Dataset (StrArray (PStr "of no stream"))) ].

(** A file with the root group only. *)
Definition empty_file : file := [ Obj ∅ (Group ∅) ].

(** A file with the root group, [/bluesky], [/bluesky/start] and the dataset
    [/bluesky/start/sample_name] that holds ["Sample A"]. *)
Definition bluesky_file : file :=
  [ Obj ∅ (Group {[ "bluesky" := 1 ]});
    Obj ∅ (Group {[ "start" := 2 ]});
    Obj ∅ (Group {[ "sample_name" := 3 ]});
    Obj ∅ (Dataset (StrArray (PStr "Sample A"))) ].

End Sample.

(** ** Definitions for the statements *)

(** *** The grammar of reference strings, as the specification words it *)

Module Grammar.

(** A segment: one or more word characters. *)
Definition segment (w : chars) : Prop :=
  w <> [] /\ forallb Re.is_word w = true.

(** The document kind; [desc] carries the stream. *)
Inductive kind : Type :=
| KStart
| KStop
| KDesc (stream : chars).

Definition kind_text (k : kind) : chars :=
  match k with
  | KStart => chars_of "start"
  | KStop => chars_of "stop"
  | KDesc w => chars_of "desc/" ++ w
  end.

Definition kind_name (k : kind) : chars :=
  match k with
  | KStart => chars_of "start"
  | KStop => chars_of "stop"
  | KDesc _ => chars_of "desc"
  end.

Definition kind_stream (k : kind) : option chars :=
  match k with
  | KDesc w => Some w
  | _ => None
  end.

Definition keys_text (segs : list chars) : chars :=
  concat (map (cons "/"%char) segs).

Definition attr_text (attr : option chars) : chars :=
  match attr with
  | Some a => "@"%char :: a
  | None => []
  end.

(** [#bluesky/<kind>[/<stream>](/<segment>)*[@<attr>]] *)
Definition reference (k : kind) (segs : list chars) (attr : option chars)
  : chars :=
  chars_of "#bluesky/" ++ kind_text k ++ keys_text segs ++ attr_text attr.

Definition well_formed (k : kind) (segs : list chars) (attr : option chars)
  : Prop :=
  match k with KDesc w => segment w | _ => True end
  /\ Forall segment segs
  /\ match attr with Some a => segment a | None => True end.

Definition matches_grammar (p : chars) : Prop :=
  exists k segs attr, well_formed k segs attr /\ p = reference k segs attr.

(** A string that starts with a reference of the grammar. *)
Definition has_grammar_prefix (s : chars) : Prop :=
  exists p r, s = p ++ r /\ matches_grammar p.

(** Where a run of word characters stops: at the end of the text or at a
    character that is none. *)
Definition stops (r : chars) : Prop :=
  match r with
  | [] => True
  | a :: _ => Re.is_word a = false
  end.

(** The descriptor that the specification reads off a reference. *)
Definition descriptor (k : kind) (segs : list chars) (attr : option chars)
  : path_info :=
  {| doc := str_of (kind_name k);
     stream := str_of <$> kind_stream k;
     all_keys := Some (str_of (keys_text segs));
     attribute := str_of <$> attr;
     keys := str_of <$> segs |}.

End Grammar.

(** *** The first match of the pattern, read off the text *)

Module First.
Import Re.

(** The rest of [s] after its longest prefix of word characters. *)
Fixpoint skip_word (s : chars) : chars :=
  match s with
  | b :: s' => if is_word b then skip_word s' else s
  | [] => []
  end.

(** One key: a slash and a run of word characters. *)
Definition key_re : regex := Seq (Chr "/") (Plus Word).

(** The rest of [s] after the keys that the repetition takes; [n] bounds
    their number. *)
Fixpoint skip_keys (n : nat) (s : chars) : chars :=
  match n with
  | O => s
  | S n' =>
      match s with
      | a :: b :: s' =>
          if Ascii.eqb "/"%char a && is_word b
          then skip_keys n' (skip_word s') else s
      | _ => s
      end
  end.

(** The pieces of the pattern. *)
Definition doc_re : regex :=
  Group "doc"
    (Alt (Lit (chars_of "start"))
    (Alt (Lit (chars_of "stop"))
         (Seq (Lit (chars_of "desc/")) (Group "stream" (Plus Word))))).
Definition keys_re : regex := Group "all_keys" (Star key_re).
Definition attr_re : regex :=
  Opt (Seq (Chr "@") (Group "attribute" (Plus Word))).

Definition doc_first (s : chars) (c : captures) : option (chars * captures) :=
  if startswith (chars_of "start") s then
    Some (drop 5 s, ("doc", chars_of "start") :: c)
  else if startswith (chars_of "stop") s then
    Some (drop 4 s, ("doc", chars_of "stop") :: c)
  else if startswith (chars_of "desc/") s then
    match drop 5 s with
    | b :: s' =>
        if is_word b then
          let r := skip_word s' in
          Some (r, ("doc", firstn (length s - length r) s)
                     :: ("stream", firstn (length (b :: s') - length r) (b :: s'))
                     :: c)
        else None
    | [] => None
    end
  else None.

Definition keys_first (s : chars) (c : captures) : chars * captures :=
  let r := skip_keys (length s) s in
  (r, ("all_keys", firstn (length s - length r) s) :: c).

Definition attr_first (s : chars) (c : captures) : chars * captures :=
  match s with
  | a :: b :: s' =>
      if Ascii.eqb "@"%char a && is_word b then
        let r := skip_word s' in
        (r, ("attribute", firstn (length (b :: s') - length r) (b :: s')) :: c)
      else (s, c)
  | _ => (s, c)
  end.

Definition query_first (s : chars) : option captures :=
  if startswith (chars_of "#bluesky/") s then
    match doc_first (drop 9 s) [] with
    | Some m1 =>
        let m2 := keys_first (fst m1) (snd m1) in
        Some (snd (attr_first (fst m2) (snd m2)))
    | None => None
    end
  else None.

End First.

(** *** Induction on values *)

Section PyvalInd.
Variable P : pyval -> Prop.
Hypothesis HNone : P PNone.
Hypothesis HBool : forall b, P (PBool b).
Hypothesis HInt : forall z, P (PInt z).
Hypothesis HStr : forall s, P (PStr s).
Hypothesis HBytes : forall b, P (PBytes b).
Hypothesis HList : forall l, Forall P l -> P (PList l).
Hypothesis HTuple : forall l, Forall P l -> P (PTuple l).
Hypothesis HDict : forall d, Forall (fun kv => P (snd kv)) d -> P (PDict d).

Fixpoint pyval_nested_ind (v : pyval) : P v :=
  match v with
  | PNone => HNone
  | PBool b => HBool b
  | PInt z => HInt z
  | PStr s => HStr s
  | PBytes b => HBytes b
  | PList l =>
      HList l ((fix go (l : list pyval) : Forall P l :=
                  match l return Forall P l with
                  | [] => List.Forall_nil P
                  | x :: l' => List.Forall_cons P x l' (pyval_nested_ind x) (go l')
                  end) l)
  | PTuple l =>
      HTuple l ((fix go (l : list pyval) : Forall P l :=
                   match l return Forall P l with
                   | [] => List.Forall_nil P
                   | x :: l' => List.Forall_cons P x l' (pyval_nested_ind x) (go l')
                   end) l)
  | PDict d =>
      HDict d ((fix go (d : list (string * pyval))
                  : Forall (fun kv => P (snd kv)) d :=
                  match d return Forall (fun kv => P (snd kv)) d with
                  | [] => List.Forall_nil _
                  | kv :: d' =>
                      List.Forall_cons (fun kv => P (snd kv)) kv d'
                        (pyval_nested_ind (snd kv)) (go d')
                  end) d)
  end.
End PyvalInd.

(** *** Dictionaries and what is read in a file *)

(** The keys of a dictionary. *)
Definition keys_of (v : pyval) : list string :=
  match v with PDict items => fst <$> items | _ => [] end.

(** [isinstance(v, Mapping)] *)
Definition is_mapping (v : pyval) : bool :=
  match v with PDict _ => true | _ => false end.

(** A dictionary has each key once, and so have the dictionaries that are its
    values. *)
Inductive flat_mapping : list (string * pyval) -> Prop :=
| flat_mapping_intro items :
    NoDup (fst <$> items) ->
    (forall k sub, In (k, PDict sub) items -> flat_mapping sub) ->
    flat_mapping items.

(** The value under [key] in the dictionary reached through the keys
    [path]. *)
Fixpoint leaf_at (m : list (string * pyval)) (path : list string)
    (key : string) : option pyval :=
  match path with
  | [] => dict_get key m
  | p :: path' =>
      match dict_get p m with
      | Some (PDict sub) => leaf_at sub path' key
      | _ => None
      end
  end.

Module Obs.
Import H5.

(** The attributes [a] after the assignments of [al], in order. *)
Definition set_all (al : list (string * pyval)) (a : gmap string pyval)
  : gmap string pyval :=
  fold_left (fun m kv => <[fst kv := snd kv]> m) al a.

(** The three keys that [_copy_nexus_md_to_nexus_h5] reads itself. *)
Definition reserved (k : string) : Prop :=
  k = "_data" \/ k = "_link" \/ k = "_attributes".

(** The object that the link [k] of the group [h] names. *)
Definition child (st : file) (h : ref) (k : string) : option ref :=
  match st !! h with
  | Some (Obj _ (Group links)) => links !! k
  | _ => None
  end.

(** The attribute [k] of the object [h]. *)
Definition attr (st : file) (h : ref) (k : string) : option pyval :=
  match st !! h with
  | Some o => attrs o !! k
  | None => None
  end.

(** The data of the dataset [h]. *)
Definition data_of (st : file) (h : ref) : option h5data :=
  match st !! h with
  | Some (Obj _ (Dataset d)) => Some d
  | _ => None
  end.

(** The object at the end of a path of links. *)
Fixpoint walk (st : file) (h : ref) (path : list string) : option ref :=
  match path with
  | [] => Some h
  | k :: path' =>
      match child st h k with
      | Some h' => walk st h' path'
      | None => None
      end
  end.

(** A path of links all of whose objects after the first are at [lo] or
    later in the object table. *)
Fixpoint fresh_walk (st : file) (lo : nat) (h : ref) (path : list string)
    (h' : ref) : Prop :=
  match path with
  | [] => h' = h
  | k :: path' =>
      exists g, child st h k = Some g /\ lo <= g /\ fresh_walk st lo g path' h'
  end.

(** The attributes and links of [o'] are those of [o] at the names that
    satisfy [keep]; a dataset keeps its data. *)
Definition same_at (keep : string -> Prop) (o o' : obj) : Prop :=
  (forall n, keep n -> attrs o' !! n = attrs o !! n)
  /\ match content o with
     | Group l =>
         exists l', content o' = Group l'
                    /\ forall n, keep n -> l' !! n = l !! n
     | Dataset d => content o' = Dataset d
     end.

(** From [st] to [st'] the object table grows, the objects other than [h]
    do not change, and [h] changes at the names in [K] only. *)
Definition frame (h : ref) (K : string -> Prop) (st st' : file) : Prop :=
  length st <= length st'
  /\ (forall i, i < length st -> i <> h -> st' !! i = st !! i)
  /\ (forall o, st !! h = Some o ->
        exists o', st' !! h = Some o' /\ same_at (fun n => ~ K n) o o').

(** From [st] to [st'] the object [h] keeps what it has under the name [k],
    and the objects from [lo] on do not change. *)
Definition kept (lo : nat) (h : ref) (k : string) (st st' : file) : Prop :=
  length st <= length st'
  /\ (forall i, lo <= i -> i < length st -> i <> h -> st' !! i = st !! i)
  /\ (forall o, st !! h = Some o ->
        exists o', st' !! h = Some o' /\ same_at (fun n => n = k) o o').

End Obs.

(** *** The recursion that the two copies share *)

Module Shared.
Import H5 H5ops.
Local Open Scope h5_scope.

Section WithFormat.
Context {F : Format}.
Variable leaf : ref -> string -> pyval -> M unit.

Definition item_with (self : pyval -> ref -> M unit) (h5_group : ref)
    (key : string) (value : pyval) : M unit :=
  match value with
  | PDict _ =>
      let* g := create_group h5_group key in
      self value g
  | _ => leaf h5_group key value
  end.

Fixpoint copy_with (a_mapping : pyval) (h5_group : ref)
    {struct a_mapping} : M unit :=
  match a_mapping with
  | PDict items =>
      for_each (fun kv => item_with copy_with h5_group (fst kv) (snd kv))
               items
  | _ => raise AttributeError
  end.
End WithFormat.
End Shared.

(** *** The values that a JSON text gives back as they were *)

(** No tuple and no bytes, and each key of a dictionary once. *)
#[warnings="-register-all"]
Inductive json_exact : pyval -> Prop :=
| json_exact_none : json_exact PNone
| json_exact_bool b : json_exact (PBool b)
| json_exact_int z : json_exact (PInt z)
| json_exact_str s : json_exact (PStr s)
| json_exact_list l : Forall json_exact l -> json_exact (PList l)
| json_exact_dict d :
    NoDup (fst <$> d) -> Forall (fun kv => json_exact (snd kv)) d ->
    json_exact (PDict d).

(** *** Texts *)

Module Text.
Import Json.

(** What may follow a value in a text: nothing, a comma or a closing
    bracket. *)
Definition delim (r : chars) : Prop :=
  match r with
  | [] => True
  | c :: _ => c = ","%char \/ c = "]"%char \/ c = "}"%char
  end.

(** A text that starts as the text of a value does: with no white space
    and no closing bracket. *)
Definition starts_value (t : chars) : Prop :=
  match t with
  | c :: _ =>
      is_ws c = false /\ (N_of_ascii c =? 93)%N = false
      /\ (N_of_ascii c =? 125)%N = false
  | [] => False
  end.

Definition sep : chars := chars_of ", ".

(** The round trip of one value, with the bound on the depth of the
    calls. *)
Definition reads_back (v : pyval) : Prop :=
  json_exact v ->
  forall t, encode v = Some t ->
  forall n rest, length t <= n -> delim rest ->
  parse_value n (t ++ rest) = Some (v, rest).

(** A text without a NUL character. *)
Definition clean (t : chars) : Prop :=
  existsb (Ascii.eqb "000"%char) t = false.

End Text.

(** *** The inputs of the examples of the specification *)

(** A segment of a reference, as a string. *)
Definition is_segment (w : string) : Prop :=
  w <> EmptyString /\ forallb Re.is_word (chars_of w) = true.

(** The metadata tree of the end-to-end example. *)
Definition entry_tree : list (string * pyval) :=
  [("entry",
    PDict [("_attributes", PDict [("NX_Class", PStr "NXEntry")]);
           ("title", PStr "#bluesky/start/sample_name")])].

(** ** Definitions for the further properties *)

(** *** What a run keeps *)

Module Keep.
Import H5.

(** The object [o'] has the links of the group [o] and maybe more, or the
    data of the dataset [o]. *)
Definition extends (o o' : obj) : Prop :=
  match content o with
  | Group l =>
      exists l', content o' = Group l'
                 /\ forall n g, l !! n = Some g -> l' !! n = Some g
  | Dataset d => content o' = Dataset d
  end.

(** Every object of [st] is in [st'] at the same place, with its links or
    its data. *)
Definition grows (st st' : file) : Prop :=
  forall i o, st !! i = Some o ->
              exists o', st' !! i = Some o' /\ extends o o'.

(** A computation that only ever makes the file grow, whether it returns
    or raises. *)
Definition growing {A} (m : M A) : Prop :=
  forall st r st', m st = (r, st') -> grows st st'.

End Keep.

(** *** The values that the walk turns into links *)

(** [isinstance(v, str) and v.startswith("#bluesky")] *)
Definition is_reference (v : pyval) : bool :=
  match v with
  | PStr s => startswith (chars_of "#bluesky") (chars_of s)
  | _ => false
  end.

(** The reference string of a value that the walk turns into a link: the
    string itself, or the string under [_link] of a mapping. *)
Definition link_text (v : pyval) : option string :=
  match v with
  | PStr s =>
      if startswith (chars_of "#bluesky") (chars_of s) then Some s else None
  | PDict sub =>
      match dict_get "_link" sub with
      | Some (PStr s) => Some s
      | _ => None
      end
  | _ => None
  end.

(** The dictionary [d] without the key [k]. *)
Definition without (k : string) (d : list (string * pyval))
  : list (string * pyval) :=
  List.filter (fun kv => negb (String.eqb (fst kv) k)) d.

(** *** The dictionaries that the two plain copies can store *)

Module Storable.
Import H5 Copy.

Section WithFormat.
Context {F : Format}.



End WithFormat.


End Storable.

(** *** What a JSON text gives back *)

(** The value with every tuple turned into a list. *)
Fixpoint listify (v : pyval) : pyval :=
  match v with
  | PList l | PTuple l => PList (map listify l)
  | PDict d => PDict (map (fun kv => (fst kv, listify (snd kv))) d)
  | _ => v
  end.


(** No bytes, and each key of a dictionary once. *)
#[warnings="-register-all"]
Inductive json_value : pyval -> Prop :=
| json_value_none : json_value PNone
| json_value_bool b : json_value (PBool b)
| json_value_int z : json_value (PInt z)
| json_value_str s : json_value (PStr s)
| json_value_list l : Forall json_value l -> json_value (PList l)
| json_value_tuple l : Forall json_value l -> json_value (PTuple l)
| json_value_dict d :
    NoDup (fst <$> d) -> Forall (fun kv => json_value (snd kv)) d ->
    json_value (PDict d).

(** *** The nexus metadata that the walk can store *)

Module WellFormed.
Import H5 Obs.

Section WithFormat.
Context {F : Format}.

(** The format takes the values of the attributes. *)
Definition attrs_taken (al : list (string * pyval)) : Prop :=
  Forall (fun kv => attr_check (snd kv) = None) al.

(** A mapping that describes a link or a dataset and nothing below it: it
    has the reserved keys only, each once, and the format takes the values
    under [_attributes]. *)
Definition described (sub : list (string * pyval)) : Prop :=
  NoDup (fst <$> sub)
  /\ Forall (fun kv =>
               fst kv = "_data" \/ fst kv = "_link"
               \/ (fst kv = "_attributes"
                   /\ exists al, snd kv = PDict al /\ attrs_taken al))
            sub.

(** The reference string parses, and in the file [st0] it names an
    object. *)
Definition resolves (st0 : file) (v : pyval) : Prop :=
  exists s p t,
    v = PStr s /\ _parse_bluesky_document_path s = Ok p
    /\ walk st0 0 ("bluesky" :: doc p :: keys p) = Some t
    /\ is_Some (st0 !! t).

(** What the item of one key asks for, branch by branch of the loop; the
    mappings that become groups are looked at in [nexus_ok]. *)
Definition item_ok (st0 : file) (k : string) (v : pyval) : Prop :=
  if String.eqb k "_data" || String.eqb k "_link" then True
  else if String.eqb k "_attributes" then
    exists al, v = PDict al /\ attrs_taken al
  else
    match v with
    | PDict sub =>
        match dict_get "_link" sub with
        | Some link => resolves st0 link /\ described sub
        | None =>
            match dict_get "_data" sub with
            | Some data => data_check (Raw data) = None /\ described sub
            | None => True
            end
        end
    | PStr s =>
        if startswith (chars_of "#bluesky") (chars_of s)
        then resolves st0 v else data_check (Raw v) = None
    | _ => data_check (Raw v) = None
    end.

(** Each key once, every item as [item_ok] asks, and so at every depth
    of the mappings that become groups. *)
Inductive nexus_ok (st0 : file) : list (string * pyval) -> Prop :=
| nexus_ok_intro items :
    NoDup (fst <$> items) ->
    (forall k v, In (k, v) items -> item_ok st0 k v) ->
    (forall k sub,
        In (k, PDict sub) items -> ~ reserved k ->
        dict_has "_link" sub = false -> dict_has "_data" sub = false ->
        nexus_ok st0 sub) ->
    nexus_ok st0 items.

End WithFormat.
End WellFormed.

Module Links.
Import H5.

(** From [st] to [st'] every object other than [h] keeps its links or its
    data, and the group [h] keeps its links under the names outside
    [K]. *)
Definition links_kept (h : ref) (K : string -> Prop) (st st' : file) : Prop :=
  (forall i o, st !! i = Some o -> i <> h ->
     exists o', st' !! i = Some o' /\ content o' = content o)
  /\ (forall a l, st !! h = Some (Obj a (Group l)) ->
        exists a' l', st' !! h = Some (Obj a' (Group l'))
                      /\ forall n, ~ K n -> l' !! n = l !! n).

End Links.

(** * Facts *)

(** ** The matcher and the parser *)

Module ReFacts.
Import Re First.

Lemma run_Seq r1 r2 s c :
  run (Seq r1 r2) s c = flat_map (fun m => run r2 (fst m) (snd m)) (run r1 s c).
Proof. reflexivity. Qed.

Lemma run_Alt r1 r2 s c : run (Alt r1 r2) s c = run r1 s c ++ run r2 s c.
Proof. reflexivity. Qed.

Lemma run_Star r s c : run (Star r) s c = star_loop (run r) (length s) s c.
Proof. reflexivity. Qed.

Lemma run_Opt r s c : run (Opt r) s c = run r s c ++ [(s, c)].
Proof. reflexivity. Qed.

Lemma run_Group name r s c :
  run (Group name r) s c
  = map (fun m => (fst m, (name, firstn (length s - length (fst m)) s) :: snd m))
        (run r s c).
Proof. reflexivity. Qed.

Lemma run_Chr a s c :
  run (Chr a) s c
  = match s with
    | b :: s' => if Ascii.eqb a b then [(s', c)] else []
    | [] => []
    end.
Proof. reflexivity. Qed.

Lemma run_Word s c :
  run Word s c
  = match s with
    | b :: s' => if is_word b then [(s', c)] else []
    | [] => []
    end.
Proof. reflexivity. Qed.

Lemma run_Lit l s c :
  run (Lit l) s c = if startswith l s then [(drop (length l) s, c)] else [].
Proof.
  revert s. induction l as [|a l IH]; intros s; [done|].
  cbn [Lit]. rewrite run_Seq, run_Chr.
  destruct s as [|b s]; [done|]. cbn [startswith].
  destruct (Ascii.eqb a b); [|done]. cbn [flat_map fst snd length drop andb].
  rewrite IH. apply app_nil_r.
Qed.

Lemma run_Seq_Lit l r s c :
  run (Seq (Lit l) r) s c
  = if startswith l s then run r (drop (length l) s) c else [].
Proof.
  rewrite run_Seq, run_Lit. destruct (startswith l s); [|done].
  cbn [flat_map fst snd]. apply app_nil_r.
Qed.

Lemma star_word_head n s c :
  length s <= n ->
  exists t, star_loop (run Word) n s c = (skip_word s, c) :: t.
Proof.
  revert s. induction n as [|n IH]; intros s Hn.
  - destruct s; [|simpl in Hn; lia]. simpl. eauto.
  - destruct s as [|b s]; [simpl; eauto|].
    cbn [star_loop skip_word]. rewrite run_Word.
    destruct (is_word b); [|simpl; eauto].
    cbn [flat_map fst snd].
    assert (Hlt : (length s <? length (b :: s))%nat = true)
      by (apply Nat.ltb_lt; simpl; lia).
    rewrite Hlt. destruct (IH s) as [t Ht]; [simpl in Hn; lia|].
    rewrite Ht. simpl. eauto.
Qed.

Lemma run_plus_word_head b s c :
  is_word b = true ->
  exists t, run (Plus Word) (b :: s) c = (skip_word s, c) :: t.
Proof.
  intros Hb. unfold Plus. rewrite run_Seq, run_Word, Hb.
  cbn [flat_map fst snd]. rewrite run_Star.
  destruct (star_word_head (length s) s c) as [t Ht]; [lia|].
  rewrite Ht. simpl. eauto.
Qed.

Lemma run_plus_word_nil s c :
  match s with b :: _ => is_word b = false | [] => True end ->
  run (Plus Word) s c = [].
Proof.
  intros H. unfold Plus. rewrite run_Seq, run_Word. destruct s as [|b s]; [done|].
  rewrite H. done.
Qed.

Lemma run_key_head b s c :
  is_word b = true ->
  exists t, run key_re ("/"%char :: b :: s) c = (skip_word s, c) :: t.
Proof.
  intros Hb. unfold key_re. rewrite run_Seq, run_Chr.
  cbn [Ascii.eqb Bool.eqb flat_map fst snd]. rewrite app_nil_r.
  by apply run_plus_word_head.
Qed.

Lemma run_key_nil s c :
  match s with
  | a :: b :: _ => a = "/"%char -> is_word b = false
  | _ => True
  end ->
  run key_re s c = [].
Proof.
  intros H. unfold key_re. rewrite run_Seq, run_Chr.
  destruct s as [|a s]; [done|].
  destruct (Ascii.eqb_spec "/"%char a) as [<-|]; [|done].
  cbn [flat_map fst snd]. rewrite app_nil_r. apply run_plus_word_nil.
  destruct s as [|b s]; [done|]. by apply H.
Qed.

Lemma skip_word_length s : length (skip_word s) <= length s.
Proof.
  induction s as [|b s IH]; simpl; [lia|]. destruct (is_word b); simpl; lia.
Qed.

Lemma star_keys_head n s c :
  length s <= n ->
  exists t, star_loop (run key_re) n s c = (skip_keys n s, c) :: t.
Proof.
  revert s. induction n as [|n IH]; intros s Hn.
  - simpl. eauto.
  - cbn [star_loop skip_keys].
    destruct s as [|a [|b s]].
    + rewrite run_key_nil by done. simpl. eauto.
    + rewrite run_key_nil by done. simpl. eauto.
    + destruct (Ascii.eqb_spec "/"%char a) as [<-|Hne]; cbn [andb].
      * destruct (is_word b) eqn:Hb.
        -- destruct (run_key_head b s c Hb) as [t Ht]. rewrite Ht.
           cbn [flat_map fst snd].
           pose proof (skip_word_length s) as Hl.
           assert (Hlt : (length (skip_word s) <? length ("/"%char :: b :: s))%nat = true)
             by (apply Nat.ltb_lt; simpl; lia).
           rewrite Hlt. destruct (IH (skip_word s)) as [t' Ht'];
             [simpl in Hn; lia|].
           rewrite Ht'. simpl. eauto.
        -- rewrite run_key_nil; [simpl; eauto|]. intros _. done.
      * rewrite run_key_nil; [simpl; eauto|]. intros ?. congruence.
Qed.

Lemma startswith_spec l s :
  startswith l s = true <-> exists r, s = l ++ r.
Proof.
  revert s. induction l as [|a l IH]; intros s; simpl.
  - split; eauto.
  - destruct s as [|b s]; [split; [done|intros [r Hr]; done]|].
    rewrite andb_true_iff, IH. split.
    + intros [Hab [r ->]]. apply Ascii.eqb_eq in Hab as ->. eauto.
    + intros [r Hr]. injection Hr as -> ->. rewrite Ascii.eqb_refl. eauto.
Qed.

Lemma firstn_consumed {A} (l r : list A) :
  firstn (length (l ++ r) - length r) (l ++ r) = l.
Proof.
  rewrite length_app. replace (length l + length r - length r) with (length l) by lia.
  by rewrite take_app_length.
Qed.

Lemma flat_map_head {A B} (f : A -> list B) x t y t' :
  f x = y :: t' -> exists t'', flat_map f (x :: t) = y :: t''.
Proof. intros H. simpl. rewrite H. simpl. eauto. Qed.

Lemma query_re_eq :
  _bluesky_doc_query_re
  = Seq (Lit (chars_of "#bluesky/")) (Seq doc_re (Seq keys_re attr_re)).
Proof. reflexivity. Qed.

Lemma run_doc_first s c :
  match doc_first s c with
  | Some m => exists t, run doc_re s c = m :: t
  | None => run doc_re s c = []
  end.
Proof.
  unfold doc_first, doc_re. rewrite run_Group, !run_Alt, !run_Lit, run_Seq_Lit.
  destruct (startswith (chars_of "start") s) eqn:H1.
  { apply startswith_spec in H1 as [r ->]. cbn [map app fst snd].
    change (length (chars_of "start")) with 5.
    change (drop 5 (chars_of "start" ++ r)) with r.
    rewrite firstn_consumed. eauto. }
  destruct (startswith (chars_of "stop") s) eqn:H2.
  { apply startswith_spec in H2 as [r ->]. cbn [map app fst snd].
    change (length (chars_of "stop")) with 4.
    change (drop 4 (chars_of "stop" ++ r)) with r.
    rewrite firstn_consumed. eauto. }
  destruct (startswith (chars_of "desc/") s) eqn:H3; [|done].
  cbn [app]. rewrite run_Group.
  destruct (drop _ s) as [|b s'] eqn:Hd.
  { rewrite run_plus_word_nil by done. done. }
  destruct (is_word b) eqn:Hb.
  - destruct (run_plus_word_head b s' c Hb) as [t Ht]. rewrite Ht.
    simpl. eauto.
  - rewrite run_plus_word_nil by done. done.
Qed.

Lemma run_keys_first s c : exists t, run keys_re s c = keys_first s c :: t.
Proof.
  unfold keys_re, keys_first. rewrite run_Group, run_Star.
  destruct (star_keys_head (length s) s c) as [t Ht]; [lia|].
  rewrite Ht. simpl. eauto.
Qed.

Lemma run_attr_first s c : exists t, run attr_re s c = attr_first s c :: t.
Proof.
  unfold attr_re, attr_first. rewrite run_Opt, run_Seq, run_Chr.
  destruct s as [|a s]; [simpl; eauto|].
  destruct (Ascii.eqb "@"%char a); cbn [andb flat_map fst snd]; [|destruct s; simpl; eauto].
  rewrite app_nil_r, run_Group.
  destruct s as [|b s]; [by rewrite run_plus_word_nil; simpl; eauto|].
  destruct (is_word b) eqn:Hb.
  - destruct (run_plus_word_head b s c Hb) as [t Ht]. rewrite Ht. simpl. eauto.
  - rewrite run_plus_word_nil by done. simpl. eauto.
Qed.

Lemma rmatch_query s : rmatch _bluesky_doc_query_re s = query_first s.
Proof.
  unfold rmatch, query_first. rewrite query_re_eq, run_Seq_Lit.
  destruct (startswith _ s); [|done].
  change (length (chars_of "#bluesky/")) with 9.
  rewrite run_Seq. pose proof (run_doc_first (drop 9 s) []) as Hd.
  destruct (doc_first (drop 9 s) []) as [m1|]; [|by rewrite Hd].
  destruct Hd as [t ->]. cbn [flat_map]. rewrite run_Seq.
  destruct (run_keys_first (fst m1) (snd m1)) as [t2 ->]. cbn [flat_map].
  destruct (run_attr_first (fst (keys_first (fst m1) (snd m1)))
              (snd (keys_first (fst m1) (snd m1)))) as [t3 ->].
  reflexivity.
Qed.

(** *** Segments, and what the scanners do at their end *)

Import Grammar.

Lemma chars_of_app a b : chars_of (a ++ b)%string = chars_of a ++ chars_of b.
Proof. induction a as [|x a IH]; simpl; [done|]. by rewrite <- IH. Qed.

Lemma str_of_chars_of s : str_of (chars_of s) = s.
Proof. apply string_of_list_ascii_of_string. Qed.

Lemma chars_of_str_of l : chars_of (str_of l) = l.
Proof. apply list_ascii_of_string_of_list_ascii. Qed.

Lemma skip_word_stops r : stops r -> skip_word r = r.
Proof. destruct r as [|a r]; simpl; [done|]. by intros ->. Qed.

Lemma skip_word_app w r :
  forallb is_word w = true -> skip_word (w ++ r) = skip_word r.
Proof.
  induction w as [|b w IH]; simpl; [done|].
  intros [-> Hw]%andb_true_iff. by apply IH.
Qed.

Lemma skip_segment w r :
  forallb is_word w = true -> stops r -> skip_word (w ++ r) = r.
Proof. intros Hw Hr. by rewrite skip_word_app, skip_word_stops. Qed.

Lemma stops_keys_attr segs attr : stops (keys_text segs ++ attr_text attr).
Proof. destruct segs; [destruct attr|]; done. Qed.

Lemma skip_keys_text n segs attr :
  Forall segment segs -> length segs <= n ->
  skip_keys n (keys_text segs ++ attr_text attr) = attr_text attr.
Proof.
  intros Hs. revert n. induction Hs as [|w segs [Hne Hw] Hs IH]; intros n Hn.
  - destruct n, attr as [[|? ?]|]; done.
  - destruct n as [|n]; [simpl in Hn; lia|].
    destruct w as [|b w]; [done|].
    simpl in Hw. apply andb_true_iff in Hw as [Hb Hw].
    unfold keys_text. cbn [map concat app skip_keys].
    rewrite Hb. cbn [Ascii.eqb Bool.eqb andb].
    rewrite <- app_assoc. fold (keys_text segs).
    rewrite skip_segment by (done || apply stops_keys_attr).
    apply IH. simpl in Hn. lia.
Qed.

Lemma keys_text_length segs :
  Forall segment segs -> length segs <= length (keys_text segs).
Proof.
  induction 1 as [|w segs _ _ IH]; simpl; [lia|].
  unfold keys_text in *. cbn [map concat]. rewrite length_app. simpl. lia.
Qed.

Lemma keys_first_text segs attr c :
  Forall segment segs ->
  keys_first (keys_text segs ++ attr_text attr) c
  = (attr_text attr, ("all_keys", keys_text segs) :: c).
Proof.
  intros Hs. unfold keys_first.
  rewrite skip_keys_text; [|done|].
  - by rewrite firstn_consumed.
  - rewrite length_app. pose proof (keys_text_length segs Hs). lia.
Qed.

Lemma attr_first_text attr c :
  match attr with Some a => segment a | None => True end ->
  snd (attr_first (attr_text attr) c)
  = match attr with Some a => ("attribute", a) :: c | None => c end.
Proof.
  destruct attr as [a|]; [|done]. intros [Hne Hw].
  destruct a as [|b a]; [done|]. simpl in Hw.
  apply andb_true_iff in Hw as [Hb Hw].
  cbn [attr_text attr_first]. rewrite Hb. cbn [Ascii.eqb Bool.eqb andb snd].
  assert (Hsk : skip_word a = []).
  { rewrite <- (app_nil_r a). by apply skip_segment. }
  rewrite Hsk. simpl. by rewrite firstn_all.
Qed.

Lemma doc_first_text k r c :
  match k with KDesc w => segment w | _ => True end -> stops r ->
  doc_first (kind_text k ++ r) c
  = Some (r, ("doc", kind_text k)
               :: match k with KDesc w => [("stream", w)] | _ => [] end ++ c).
Proof.
  intros Hk Hr. destruct k as [| |w]; [done|done|].
  destruct Hk as [Hne Hw]. destruct w as [|b w]; [done|].
  simpl in Hw. apply andb_true_iff in Hw as [Hb Hw].
  unfold doc_first. cbn [kind_text].
  change (startswith (chars_of "start") _) with false.
  change (startswith (chars_of "stop") _) with false.
  change (startswith (chars_of "desc/") _) with true.
  cbn iota.
  change (drop 5 ((chars_of "desc/" ++ b :: w) ++ r)) with (b :: w ++ r).
  cbn iota. rewrite Hb, skip_segment by done.
  rewrite firstn_consumed.
  change (b :: w ++ r) with ((b :: w) ++ r). by rewrite firstn_consumed.
Qed.

Lemma query_first_reference k segs attr :
  well_formed k segs attr ->
  query_first (reference k segs attr)
  = Some (match attr with Some a => [("attribute", a)] | None => [] end
          ++ ("all_keys", keys_text segs) :: ("doc", kind_text k)
          :: match k with KDesc w => [("stream", w)] | _ => [] end).
Proof.
  intros (Hk & Hs & Ha). unfold query_first, reference.
  change (startswith _ (chars_of "#bluesky/" ++ _)) with true. cbn iota.
  change (drop 9 (chars_of "#bluesky/" ++ ?x)) with x.
  rewrite doc_first_text by (done || apply stops_keys_attr).
  cbn [fst snd]. rewrite keys_first_text by done. cbn [fst snd].
  rewrite attr_first_text by done. rewrite app_nil_r.
  by destruct attr.
Qed.

(** *** [split] on segments *)

Lemma is_word_slash : is_word "/" = false.
Proof. reflexivity. Qed.

Lemma split_no_sep w :
  forallb is_word w = true -> split "/" w = [w].
Proof.
  induction w as [|b w IH]; simpl; [done|].
  intros [Hb Hw]%andb_true_iff.
  destruct (Ascii.eqb_spec b "/") as [->|_]; [by rewrite is_word_slash in Hb|].
  by rewrite IH.
Qed.

Lemma split_at_sep w r :
  forallb is_word w = true -> split "/" (w ++ "/"%char :: r) = w :: split "/" r.
Proof.
  induction w as [|b w IH]; simpl; [done|].
  intros [Hb Hw]%andb_true_iff.
  destruct (Ascii.eqb_spec b "/") as [->|_]; [by rewrite is_word_slash in Hb|].
  by rewrite IH.
Qed.

Lemma split_keys_text w segs :
  forallb is_word w = true -> Forall segment segs ->
  split "/" (w ++ keys_text segs) = w :: segs.
Proof.
  intros Hw Hs. revert w Hw. induction Hs as [|x segs [_ Hx] _ IH]; intros w Hw.
  - unfold keys_text. simpl. rewrite app_nil_r. by apply split_no_sep.
  - unfold keys_text. cbn [map concat]. fold (keys_text segs).
    cbn [app]. rewrite split_at_sep by done. by rewrite IH.
Qed.

(** *** The parser on the references of the grammar *)

Lemma parse_query s :
  _parse_bluesky_document_path s
  = match query_first (chars_of s) with
    | None => Raise (FailedToParse s)
    | Some m =>
        match cap_get "doc" m, cap_get "all_keys" m with
        | Some d, Some ak =>
            Ok {| doc := str_of (if startswith (chars_of "desc") d
                                 then hd [] (split "/" d) else d);
                  stream := str_of <$> cap_get "stream" m;
                  all_keys := Some (str_of ak);
                  attribute := str_of <$> cap_get "attribute" m;
                  keys := str_of <$> tl (split "/" ak) |}
        | _, _ => Raise AttributeError
        end
    end.
Proof. unfold _parse_bluesky_document_path. by rewrite rmatch_query. Qed.

Lemma parse_reference k segs attr :
  well_formed k segs attr ->
  _parse_bluesky_document_path (str_of (reference k segs attr))
  = Ok (descriptor k segs attr).
Proof.
  intros Hwf. rewrite parse_query, chars_of_str_of.
  rewrite query_first_reference by done.
  destruct Hwf as (Hk & Hs & Ha). unfold descriptor.
  assert (Hkeys : tl (split "/" (keys_text segs)) = segs).
  { change (keys_text segs) with ([] ++ keys_text segs).
    by rewrite split_keys_text. }
  assert (Hdoc : (if startswith (chars_of "desc") (kind_text k)
                  then hd [] (split "/" (kind_text k)) else kind_text k)
                 = kind_name k).
  { destruct k as [| |w]; [done|done|]. destruct Hk as [_ Hw].
    cbn [kind_text kind_name].
    change (startswith _ _) with true. cbn iota.
    change (chars_of "desc/" ++ w) with (chars_of "desc" ++ "/"%char :: w).
    by rewrite split_at_sep. }
  destruct attr as [a|], k as [| |w]; cbn [app cap_get String.eqb Ascii.eqb Bool.eqb];
    cbn [kind_stream fmap option_fmap option_map]; rewrite ?Hkeys, ?Hdoc; reflexivity.
Qed.

(** *** Which strings the parser takes *)

Lemma doc_first_some s c :
  is_Some (doc_first s c) <->
  (exists r, s = chars_of "start" ++ r) \/ (exists r, s = chars_of "stop" ++ r)
  \/ (exists b r, s = chars_of "desc/" ++ b :: r /\ is_word b = true).
Proof.
  unfold doc_first.
  destruct (startswith (chars_of "start") s) eqn:H1.
  { apply startswith_spec in H1. split; eauto. }
  destruct (startswith (chars_of "stop") s) eqn:H2.
  { apply startswith_spec in H2. split; eauto. }
  assert (N1 : ~ exists r, s = chars_of "start" ++ r)
    by (rewrite <- startswith_spec; congruence).
  assert (N2 : ~ exists r, s = chars_of "stop" ++ r)
    by (rewrite <- startswith_spec; congruence).
  destruct (startswith (chars_of "desc/") s) eqn:H3.
  - apply startswith_spec in H3 as [r ->].
    change (drop 5 (chars_of "desc/" ++ r)) with r.
    destruct r as [|b r].
    + split; [by intros []|]. intros [|[|(b & r & Heq & _)]]; done.
    + destruct (is_word b) eqn:Hb.
      * split; eauto 10.
      * split; [by intros []|].
        intros [|[|(b' & r' & Heq & Hb')]]; [done|done|].
        apply app_inv_head in Heq. congruence.
  - split; [by intros []|].
    intros [|[|(b & r & Heq & _)]]; [done|done|].
    assert (exists r, s = chars_of "desc/" ++ r) as Hx by eauto.
    apply startswith_spec in Hx. congruence.
Qed.

Lemma query_first_some s :
  is_Some (query_first s) <-> has_grammar_prefix s.
Proof.
  unfold query_first.
  destruct (startswith (chars_of "#bluesky/") s) eqn:H0.
  - apply startswith_spec in H0 as [t ->].
    change (drop 9 (chars_of "#bluesky/" ++ t)) with t.
    transitivity (is_Some (doc_first t [])).
    { destruct (doc_first t []); [|done]. split; eauto. }
    rewrite doc_first_some. split.
    + intros [[r ->]|[[r ->]|(b & r & -> & Hb)]].
      * exists (reference KStart [] None), r. split; [done|].
        exists KStart, [], None. repeat split; done.
      * exists (reference KStop [] None), r. split; [done|].
        exists KStop, [], None. repeat split; done.
      * exists (reference (KDesc [b]) [] None), r. split; [done|].
        exists (KDesc [b]), [], None. repeat split; try done.
        simpl. by rewrite Hb.
    + intros (p & r & Heq & k & segs & attr & (Hk & _ & _) & ->).
      unfold reference in Heq. rewrite <- !app_assoc in Heq.
      apply app_inv_head in Heq as ->.
      destruct k as [| |w]; [left|right; left|right; right]; eauto.
      destruct Hk as [Hne Hw]. destruct w as [|b w]; [done|].
      simpl in Hw. apply andb_true_iff in Hw as [Hb _].
      exists b. eexists. split; [|done]. cbn [kind_text].
      rewrite <- app_assoc. reflexivity.
  - split; [by intros []|].
    intros (p & r & Heq & k & segs & attr & _ & ->).
    assert (exists r, s = chars_of "#bluesky/" ++ r) as Hx.
    { unfold reference in Heq. rewrite <- app_assoc in Heq. eauto. }
    apply startswith_spec in Hx. congruence.
Qed.

Lemma attr_first_keeps name s c :
  name <> "attribute" ->
  cap_get name (snd (attr_first s c)) = cap_get name c.
Proof.
  intros Hn. unfold attr_first.
  destruct s as [|a [|b s]]; [done|done|].
  destruct (_ && _); [|done]. cbn [snd cap_get].
  destruct (String.eqb_spec name "attribute"); done.
Qed.

Lemma query_first_caps s m :
  query_first s = Some m ->
  is_Some (cap_get "doc" m) /\ is_Some (cap_get "all_keys" m).
Proof.
  unfold query_first. destruct (startswith _ s); [|done].
  destruct (doc_first (drop 9 s) []) as [[r c]|] eqn:Hd; [|done].
  intros [= <-]. rewrite !attr_first_keeps by done.
  cbn [keys_first fst snd cap_get String.eqb Ascii.eqb Bool.eqb].
  split; [|by eauto].
  unfold doc_first in Hd.
  repeat (destruct (startswith _ _); [injection Hd as <- <-; simpl; eauto|]).
  destruct (startswith _ _); [|done].
  destruct (drop 5 _); [done|]. destruct (is_word _); [|done].
  injection Hd as <- <-. simpl; eauto.
Qed.

Lemma parse_outcome s :
  match _parse_bluesky_document_path s with
  | Ok _ => has_grammar_prefix (chars_of s)
  | Raise e => e = FailedToParse s /\ ~ has_grammar_prefix (chars_of s)
  end.
Proof.
  rewrite parse_query. pose proof (query_first_some (chars_of s)) as Hs.
  destruct (query_first (chars_of s)) as [m|] eqn:Hq.
  - destruct (query_first_caps _ _ Hq) as [[d ->] [ak ->]].
    apply Hs. eauto.
  - split; [done|]. intros Hp. apply Hs in Hp. by destruct Hp.
Qed.

(** A reference of the grammar is read back from the descriptor it parses
    to, which decides the grammar. *)
Lemma str_of_inj a b : str_of a = str_of b -> a = b.
Proof.
  intros H. rewrite <- (chars_of_str_of a), <- (chars_of_str_of b). by f_equal.
Qed.

Lemma matches_grammar_parse p d :
  matches_grammar p ->
  _parse_bluesky_document_path (str_of p) = Ok d ->
  exists k segs attr,
    p = reference k segs attr /\ d = descriptor k segs attr.
Proof.
  intros (k & segs & attr & Hwf & ->) Hp.
  rewrite parse_reference in Hp by done. injection Hp as <-. eauto.
Qed.
End ReFacts.

(** ** The file *)

Module H5Facts.
Import H5 H5ops Obs.
Local Open Scope h5_scope.

Section WithFormat.
Context {F : Format}.

(** *** What each operation does to the file *)

Lemma get_item_inv h k st r st' :
  get_item h k st = (r, st') ->
  st' = st /\ (forall g, r = Ok g <-> child st h k = Some g).
Proof.
  unfold get_item, child. intros H.
  destruct (st !! h) as [[a [links|d]]|]; [|by simplify_eq; split; [|split]..].
  destruct (links !! k); simplify_eq; split; try done; split; congruence.
Qed.

Lemma get_item_ok h k st g :
  child st h k = Some g -> get_item h k st = (Ok g, st).
Proof.
  unfold get_item, child. destruct (st !! h) as [[a [links|d]]|]; try done.
  by intros ->.
Qed.

Lemma set_item_inv h k t st r st' :
  set_item h k t st = (r, st') ->
  (st' = st /\ exists e, r = Raise e)
  \/ (r = Ok tt /\ exists a links,
        st !! h = Some (Obj a (Group links)) /\ links !! k = None
        /\ st' = <[h := Obj a (Group (<[k := t]> links))]> st).
Proof.
  unfold set_item. intros H.
  destruct (st !! h) as [[a [links|d]]|]; [|simplify_eq; eauto..].
  destruct (links !! k) eqn:E; simplify_eq; [eauto|].
  right. split; [done|]. eauto.
Qed.

Lemma set_attr_inv h n v st r st' :
  set_attr h n v st = (r, st') ->
  (st' = st /\ (r = Raise ValueError /\ st !! h = None
                \/ exists e, r = Raise e /\ attr_check v = Some e))
  \/ (r = Ok tt /\ attr_check v = None /\ exists a b,
        st !! h = Some (Obj a b)
        /\ st' = <[h := Obj (<[n := v]> a) b]> st).
Proof.
  unfold set_attr. intros H.
  destruct (st !! h) as [[a b]|]; [|simplify_eq; eauto].
  destruct (attr_check v) eqn:E; simplify_eq; [eauto 10|].
  right. eauto 10.
Qed.

Lemma create_child_inv h name chk o st r st' :
  create_child h name chk o st = (r, st') ->
  (st' = st /\ exists e, r = Raise e
     /\ (chk = Some e \/ e = ValueError \/ e = AttributeError))
  \/ (r = Ok (length st) /\ chk = None /\ exists a links,
        st !! h = Some (Obj a (Group links)) /\ links !! name = None
        /\ st' = <[h := Obj a (Group (<[name := length st]> links))]> st
                   ++ [o]).
Proof.
  unfold create_child. intros H.
  destruct (st !! h) as [[a [links|d]]|]; [|simplify_eq; eauto 10..].
  destruct chk; simplify_eq; [eauto 10|].
  destruct (links !! name) eqn:E; simplify_eq; [eauto 10|].
  right. eauto 10.
Qed.

(** *** Frames *)

Lemma same_at_refl keep o : same_at keep o o.
Proof. split; [done|]. destruct (content o); eauto. Qed.

Lemma frame_refl h K st : frame h K st st.
Proof.
  split; [done|]. split; [done|]. intros o Ho. exists o.
  split; [done|]. apply same_at_refl.
Qed.

Lemma frame_weaken h (K K' : string -> Prop) st st' :
  (forall n, K n -> K' n) -> frame h K st st' -> frame h K' st st'.
Proof.
  intros HK (Hl & Hi & Ho). split; [done|]. split; [done|].
  intros o Hs. destruct (Ho o Hs) as (o' & Ho' & Ha & Hc).
  exists o'. split; [done|]. split; [intros n Hn; apply Ha; naive_solver|].
  destruct (content o); [|done]. destruct Hc as (l' & -> & Hl').
  exists l'. split; [done|]. intros n Hn. apply Hl'. naive_solver.
Qed.

Lemma same_at_trans keep o1 o2 o3 :
  same_at keep o1 o2 -> same_at keep o2 o3 -> same_at keep o1 o3.
Proof.
  intros [Ha1 Hc1] [Ha2 Hc2]. split.
  - intros n Hn. by rewrite Ha2, Ha1.
  - destruct (content o1).
    + destruct Hc1 as (l2 & E2 & Hl2). rewrite E2 in Hc2.
      destruct Hc2 as (l3 & E3 & Hl3). exists l3. split; [done|].
      intros n Hn. by rewrite Hl3, Hl2.
    + rewrite Hc1 in Hc2. done.
Qed.

Lemma frame_trans h K st1 st2 st3 :
  frame h K st1 st2 -> frame h K st2 st3 -> frame h K st1 st3.
Proof.
  intros (Hl1 & Hi1 & Ho1) (Hl2 & Hi2 & Ho2). split; [lia|]. split.
  - intros i Hi Hne. rewrite Hi2 by (done || lia). by apply Hi1.
  - intros o Hs. destruct (Ho1 o Hs) as (o2 & Hs2 & Hsame2).
    destruct (Ho2 o2 Hs2) as (o3 & Hs3 & Hsame3).
    exists o3. split; [done|]. by eapply same_at_trans.
Qed.

Lemma insert_frame h (K : string -> Prop) st o o' :
  st !! h = Some o -> same_at (fun n => ~ K n) o o' ->
  frame h K st (<[h := o']> st).
Proof.
  intros Hs Hsame. split; [by rewrite length_insert|]. split.
  - intros i _ Hne. by rewrite list_lookup_insert_ne.
  - intros o0 Hs0. assert (o0 = o) as -> by congruence.
    exists o'. split; [|done]. apply list_lookup_insert_eq.
    by eapply lookup_lt_Some.
Qed.

Lemma frame_app h K st st' extra :
  frame h K st st' -> frame h K st (st' ++ extra).
Proof.
  intros (Hl & Hi & Ho). split; [rewrite length_app; lia|]. split.
  - intros i Hi' Hne. rewrite lookup_app_l by lia. by apply Hi.
  - intros o Hs. destruct (Ho o Hs) as (o' & Hs' & Hsame).
    exists o'. split; [|done]. rewrite lookup_app_l; [done|].
    by eapply lookup_lt_Some.
Qed.

Lemma set_attr_frame h n v st r st' :
  set_attr h n v st = (r, st') -> frame h (fun x => x = n) st st'.
Proof.
  intros [[-> _]|(_ & _ & a & b & Hs & ->)]%set_attr_inv;
    [apply frame_refl|].
  eapply insert_frame; [done|]. split; simpl.
  - intros x Hx. rewrite lookup_insert_ne; [done|]. congruence.
  - destruct b; eauto.
Qed.

Lemma set_item_frame h k t st r st' :
  set_item h k t st = (r, st') -> frame h (fun x => x = k) st st'.
Proof.
  intros [[-> _]|(_ & a & links & Hs & _ & ->)]%set_item_inv;
    [apply frame_refl|].
  eapply insert_frame; [done|]. split; simpl; [done|].
  eexists. split; [done|]. intros x Hx.
  rewrite lookup_insert_ne; [done|]. congruence.
Qed.

Lemma create_child_frame h k chk o st r st' :
  create_child h k chk o st = (r, st') -> frame h (fun x => x = k) st st'.
Proof.
  intros [[-> _]|(_ & _ & a & links & Hs & _ & ->)]%create_child_inv;
    [apply frame_refl|].
  apply frame_app. eapply insert_frame; [done|]. split; simpl; [done|].
  eexists. split; [done|]. intros x Hx.
  rewrite lookup_insert_ne; [done|]. congruence.
Qed.

(** What happens at an object created after [st] is outside the frame
    of an object of [st]. *)
Lemma frame_then_later h K g K' st st1 st2 :
  frame h K st st1 -> frame g K' st1 st2 -> length st <= g ->
  frame h K st st2.
Proof.
  intros (Hl1 & Hi1 & Ho1) (Hl2 & Hi2 & Ho2) Hg. split; [lia|]. split.
  - intros i Hi Hne. rewrite Hi2 by lia. by apply Hi1.
  - intros o Hs. destruct (Ho1 o Hs) as (o1 & Hs1 & Hsame).
    exists o1. split; [|done]. rewrite Hi2; [done| |].
    + by eapply lookup_lt_Some.
    + apply lookup_lt_Some in Hs. lia.
Qed.

(** *** Loops *)

Lemma for_each_cons {A} (f : A -> M unit) x l st :
  for_each f (x :: l) st
  = match f x st with
    | (Ok _, st1) => for_each f l st1
    | (Raise e, st1) => (Raise e, st1)
    end.
Proof. reflexivity. Qed.

Lemma for_each_app {A} (f : A -> M unit) l1 l2 st :
  for_each f (l1 ++ l2) st
  = match for_each f l1 st with
    | (Ok _, st1) => for_each f l2 st1
    | (Raise e, st1) => (Raise e, st1)
    end.
Proof.
  revert st. induction l1 as [|x l1 IH]; intros st; [done|].
  cbn [app]. rewrite !for_each_cons.
  destruct (f x st) as [[[]|e] st1]; [apply IH|done].
Qed.

Lemma for_each_ext {A} (f g : A -> M unit) l :
  Forall (fun x => forall st, f x st = g x st) l ->
  forall st, for_each f l st = for_each g l st.
Proof.
  induction 1 as [|x l Hx _ IH]; intros st; [done|].
  rewrite !for_each_cons, Hx. destruct (g x st) as [[[]|e] st1]; [apply IH|done].
Qed.

Lemma for_each_frame {A} (f : A -> M unit) (key : A -> string) h l :
  Forall (fun x => forall st r st',
            f x st = (r, st') -> frame h (fun n => n = key x) st st') l ->
  forall st r st',
    for_each f l st = (r, st') ->
    frame h (fun n => In n (key <$> l)) st st'.
Proof.
  induction 1 as [|x l Hx _ IH]; intros st r st' Hrun.
  - injection Hrun as <- <-. apply frame_refl.
  - rewrite for_each_cons in Hrun.
    destruct (f x st) as [[[]|e] st1] eqn:Hf.
    + eapply frame_trans.
      * eapply frame_weaken; [|by eapply Hx]. intros n ->. by left.
      * eapply frame_weaken; [|by eapply IH]. intros n Hn. by right.
    + injection Hrun as <- <-.
      eapply frame_weaken; [|by eapply Hx]. intros n ->. by left.
Qed.

(** *** Reading the file across a frame *)

Lemma child_lookup st h k g :
  child st h k = Some g ->
  exists a links, st !! h = Some (Obj a (Group links)) /\ links !! k = Some g.
Proof.
  unfold child. destruct (st !! h) as [[a [links|d]]|]; try done. eauto.
Qed.

Lemma child_frame h (K : string -> Prop) st st' k g :
  frame h K st st' -> ~ K k -> child st h k = Some g ->
  child st' h k = Some g.
Proof.
  intros (_ & _ & Ho) Hk (a & links & Hs & Hl)%child_lookup.
  destruct (Ho _ Hs) as ([a' b'] & Hs' & _ & Hc). simpl in Hc.
  destruct Hc as (l' & -> & Hl'). unfold child. rewrite Hs'.
  by rewrite Hl'.
Qed.

Lemma child_frame_other g K st st' h k :
  frame g K st st' -> h <> g -> h < length st ->
  child st' h k = child st h k.
Proof. intros (_ & Hi & _) Hne Hlt. unfold child. by rewrite Hi. Qed.

Lemma fresh_walk_walk st lo h path h' :
  fresh_walk st lo h path h' -> walk st h path = Some h'.
Proof.
  revert h. induction path as [|k path IH]; intros h; simpl.
  - by intros ->.
  - intros (g & -> & _ & Hw). by apply IH.
Qed.

Lemma fresh_walk_mono st lo lo' h path h' :
  lo' <= lo -> fresh_walk st lo h path h' -> fresh_walk st lo' h path h'.
Proof.
  intros Hlo. revert h. induction path as [|k path IH]; intros h; simpl; [done|].
  intros (g & Hc & Hg & Hw). exists g. split; [done|]. split; [lia|]. by apply IH.
Qed.

Lemma fresh_walk_bound st lo h path h' :
  fresh_walk st lo h path h' -> h' = h \/ lo <= h'.
Proof.
  revert h. induction path as [|k path IH]; intros h; simpl; [by left|].
  intros (g & _ & Hg & Hw). right. destruct (IH _ Hw) as [->|]; lia.
Qed.

Lemma fresh_walk_preserved st st' lo h path h' :
  (forall i, lo <= i -> i < length st -> st' !! i = st !! i) ->
  lo <= h -> fresh_walk st lo h path h' -> fresh_walk st' lo h path h'.
Proof.
  intros Hsame. revert h. induction path as [|k path IH]; intros h Hh; simpl; [done|].
  intros (g & Hc & Hg & Hw). exists g. split; [|split; [done|by apply IH]].
  destruct (child_lookup _ _ _ _ Hc) as (a & links & Hs & _).
  unfold child in *. rewrite Hsame; [done|done|]. by eapply lookup_lt_Some.
Qed.

Lemma frame_kept lo h (K : string -> Prop) k st st' :
  frame h K st st' -> ~ K k -> kept lo h k st st'.
Proof.
  intros (Hl & Hi & Ho) Hk. split; [done|]. split.
  - intros i _ Hlt Hne. by apply Hi.
  - intros o Hs. destruct (Ho o Hs) as (o' & Hs' & Ha & Hc).
    exists o'. split; [done|]. split; [by intros n ->; apply Ha|].
    destruct (content o); [|done]. destruct Hc as (l' & -> & Hl').
    exists l'. split; [done|]. intros n ->. by apply Hl'.
Qed.

Lemma kept_then_frame lo h k g K st1 st2 st' :
  kept lo h k st1 st2 -> frame g K st2 st' -> g < lo -> g <> h ->
  kept lo h k st1 st'.
Proof.
  intros (Hl1 & Hi1 & Ho1) (Hl2 & Hi2 & _) Hg Hne. split; [lia|]. split.
  - intros i Hlo Hlt Hih. rewrite Hi2 by lia. by apply Hi1.
  - intros o Hs. destruct (Ho1 o Hs) as (o' & Hs' & Hsame).
    exists o'. split; [|done]. rewrite Hi2; [done| |done].
    by eapply lookup_lt_Some.
Qed.

Lemma dict_get_split k m v :
  dict_get k m = Some v ->
  exists pre post, m = pre ++ (k, v) :: post /\ ~ In k (fst <$> pre).
Proof.
  induction m as [|[k' v'] m IH]; simpl; [done|].
  destruct (String.eqb_spec k k') as [<-|Hne].
  - intros [= ->]. exists [], m. split; [done|]. simpl. tauto.
  - intros (pre & post & -> & Hpre)%IH.
    exists ((k', v') :: pre), post. split; [done|]. simpl. intros [|]; done.
Qed.

Lemma dict_get_split_nodup k m v :
  NoDup (fst <$> m) -> dict_get k m = Some v ->
  exists pre post, m = pre ++ (k, v) :: post
                   /\ ~ In k (fst <$> pre) /\ ~ In k (fst <$> post).
Proof.
  intros Hnd (pre & post & -> & Hpre)%dict_get_split.
  exists pre, post. split; [done|]. split; [done|].
  rewrite fmap_app in Hnd. apply NoDup_app in Hnd as (_ & _ & Hnd).
  cbn [fmap list_fmap] in Hnd. apply NoDup_cons in Hnd as [Hnd _].
  intros Hin. apply Hnd. by apply list_elem_of_In.
Qed.

(** *** The shared recursion *)

Section Shared.
Import Shared.
Variable leaf : ref -> string -> pyval -> M unit.
Hypothesis leaf_frame :
  forall h k v st r st',
    leaf h k v st = (r, st') -> frame h (fun n => n = k) st st'.

Lemma copy_with_dict items h :
  copy_with leaf (PDict items) h
  = for_each (fun kv => item_with leaf (copy_with leaf) h (fst kv) (snd kv))
             items.
Proof. reflexivity. Qed.

Lemma item_with_frame v :
  (forall h st r st',
      copy_with leaf v h st = (r, st') ->
      frame h (fun n => In n (keys_of v)) st st') ->
  forall h k st r st',
    item_with leaf (copy_with leaf) h k v st = (r, st') ->
    frame h (fun n => n = k) st st'.
Proof.
  intros IH h k st r st' Hrun. unfold item_with in Hrun.
  destruct v; try by eapply leaf_frame.
  unfold bind in Hrun.
  destruct (create_group h k st) as [[g|e] st1] eqn:Hc.
  - pose proof (create_child_frame _ _ _ _ _ _ _ Hc) as Hf1.
    apply create_child_inv in Hc as [[_ [? [? _]]]|(Hg & _)]; [done|].
    injection Hg as ->.
    eapply frame_then_later; [done|by eapply IH|done].
  - injection Hrun as <- <-. by eapply create_child_frame.
Qed.

Lemma copy_with_frame v :
  forall h st r st',
    copy_with leaf v h st = (r, st') ->
    frame h (fun n => In n (keys_of v)) st st'.
Proof.
  induction v as [| | | | | | |items IH] using pyval_nested_ind;
    intros h st r st' Hrun;
    try (injection Hrun as <- <-; apply frame_refl).
  rewrite copy_with_dict in Hrun.
  eapply (for_each_frame _ fst); [|done].
  eapply Forall_impl; [exact IH|].
  intros [k v] Hv st0 r0 st0' Hitem. simpl in *.
  by eapply item_with_frame.
Qed.

(** A leaf of the dictionary, at any depth: when the copy returns, the
    groups on the way to the leaf are there, [leaf] has run on the last
    of them, and what it wrote under the key is still there. *)
Lemma copy_with_leaf path :
  forall m h st st' k v,
    flat_mapping m -> leaf_at m path k = Some v -> is_mapping v = false ->
    copy_with leaf (PDict m) h st = (Ok tt, st') ->
    exists h' st0 st1,
      fresh_walk st' (length st) h path h'
      /\ length st <= length st0
      /\ leaf h' k v st0 = (Ok tt, st1)
      /\ kept (length st0) h' k st1 st'.
Proof.
  induction path as [|p path IH]; intros m h st st' k v Hflat Hleaf Hv Hrun.
  - simpl in Hleaf. destruct Hflat as [m Hnd _].
    destruct (dict_get_split_nodup _ _ _ Hnd Hleaf)
      as (pre & post & -> & _ & Hpost).
    rewrite copy_with_dict, for_each_app in Hrun.
    destruct (for_each _ pre st) as [[[]|e] st0] eqn:Hpre; [|done].
    rewrite for_each_cons in Hrun. cbn [fst snd] in Hrun.
    assert (Hitem : item_with leaf (copy_with leaf) h k v = leaf h k v)
      by (by destruct v).
    rewrite Hitem in Hrun.
    destruct (leaf h k v st0) as [[[]|e] st1] eqn:Hl; [|done].
    exists h, st0, st1. split; [done|]. split; [|split; [done|]].
    + by apply (copy_with_frame (PDict pre)) in Hpre as [? _].
    + apply (copy_with_frame (PDict post)) in Hrun.
      by eapply frame_kept.
  - simpl in Hleaf.
    destruct (dict_get p m) as [[| | | | | | |sub]|] eqn:Hp; try done.
    destruct Hflat as [m Hnd Hsub].
    destruct (dict_get_split_nodup _ _ _ Hnd Hp)
      as (pre & post & -> & _ & Hpost).
    assert (Hflat' : flat_mapping sub).
    { apply (Hsub p). apply in_or_app. right. by left. }
    rewrite copy_with_dict, for_each_app in Hrun.
    destruct (for_each _ pre st) as [[[]|e] st0] eqn:Hpre; [|done].
    apply (copy_with_frame (PDict pre)) in Hpre as [Hlen0 _].
    rewrite for_each_cons in Hrun. cbn [fst snd item_with] in Hrun.
    unfold bind in Hrun at 1.
    destruct (create_group h p st0) as [[g|e] st0'] eqn:Hc; [|done].
    pose proof (create_child_frame _ _ _ _ _ _ _ Hc) as Hf0.
    apply create_child_inv in Hc
      as [[_ [? [? _]]]|(Hg & _ & a & links & Hs0 & _ & Hst0')]; [done|].
    injection Hg as ->.
    destruct (copy_with leaf (PDict sub) (length st0) st0')
      as [[[]|e] st1] eqn:Hsubrun; [|done].
    pose proof (copy_with_frame _ _ _ _ _ Hsubrun) as Hf1.
    pose proof (copy_with_frame (PDict post) _ _ _ _ Hrun) as Hf2.
    destruct (IH _ _ _ _ _ _ Hflat' Hleaf Hv Hsubrun)
      as (h' & sa & sb & Hwalk & Hlen & Hl & Hkept).
    assert (Hh : h < length st0) by (by eapply lookup_lt_Some).
    assert (Hlen0' : length st0' = S (length st0)).
    { rewrite Hst0', length_app, length_insert. simpl. lia. }
    assert (Hchild0 : child st0' h p = Some (length st0)).
    { unfold child. rewrite Hst0', lookup_app_l
        by (by rewrite length_insert).
      rewrite list_lookup_insert_eq by done. apply lookup_insert_eq. }
    assert (Hh' : h' = length st0 \/ length st0' <= h')
      by (by eapply fresh_walk_bound).
    exists h', sa, sb. split; [|split; [lia|split; [done|]]].
    + exists (length st0). split; [|split; [lia|]].
      * eapply child_frame; [exact Hf2|done|].
        rewrite (child_frame_other _ _ _ _ _ _ Hf1); [done|lia|lia].
      * apply (fresh_walk_mono _ (length st0)); [lia|].
        eapply fresh_walk_preserved; [| |by eapply fresh_walk_mono; [|exact Hwalk]; lia]; [|lia].
        intros i Hi Hlt. destruct Hf2 as (_ & Hi2 & _). apply Hi2; lia.
    + eapply kept_then_frame; [exact Hkept|exact Hf2|lia|lia].
Qed.
End Shared.
End WithFormat.
End H5Facts.

(** ** The two copies *)

Module CopyFacts.
Import H5 H5ops Obs Shared Copy H5Facts.
Local Open Scope h5_scope.

Section WithFormat.
Context {F : Format}.

Lemma copy_attrs_shared v h :
  copy_attrs v h = copy_with attr_leaf v h.
Proof. reflexivity. Qed.

Lemma copy_datasets_shared v h :
  copy_datasets v h = copy_with dataset_leaf_unit v h.
Proof. reflexivity. Qed.

(** *** The leaves *)

Lemma attr_leaf_inv h k v st r st' :
  attr_leaf h k v st = (r, st') ->
  (st' = st /\ exists e, r = Raise e)
  \/ (r = Ok tt /\ exists a b w,
        st !! h = Some (Obj a b)
        /\ st' = <[h := Obj (<[k := w]> a) b]> st
        /\ (w = attr_value v /\ attr_check (attr_value v) = None
            \/ attr_check (attr_value v) = Some TypeError
               /\ exists text, Json.dumps (attr_value v) = Ok text
                               /\ w = PStr text)).
Proof.
  unfold attr_leaf, except_TypeError. intros H.
  destruct (set_attr h k (attr_value v) st) as [r1 st1] eqn:H1.
  apply set_attr_inv in H1
    as [[-> [[-> Hs]|(e & -> & He)]]|(-> & Hc & a & b & Hs & ->)].
  - injection H as <- <-. eauto.
  - destruct e; try (injection H as <- <-; eauto).
    unfold bind, lift in H. destruct (Json.dumps (attr_value v)) as [text|e] eqn:Hd;
      [|injection H as <- <-; eauto].
    apply set_attr_inv in H
      as [[-> [[-> Hs]|(e & -> & He')]]|(-> & Hc & a & b & Hs & ->)]; eauto.
    right. split; [done|]. exists a, b, (PStr text). eauto 10.
  - injection H as <- <-. right. split; [done|]. exists a, b, (attr_value v).
    eauto.
Qed.

Lemma attr_leaf_frame h k v st r st' :
  attr_leaf h k v st = (r, st') -> frame h (fun n => n = k) st st'.
Proof.
  intros [[-> _]|(_ & a & b & w & Hs & -> & _)]%attr_leaf_inv;
    [apply frame_refl|].
  eapply insert_frame; [done|]. split; simpl.
  - intros x Hx. rewrite lookup_insert_ne; [done|]. congruence.
  - destruct b; eauto.
Qed.

Lemma create_dataset_inv h k d st r st' :
  create_dataset h k d st = (r, st') ->
  (st' = st /\ exists e, r = Raise e
     /\ (data_check d = Some e \/ e = ValueError \/ e = AttributeError))
  \/ (r = Ok (length st) /\ data_check d = None /\ exists a links,
        st !! h = Some (Obj a (Group links)) /\ links !! k = None
        /\ st' = <[h := Obj a (Group (<[k := length st]> links))]> st
                   ++ [Obj ∅ (Dataset d)]).
Proof. apply create_child_inv. Qed.

Lemma dataset_leaf_first h k v :
  (if str_or_str_sequence (dataset_value v)
   then create_dataset h k (StrArray (dataset_value v))
   else create_dataset h k (Raw (dataset_value v)))
  = create_dataset h k (first_data (dataset_value v)).
Proof. unfold first_data. by destruct (str_or_str_sequence _). Qed.

(** What a leaf of the second copy leaves behind when it returns. *)
Lemma dataset_leaf_inv h k v st r st' :
  dataset_leaf h k v st = (r, st') ->
  (st' = st /\ exists e, r = Raise e)
  \/ (r = Ok (length st) /\ exists a links d,
        st !! h = Some (Obj a (Group links)) /\ links !! k = None
        /\ st' = <[h := Obj a (Group (<[k := length st]> links))]> st
                   ++ [Obj ∅ (Dataset d)]
        /\ (d = first_data (dataset_value v)
              /\ data_check (first_data (dataset_value v)) = None
            \/ data_check (first_data (dataset_value v)) = Some TypeError
               /\ exists text, Json.dumps (dataset_value v) = Ok text
                               /\ d = StrArray (PStr text))).
Proof.
  unfold dataset_leaf. rewrite dataset_leaf_first. unfold except_TypeError.
  intros H.
  destruct (create_dataset h k (first_data (dataset_value v)) st)
    as [r1 st1] eqn:H1.
  apply create_dataset_inv in H1
    as [(-> & e & -> & He)|(-> & Hc & a & links & Hs & Hk & ->)].
  - destruct e; try (injection H as <- <-; eauto).
    destruct He as [He|[|]]; [|done..].
    unfold bind, lift in H.
    destruct (Json.dumps (dataset_value v)) as [text|e] eqn:Hd;
      [|injection H as <- <-; eauto].
    apply create_dataset_inv in H
      as [(-> & e & -> & He')|(-> & Hc & a & links & Hs & Hk & ->)]; [eauto|].
    right. split; [done|]. exists a, links, (StrArray (PStr text)). eauto 10.
  - injection H as <- <-. right. split; [done|].
    exists a, links, (first_data (dataset_value v)). eauto 10.
Qed.

Lemma dataset_leaf_unit_frame h k v st r st' :
  dataset_leaf_unit h k v st = (r, st') -> frame h (fun n => n = k) st st'.
Proof.
  unfold dataset_leaf_unit, bind. intros H.
  destruct (dataset_leaf h k v st) as [r1 st1] eqn:H1.
  assert (st' = st1) as -> by (destruct r1; by injection H).
  apply dataset_leaf_inv in H1
    as [[-> _]|(_ & a & links & d & Hs & _ & -> & _)]; [apply frame_refl|].
  apply frame_app. eapply insert_frame; [done|]. split; simpl; [done|].
  eexists. split; [done|]. intros x Hx.
  rewrite lookup_insert_ne; [done|]. congruence.
Qed.

(** *** A leaf at any depth *)

Lemma kept_attr lo h k st st' w :
  kept lo h k st st' -> attr st h k = Some w -> attr st' h k = Some w.
Proof.
  intros (_ & _ & Ho). unfold attr.
  destruct (st !! h) as [o|] eqn:Hs; [|done].
  destruct (Ho o eq_refl) as (o' & -> & Ha & _). by rewrite Ha.
Qed.

Lemma kept_child lo h k st st' g :
  kept lo h k st st' -> child st h k = Some g -> child st' h k = Some g.
Proof.
  intros (_ & _ & Ho) (a & links & Hs & Hl)%child_lookup.
  destruct (Ho _ Hs) as ([a' b'] & Hs' & _ & Hc). simpl in Hc.
  destruct Hc as (l' & -> & Hl'). unfold child. rewrite Hs'.
  by rewrite Hl'.
Qed.

Lemma copy_attrs_leaf m path k v h st st' :
  flat_mapping m -> leaf_at m path k = Some v -> is_mapping v = false ->
  _copy_metadata_to_h5_attrs m h st = (Ok tt, st') ->
  exists h' w,
    walk st' h path = Some h' /\ attr st' h' k = Some w
    /\ (w = attr_value v /\ attr_check (attr_value v) = None
        \/ attr_check (attr_value v) = Some TypeError
           /\ exists text, Json.dumps (attr_value v) = Ok text
                           /\ w = PStr text).
Proof.
  intros Hflat Hleaf Hv Hrun. unfold _copy_metadata_to_h5_attrs in Hrun.
  rewrite copy_attrs_shared in Hrun.
  destruct (copy_with_leaf attr_leaf attr_leaf_frame path _ _ _ _ _ _
              Hflat Hleaf Hv Hrun)
    as (h' & st0 & st1 & Hwalk & _ & Hl & Hkept).
  apply attr_leaf_inv in Hl as [[_ [? ?]]|(_ & a & b & w & Hs & -> & Hw)];
    [done|].
  exists h', w. split; [by eapply fresh_walk_walk|]. split; [|done].
  eapply kept_attr; [done|]. unfold attr.
  rewrite list_lookup_insert_eq by (by eapply lookup_lt_Some).
  apply lookup_insert_eq.
Qed.

Lemma copy_datasets_leaf m path k v h st st' :
  flat_mapping m -> leaf_at m path k = Some v -> is_mapping v = false ->
  _copy_metadata_to_h5_datasets m h st = (Ok tt, st') ->
  exists h' g d,
    walk st' h path = Some h' /\ child st' h' k = Some g
    /\ st' !! g = Some (Obj ∅ (Dataset d))
    /\ (d = first_data (dataset_value v)
          /\ data_check (first_data (dataset_value v)) = None
        \/ data_check (first_data (dataset_value v)) = Some TypeError
           /\ exists text, Json.dumps (dataset_value v) = Ok text
                           /\ d = StrArray (PStr text)).
Proof.
  intros Hflat Hleaf Hv Hrun. unfold _copy_metadata_to_h5_datasets in Hrun.
  rewrite copy_datasets_shared in Hrun.
  destruct (copy_with_leaf dataset_leaf_unit dataset_leaf_unit_frame path
              _ _ _ _ _ _ Hflat Hleaf Hv Hrun)
    as (h' & st0 & st1 & Hwalk & _ & Hl & Hkept).
  unfold dataset_leaf_unit, bind in Hl.
  destruct (dataset_leaf h' k v st0) as [[g|e] st1'] eqn:Hl'; [|done].
  assert (st1' = st1) as -> by (by injection Hl).
  apply dataset_leaf_inv in Hl'
    as [[_ [? ?]]|(Hg & a & links & d & Hs & Hk & -> & Hd)]; [done|].
  injection Hg as ->.
  assert (Hh : h' < length st0) by (by eapply lookup_lt_Some).
  exists h', (length st0), d. split; [by eapply fresh_walk_walk|].
  split; [|split; [|done]].
  - eapply kept_child; [done|]. unfold child.
    rewrite lookup_app_l by (by rewrite length_insert).
    rewrite list_lookup_insert_eq by done. apply lookup_insert_eq.
  - destruct Hkept as (_ & Hi & _). rewrite Hi.
    + rewrite lookup_app_r by (by rewrite length_insert).
      by rewrite length_insert, Nat.sub_diag.
    + done.
    + rewrite length_app, length_insert. simpl. lia.
    + lia.
Qed.
End WithFormat.
End CopyFacts.

(** ** The walk over the nexus metadata *)

Module NexusFacts.
Import H5 H5ops Obs Nexus H5Facts.
Local Open Scope h5_scope.

Section WithFormat.
Context {F : Format}.

(** *** The lookup of a reference reads the file and follows links *)

Lemma descend_walk ks t st :
  descend t ks st
  = match walk st t ks with
    | Some g => (Ok g, st)
    | None => (fst (descend t ks st), st)
    end.
Proof.
  revert t. induction ks as [|k ks IH]; intros t; [done|].
  cbn [descend walk]. unfold bind.
  destruct (get_item t k st) as [r st1] eqn:Hg.
  apply get_item_inv in Hg as [-> Hr].
  destruct r as [g|e].
  - rewrite (proj1 (Hr g) eq_refl). apply IH.
  - destruct (child st t k) as [g|] eqn:Hc; [|done].
    pose proof (proj2 (Hr g) eq_refl). done.
Qed.

Lemma descend_state ks t st : snd (descend t ks st) = st.
Proof. rewrite descend_walk. by destruct (walk st t ks). Qed.

Lemma descend_ok ks t st g :
  descend t ks st = (Ok g, st) <-> walk st t ks = Some g.
Proof.
  split.
  - revert t. induction ks as [|k ks IH]; intros t; cbn [descend walk].
    + by intros [= ->].
    + unfold bind. destruct (get_item t k st) as [r st1] eqn:Hg.
      apply get_item_inv in Hg as [-> Hr]. destruct r as [g'|e]; [|done].
      rewrite (proj1 (Hr g') eq_refl). apply IH.
  - intros Hw. rewrite descend_walk. by rewrite Hw.
Qed.

Lemma resolve_descend p root :
  _get_h5_group_or_dataset p root
  = descend root ("bluesky" :: doc p :: keys p).
Proof. reflexivity. Qed.

(** The stream of the descriptor plays no part in the lookup. *)
Lemma resolve_ignores_stream p other root :
  _get_h5_group_or_dataset p root
  = _get_h5_group_or_dataset
      {| doc := doc p; stream := other; all_keys := all_keys p;
         attribute := attribute p; keys := keys p |} root.
Proof. reflexivity. Qed.

Lemma resolve_state p root st :
  snd (_get_h5_group_or_dataset p root st) = st.
Proof. rewrite resolve_descend. apply descend_state. Qed.

Lemma resolve_ok p root st g :
  _get_h5_group_or_dataset p root st = (Ok g, st)
  <-> walk st root ("bluesky" :: doc p :: keys p) = Some g.
Proof. rewrite resolve_descend. apply descend_ok. Qed.

Lemma resolve_cases p root st :
  (exists g, _get_h5_group_or_dataset p root st = (Ok g, st)
             /\ walk st root ("bluesky" :: doc p :: keys p) = Some g)
  \/ (exists e, _get_h5_group_or_dataset p root st = (Raise e, st)).
Proof.
  pose proof (resolve_state p root st) as Hs.
  destruct (_get_h5_group_or_dataset p root st) as [[g|e] st1] eqn:Hr;
    simpl in Hs; subst st1; [left|right; eauto].
  exists g. split; [done|]. by apply resolve_ok.
Qed.

(** *** Attributes *)

Lemma set_attrs_ok_inv al : forall h st st' a b,
  st !! h = Some (Obj a b) ->
  set_attrs h al st = (Ok tt, st') ->
  st' = <[h := Obj (set_all al a) b]> st
  /\ Forall (fun kv => attr_check (snd kv) = None) al.
Proof.
  induction al as [|[n v] al IH]; intros h st st' a b Hs Hrun.
  - injection Hrun as <-. split; [|done]. simpl. by rewrite list_insert_id.
  - cbn [set_attrs] in Hrun. unfold bind in Hrun.
    destruct (set_attr h n v st) as [r st1] eqn:H1.
    apply set_attr_inv in H1
      as [[-> [[-> _]|(e & -> & _)]]|(-> & Hc & a' & b' & Hs' & ->)];
      [done|done|].
    assert (a' = a /\ b' = b) as [-> ->] by (split; congruence).
    assert (Hh : h < length st) by (by eapply lookup_lt_Some).
    edestruct (IH h) as [-> Hall]; [|exact Hrun|].
    { by apply list_lookup_insert_eq. }
    rewrite list_insert_insert_eq. split; [done|]. by constructor.
Qed.

Lemma set_attrs_ok al : forall h st a b,
  st !! h = Some (Obj a b) ->
  Forall (fun kv => attr_check (snd kv) = None) al ->
  set_attrs h al st = (Ok tt, <[h := Obj (set_all al a) b]> st).
Proof.
  induction al as [|[n v] al IH]; intros h st a b Hs Hall.
  - simpl. by rewrite list_insert_id.
  - apply Forall_cons in Hall as [Hv Hall]. simpl in Hv.
    cbn [set_attrs]. unfold bind, set_attr. rewrite Hs, Hv.
    assert (Hh : h < length st) by (by eapply lookup_lt_Some).
    erewrite IH; [|by apply list_lookup_insert_eq|done].
    by rewrite list_insert_insert_eq.
Qed.

Lemma set_attrs_raise al h st r st' :
  set_attrs h al st = (r, st') -> r = Ok tt \/ exists e, r = Raise e.
Proof. destruct r as [[]|e]; eauto. Qed.

Lemma dict_get_none k (al : list (string * pyval)) :
  ~ In k (fst <$> al) -> dict_get k al = None.
Proof.
  induction al as [|[k' v] al IH]; simpl; [done|]. intros Hn.
  destruct (String.eqb_spec k k') as [->|_]; [tauto|]. apply IH. tauto.
Qed.

Lemma dict_get_in k v (al : list (string * pyval)) :
  dict_get k al = Some v -> In (k, v) al.
Proof.
  induction al as [|[k' v'] al IH]; simpl; [done|].
  destruct (String.eqb_spec k k') as [->|_]; [intros [= ->]; by left|].
  intros H. right. by apply IH.
Qed.

Lemma set_all_lookup al : forall a n,
  NoDup (fst <$> al) ->
  set_all al a !! n
  = match dict_get n al with Some v => Some v | None => a !! n end.
Proof.
  induction al as [|[k v] al IH]; intros a n Hnd; [done|].
  cbn [fmap list_fmap fst] in Hnd. apply NoDup_cons in Hnd as [Hk Hnd].
  change (set_all ((k, v) :: al) a) with (set_all al (<[k := v]> a)).
  rewrite IH by done. cbn [dict_get].
  destruct (String.eqb_spec n k) as [->|Hne].
  - rewrite dict_get_none; [apply lookup_insert_eq|].
    intros Hin. apply Hk. by apply list_elem_of_In.
  - destruct (dict_get n al); [done|]. by apply lookup_insert_ne.
Qed.

(** *** The walk on a dataset: only the reserved keys pass *)

Lemma eqb_false (a b : string) : a <> b -> String.eqb a b = false.
Proof. by intros ?%String.eqb_neq. Qed.

Lemma create_child_on_dataset h k chk o st a x :
  st !! h = Some (Obj a (Dataset x)) ->
  create_child h k chk o st = (Raise AttributeError, st).
Proof. intros Hs. unfold create_child. by rewrite Hs. Qed.

Lemma set_item_on_dataset h k t st a x :
  st !! h = Some (Obj a (Dataset x)) ->
  set_item h k t st = (Raise TypeError, st).
Proof. intros Hs. unfold set_item. by rewrite Hs. Qed.

Lemma link_on_dataset p h k st a x :
  st !! h = Some (Obj a (Dataset x)) ->
  exists e,
    (let* target := _get_h5_group_or_dataset p (file_of h) in
     set_item h k target) st = (Raise e, st).
Proof.
  intros Hs. unfold bind.
  destruct (resolve_cases p (file_of h) st) as [(g & -> & _)|(e & ->)];
    [|eauto].
  erewrite set_item_on_dataset by done. eauto.
Qed.

Lemma nexus_item_on_dataset self d k v st a x :
  st !! d = Some (Obj a (Dataset x)) -> ~ reserved k ->
  exists e, nexus_item self d k v st = (Raise e, st).
Proof.
  intros Hs Hk. unfold reserved in Hk. unfold nexus_item.
  rewrite !eqb_false by tauto. cbn [orb].
  assert (Hd : forall data,
             (create_dataset d k data ;; ret tt) st
             = (Raise AttributeError, st)).
  { intros data. unfold bind, create_dataset.
    by erewrite create_child_on_dataset. }
  destruct v as [| | |s| | | |sub]; try (eexists; apply Hd).
  - destruct (startswith _ _); [|eexists; apply Hd].
    unfold bind at 1, lift.
    destruct (_parse_bluesky_document_path s) as [p|e]; [|eauto].
    by eapply link_on_dataset.
  - destruct (dict_has "_link" sub).
    + unfold bind at 1, dict_item.
      destruct (dict_get "_link" sub) as [link|]; [|by eexists].
      cbn [ret]. unfold bind at 1.
      destruct link as [| | |s| | | |]; try by eexists.
      cbn [parse_link lift].
      destruct (_parse_bluesky_document_path s) as [p|e]; [|eauto].
      unfold bind at 1.
      destruct (resolve_cases p (file_of d) st) as [(g & -> & _)|(e & ->)];
        [|eauto].
      unfold bind at 1. erewrite set_item_on_dataset by done. eauto.
    + destruct (dict_has "_data" sub).
      * unfold bind at 1, dict_item.
        destruct (dict_get "_data" sub) as [data|]; [|by eexists].
        cbn [ret]. unfold bind at 1, create_dataset.
        erewrite create_child_on_dataset by done. eauto.
      * unfold bind at 1, create_group.
        erewrite create_child_on_dataset by done. eauto.
Qed.

Lemma copy_nexus_dict items h :
  copy_nexus (PDict items) h
  = for_each (fun kv => nexus_item copy_nexus h (fst kv) (snd kv)) items.
Proof. reflexivity. Qed.

Lemma nexus_item_skip self h k v st :
  k = "_data" \/ k = "_link" -> nexus_item self h k v st = (Ok tt, st).
Proof. by intros [->| ->]. Qed.

Lemma nexus_item_attributes self h v :
  nexus_item self h "_attributes" v
  = match v with
    | PDict attrs => set_attrs h attrs
    | _ => raise AttributeError
    end.
Proof. reflexivity. Qed.

(** On a dataset the walk sets the attributes of [_attributes] and
    nothing else. *)
Lemma copy_nexus_on_dataset items : forall d st st' a x,
  NoDup (fst <$> items) ->
  st !! d = Some (Obj a (Dataset x)) ->
  copy_nexus (PDict items) d st = (Ok tt, st') ->
  st' = <[d := Obj (match dict_get "_attributes" items with
                    | Some (PDict al) => set_all al a
                    | _ => a
                    end) (Dataset x)]> st
  /\ Forall (fun kv => reserved (fst kv)) items.
Proof.
  induction items as [|[k v] items IH]; intros d st st' a x Hnd Hs Hrun.
  - injection Hrun as <-. simpl. by rewrite list_insert_id.
  - cbn [fmap list_fmap fst] in Hnd. apply NoDup_cons in Hnd as [Hk Hnd].
    rewrite copy_nexus_dict, for_each_cons in Hrun. cbn [fst snd] in Hrun.
    rewrite <- copy_nexus_dict in Hrun.
    destruct (decide (k = "_data" \/ k = "_link")) as [Hskip|Hnskip].
    { rewrite nexus_item_skip in Hrun by done.
      destruct (IH _ _ _ _ _ Hnd Hs Hrun) as [-> Hall].
      split; [|constructor; [unfold reserved; simpl; tauto|done]].
      cbn [dict_get]. by destruct Hskip as [->| ->]. }
    destruct (decide (k = "_attributes")) as [->|Hnattr].
    { rewrite nexus_item_attributes in Hrun.
      destruct v as [| | | | | | |al]; try done.
      destruct (set_attrs d al st) as [[[]|e] st1] eqn:Hset; [|done].
      apply (set_attrs_ok_inv _ _ _ _ _ _ Hs) in Hset as [-> _].
      assert (Hd : d < length st) by (by eapply lookup_lt_Some).
      edestruct IH as [-> Hall]; [exact Hnd| |exact Hrun|].
      { by apply list_lookup_insert_eq. }
      rewrite list_insert_insert_eq. cbn [dict_get String.eqb Ascii.eqb Bool.eqb].
      rewrite dict_get_none
        by (intros Hin; apply Hk; by apply list_elem_of_In).
      split; [done|]. constructor; [unfold reserved; simpl; tauto|done]. }
    destruct (nexus_item_on_dataset copy_nexus d k v st a x Hs) as [e He].
    { unfold reserved. tauto. }
    by rewrite He in Hrun.
Qed.

(** *** The branches of the walk, and the operations that succeed *)

Lemma nexus_item_branch self h k v :
  ~ reserved k ->
  nexus_item self h k v
  = match v with
    | PDict sub =>
        if dict_has "_link" sub then
          let* link := dict_item "_link" sub in
          let* path := parse_link link in
          let* target := _get_h5_group_or_dataset path (file_of h) in
          set_item h k target ;;
          let* child := get_item h k in
          self v child
        else if dict_has "_data" sub then
          let* data := dict_item "_data" sub in
          create_dataset h k (Raw data) ;;
          let* child := get_item h k in
          self v child
        else
          let* child := create_group h k in
          self v child
    | PStr s =>
        if startswith (chars_of "#bluesky") (chars_of s) then
          let* bluesky_document_path :=
            lift (_parse_bluesky_document_path s) in
          let* target :=
            _get_h5_group_or_dataset bluesky_document_path (file_of h) in
          set_item h k target
        else
          create_dataset h k (Raw v) ;; ret tt
    | _ => create_dataset h k (Raw v) ;; ret tt
    end.
Proof.
  intros Hk. unfold reserved in Hk. unfold nexus_item.
  rewrite !eqb_false by tauto. reflexivity.
Qed.

Lemma create_child_ok h k o st a links :
  st !! h = Some (Obj a (Group links)) -> links !! k = None ->
  create_child h k None o st
  = (Ok (length st),
     <[h := Obj a (Group (<[k := length st]> links))]> st ++ [o]).
Proof.
  intros Hs Hk. unfold create_child.
  destruct (st !! h) as [[a' [l'|d']]|]; simplify_eq. by rewrite Hk.
Qed.

Lemma create_dataset_ok h k d st a links :
  st !! h = Some (Obj a (Group links)) -> links !! k = None ->
  data_check d = None ->
  create_dataset h k d st
  = (Ok (length st),
     <[h := Obj a (Group (<[k := length st]> links))]> st
       ++ [Obj ∅ (Dataset d)]).
Proof.
  intros Hs Hk Hd. unfold create_dataset. rewrite Hd.
  by apply create_child_ok.
Qed.

Lemma set_attr_ok h n v st a b :
  st !! h = Some (Obj a b) -> attr_check v = None ->
  set_attr h n v st = (Ok tt, <[h := Obj (<[n := v]> a) b]> st).
Proof.
  intros Hs Hv. unfold set_attr.
  destruct (st !! h) as [[a' b']|]; simplify_eq. by rewrite Hv.
Qed.

Lemma set_item_ok h k t st a links :
  st !! h = Some (Obj a (Group links)) -> links !! k = None ->
  set_item h k t st
  = (Ok tt, <[h := Obj a (Group (<[k := t]> links))]> st).
Proof.
  intros Hs Hk. unfold set_item.
  destruct (st !! h) as [[a' [l'|d']]|]; simplify_eq. by rewrite Hk.
Qed.

(** *** Reading across a frame *)

Lemma child_frame_any h (K : string -> Prop) st st' g k x :
  frame h K st st' -> ~ K k -> child st g k = Some x ->
  child st' g k = Some x.
Proof.
  intros Hf Hk Hc. destruct (decide (g = h)) as [->|Hne].
  - by eapply child_frame.
  - rewrite (child_frame_other _ _ _ _ _ _ Hf); [done|done|].
    apply child_lookup in Hc as (a & links & Hs & _).
    by eapply lookup_lt_Some.
Qed.

Lemma walk_frame h (K : string -> Prop) st st' path : forall g x,
  frame h K st st' -> Forall (fun k => ~ K k) path ->
  walk st g path = Some x -> walk st' g path = Some x.
Proof.
  induction path as [|k path IH]; intros g x Hf Hp; [done|].
  apply Forall_cons in Hp as [Hk Hp]. cbn [walk].
  destruct (child st g k) as [g'|] eqn:Hc; [|done].
  rewrite (child_frame_any _ _ _ _ _ _ _ Hf Hk Hc). by apply IH.
Qed.

Lemma data_frame h K st st' i :
  frame h K st st' -> i < length st -> data_of st' i = data_of st i.
Proof.
  intros (_ & Hi & Ho) Hlt. unfold data_of.
  destruct (decide (i = h)) as [->|Hne]; [|by rewrite Hi].
  destruct (st !! h) as [o|] eqn:Hs;
    [|apply lookup_ge_None in Hs; lia].
  destruct (Ho o eq_refl) as (o' & -> & _ & Hc).
  destruct o as [a [l|d]], o' as [a' b']; simpl in *.
  - by destruct Hc as (l' & -> & _).
  - by rewrite Hc.
Qed.

(** *** A dataset description that has the reserved keys only *)

Lemma dict_get_unique k v (d : list (string * pyval)) :
  NoDup (fst <$> d) -> In (k, v) d -> dict_get k d = Some v.
Proof.
  induction d as [|[k' v'] d IH]; [done|]. cbn [fmap list_fmap fst].
  intros [Hk Hnd]%NoDup_cons [[= -> ->]|Hin]; cbn [dict_get].
  - by rewrite String.eqb_refl.
  - destruct (String.eqb_spec k k') as [->|_]; [|by apply IH].
    destruct Hk. apply list_elem_of_In. apply in_map_iff. by exists (k', v).
Qed.

Lemma copy_nexus_on_dataset_ok items : forall d st o,
  st !! d = Some o ->
  Forall (fun kv =>
            fst kv = "_data" \/ fst kv = "_link"
            \/ (fst kv = "_attributes"
                /\ exists al, snd kv = PDict al
                     /\ Forall (fun kv => attr_check (snd kv) = None) al))
         items ->
  exists st', copy_nexus (PDict items) d st = (Ok tt, st').
Proof.
  induction items as [|[k v] items IH]; intros d st o Hs Hall.
  - by eexists.
  - apply Forall_cons in Hall as [Hkv Hall]. cbn [fst snd] in Hkv.
    rewrite copy_nexus_dict, for_each_cons. cbn [fst snd].
    rewrite <- copy_nexus_dict.
    destruct Hkv as [Hk|[Hk|(-> & al & -> & Hal)]].
    + rewrite nexus_item_skip by tauto. by eapply IH.
    + rewrite nexus_item_skip by tauto. by eapply IH.
    + rewrite nexus_item_attributes. destruct o as [a b].
      rewrite (set_attrs_ok al d st a b Hs Hal).
      eapply IH; [|done]. apply list_lookup_insert_eq.
      by eapply lookup_lt_Some.
Qed.
End WithFormat.
End NexusFacts.

(** ** JSON texts *)

Module JsonFacts.
Import Json Text ReFacts.

(** *** Strings *)

Lemma scan_escape_char c r :
  scan_string (escape c ++ r) = cons_char c (scan_string r).
Proof. destruct c as [[] [] [] [] [] [] [] []]; reflexivity. Qed.

Lemma scan_escape s r :
  scan_string (flat_map escape s ++ quote :: r) = Some (s, r).
Proof.
  induction s as [|c s IH]; [done|].
  cbn [flat_map]. rewrite <- app_assoc, scan_escape_char, IH. done.
Qed.

Lemma scan_encode_str s r : scan_string (tl (encode_str s) ++ r) = Some (s, r).
Proof.
  unfold encode_str. cbn [tl]. rewrite <- app_assoc. apply scan_escape.
Qed.

(** *** Numbers *)

Lemma delim_no_digit c r : delim (c :: r) -> digit c = None.
Proof. by intros [->|[->| ->]]. Qed.

Lemma delim_no_fraction r : delim r -> no_fraction r = true.
Proof. destruct r as [|c r]; [done|]. by intros [->|[->| ->]]. Qed.

Lemma scan_digits_app u r :
  delim r -> scan_digits (digits u ++ r) = (u, r).
Proof.
  intros Hr. induction u; cbn [digits app scan_digits];
    try (change (digit _) with (Some Decimal.D0) || change (digit _) with (Some Decimal.D1)
         || change (digit _) with (Some Decimal.D2) || change (digit _) with (Some Decimal.D3)
         || change (digit _) with (Some Decimal.D4) || change (digit _) with (Some Decimal.D5)
         || change (digit _) with (Some Decimal.D6) || change (digit _) with (Some Decimal.D7)
         || change (digit _) with (Some Decimal.D8) || change (digit _) with (Some Decimal.D9));
    try (cbn iota; rewrite IHu; reflexivity).
  destruct r as [|c r]; [done|]. cbn [scan_digits].
  by rewrite (delim_no_digit c r).
Qed.

Lemma to_uint_head p u : Pos.to_uint p <> Decimal.D0 u.
Proof.
  intros H.
  assert (Hn : Decimal.unorm (Pos.to_uint p) = Pos.to_uint p).
  { rewrite <- (DecimalN.Unsigned.to_of (Pos.to_uint p)).
    unfold N.of_uint. by rewrite DecimalPos.Unsigned.of_to. }
  rewrite H in Hn. unfold Decimal.unorm in Hn. cbn [Decimal.nzhead] in Hn.
  destruct (Decimal.nzhead u) as [|u0|u0|u0|u0|u0|u0|u0|u0|u0|u0] eqn:Hu;
    try discriminate Hn.
  - injection Hn as <-. by apply (DecimalPos.Unsigned.to_uint_nonzero p).
  - by apply (DecimalFacts.nzhead_nonzero u u0).
Qed.

Lemma scan_number_nonzero (neg : bool) c s :
  digit c <> None -> (N_of_ascii c =? 48)%N = false ->
  scan_number ((if neg then ["-"%char] else []) ++ c :: s)
  = if no_fraction (snd (scan_digits (c :: s)))
    then Some (Z.of_int (if neg then Decimal.Neg (fst (scan_digits (c :: s)))
                         else Decimal.Pos (fst (scan_digits (c :: s)))),
               snd (scan_digits (c :: s)))
    else None.
Proof.
  destruct neg, c as [[] [] [] [] [] [] [] []]; intros Hd H0;
    try discriminate H0; try (by destruct Hd); reflexivity.
Qed.

Lemma digits_head u :
  u <> Decimal.Nil -> (forall u', u <> Decimal.D0 u') ->
  exists c s, digits u = c :: s /\ digit c <> None
              /\ (N_of_ascii c =? 48)%N = false.
Proof.
  intros Hnil H0. destruct u as [|u|u|u|u|u|u|u|u|u|u];
    [done|by destruct (H0 u)|..]; eexists _, _; (split; [reflexivity|done]).
Qed.

Lemma scan_number_pos (neg : bool) p r :
  delim r ->
  scan_number ((if neg then ["-"%char] else []) ++ digits (Pos.to_uint p) ++ r)
  = Some (Z.of_int (if neg then Decimal.Neg (Pos.to_uint p)
                    else Decimal.Pos (Pos.to_uint p)), r).
Proof.
  intros Hr.
  destruct (digits_head (Pos.to_uint p)) as (c & s & Hd & Hc & H0).
  { apply DecimalPos.Unsigned.to_uint_nonnil. }
  { apply to_uint_head. }
  pose proof (scan_digits_app (Pos.to_uint p) r Hr) as Hs.
  rewrite Hd in *. cbn [app] in *.
  rewrite scan_number_nonzero, Hs by done. cbn [fst snd].
  by rewrite delim_no_fraction.
Qed.

Lemma scan_number_encode z r :
  delim r -> scan_number (encode_int z ++ r) = Some (z, r).
Proof.
  intros Hr. rewrite <- (DecimalZ.of_to z) at 2.
  destruct z as [|p|p]; unfold encode_int; cbn [Z.to_int].
  - change (scan_number _)
      with (if no_fraction r then Some (0%Z, r) else None).
    by rewrite delim_no_fraction.
  - apply (scan_number_pos false p r Hr).
  - apply (scan_number_pos true p r Hr).
Qed.

(** *** The first character of a text *)

Lemma encode_int_head z :
  exists c s, encode_int z = c :: s /\ (digit c <> None \/ c = "-"%char).
Proof.
  destruct z as [|p|p]; unfold encode_int; cbn [Z.to_int].
  - eexists _, _. split; [reflexivity|]. by left.
  - destruct (digits_head (Pos.to_uint p)) as (c & s & Hd & Hc & _);
      [apply DecimalPos.Unsigned.to_uint_nonnil|apply to_uint_head|].
    eauto.
  - eauto.
Qed.

Lemma number_starts_value c s :
  digit c <> None \/ c = "-"%char -> starts_value (c :: s).
Proof.
  intros [Hd| ->]; [|done].
  destruct c as [[] [] [] [] [] [] [] []]; try (by destruct Hd); done.
Qed.

Lemma encode_head v t : encode v = Some t -> starts_value t.
Proof.
  destruct v as [|[]| | | | | |]; cbn [encode]; try by intros [= <-].
  - intros [= <-]. destruct (encode_int_head z) as (c & s & -> & Hc).
    by apply number_starts_value.
  - destruct (encode_all encode l); by intros [= <-].
  - destruct (encode_all encode l); by intros [= <-].
  - destruct (encode_members encode d); by intros [= <-].
Qed.

Lemma skip_ws_value t r : starts_value t -> skip_ws (t ++ r) = t ++ r.
Proof. destruct t as [|c t]; [done|]. intros [Hc _]. simpl. by rewrite Hc. Qed.

Lemma skip_ws_space r : skip_ws (" "%char :: r) = skip_ws r.
Proof. reflexivity. Qed.

Lemma starts_value_app t r : starts_value t -> starts_value (t ++ r).
Proof. by destruct t. Qed.

Lemma join_head sep e es : starts_value e -> starts_value (join sep (e :: es)).
Proof. destruct es; [done|]. cbn [join]. apply starts_value_app. Qed.

(** *** Values *)

Lemma parse_value_number n c s :
  digit c <> None \/ c = "-"%char ->
  parse_value (S n) (c :: s)
  = match scan_number (c :: s) with
    | Some (z, r) => Some (PInt z, r)
    | None => None
    end.
Proof.
  intros [Hd| ->]; [|reflexivity].
  destruct c as [[] [] [] [] [] [] [] []]; try (by destruct Hd); reflexivity.
Qed.

Lemma join_cons2 e e' es :
  join sep (e :: e' :: es) = e ++ sep ++ join sep (e' :: es).
Proof. reflexivity. Qed.

Lemma parse_elems_encode l :
  Forall reads_back l -> Forall json_exact l ->
  forall es, encode_all encode l = Some es -> l <> [] ->
  forall n rest, length (join sep es) < n ->
  parse_elems n (join sep es ++ "]"%char :: rest) = Some (l, rest).
Proof.
  induction 1 as [|x l Hx Hl IH]; intros Hex es Henc Hne n rest Hn; [done|].
  apply Forall_cons in Hex as [Hex Hexl].
  cbn [encode_all] in Henc.
  destruct (encode x) as [e|] eqn:He; [|done].
  destruct (encode_all encode l) as [es'|] eqn:Hes; [|done].
  injection Henc as <-.
  destruct n as [|m]; [lia|]. cbn [parse_elems].
  destruct l as [|y l].
  - injection Hes as <-. cbn [join] in *.
    rewrite (Hx Hex e He m) by (simpl; (lia || tauto)).
    reflexivity.
  - assert (exists e' es'', es' = e' :: es'') as (e' & es'' & ->).
    { cbn [encode_all] in Hes. destruct (encode y), (encode_all encode l);
        try done. injection Hes as <-. eauto. }
    rewrite join_cons2 in *. rewrite <- !app_assoc.
    rewrite !length_app in Hn. change (length sep) with 2 in Hn.
    rewrite (Hx Hex e He m) by (simpl; (lia || tauto)).
    change (sep ++ ?x) with (","%char :: " "%char :: x).
    cbn [skip_ws]. change (is_ws ",") with false. cbn iota.
    change (N_of_ascii "," =? 93)%N with false.
    change (N_of_ascii "," =? 44)%N with true. cbn iota.
    rewrite ?skip_ws_space.
    assert (Hstart : starts_value (join sep (e' :: es''))).
    { apply join_head. cbn [encode_all] in Hes.
      destruct (encode y) as [ey|] eqn:Hy; [|done].
      destruct (encode_all encode l); [|done]. injection Hes as <- _.
      by eapply encode_head. }
    rewrite skip_ws_value by done.
    rewrite (IH Hexl _ eq_refl) by (done || lia). reflexivity.
Qed.

Lemma parse_members_quote m r :
  parse_members (S m) (quote :: r)
  = match scan_string r with
    | Some (k, r1) =>
        match skip_ws r1 with
        | c1 :: r2 =>
            if (N_of_ascii c1 =? 58)%N then
              match parse_value m (skip_ws r2) with
              | Some (v, r3) =>
                  match skip_ws r3 with
                  | c3 :: r4 =>
                      if (N_of_ascii c3 =? 125)%N
                      then Some ([(str_of k, v)], r4)
                      else if (N_of_ascii c3 =? 44)%N then
                        match parse_members m (skip_ws r4) with
                        | Some (d, r5) => Some ((str_of k, v) :: d, r5)
                        | None => None
                        end
                      else None
                  | [] => None
                  end
              | None => None
              end
            else None
        | [] => None
        end
    | None => None
    end.
Proof. reflexivity. Qed.

Lemma member_text k e tail :
  (encode_str k ++ chars_of ": " ++ e) ++ tail
  = quote :: flat_map escape k ++ quote :: ":"%char :: " "%char :: e ++ tail.
Proof. unfold encode_str. cbn [app]. by rewrite <- !app_assoc. Qed.

Lemma member_bound k e : length e + 4 <= length (encode_str k ++ chars_of ": " ++ e).
Proof. unfold encode_str. rewrite !length_app. simpl. rewrite length_app. simpl. lia. Qed.

Lemma parse_members_encode d :
  Forall (fun kv => reads_back (snd kv)) d ->
  Forall (fun kv => json_exact (snd kv)) d ->
  forall es, encode_members encode d = Some es -> d <> [] ->
  forall n rest, length (join sep es) < n ->
  parse_members n (join sep es ++ "}"%char :: rest) = Some (d, rest).
Proof.
  induction 1 as [|[k x] d Hx Hl IH]; intros Hex es Henc Hne n rest Hn; [done|].
  apply Forall_cons in Hex as [Hex Hexl]. cbn [fst snd] in *.
  cbn [encode_members fst snd] in Henc.
  destruct (encode x) as [e|] eqn:He; [|done].
  destruct (encode_members encode d) as [es'|] eqn:Hes; [|done].
  injection Henc as <-.
  destruct n as [|m]; [lia|].
  change (quote :: (flat_map escape (chars_of k) ++ [quote])
                     ++ ":"%char :: " "%char :: e)
    with (encode_str (chars_of k) ++ chars_of ": " ++ e) in *.
  pose proof (member_bound (chars_of k) e) as Hb.
  destruct d as [|y d].
  - injection Hes as <-. cbn [join] in *.
    rewrite member_text, parse_members_quote, scan_escape.
    cbn [skip_ws]. change (is_ws ":") with false. cbn iota.
    change (N_of_ascii ":" =? 58)%N with true. cbn iota.
    rewrite ?skip_ws_space.
    rewrite skip_ws_value by (by eapply encode_head).
    rewrite (Hx Hex e He m) by (simpl; (lia || tauto)).
    by rewrite str_of_chars_of.
  - assert (exists e' es'', es' = e' :: es''
                            /\ exists t, e' = quote :: t)
      as (e' & es'' & -> & t' & He').
    { cbn [encode_members] in Hes.
      destruct (encode (snd y)), (encode_members encode d);
        try done. injection Hes as <-. eexists _, _. split; [done|].
      unfold encode_str. cbn [app]. eauto. }
    rewrite join_cons2 in *.
    rewrite !length_app in Hn. change (length sep) with 2 in Hn.
    rewrite <- app_assoc, member_text, parse_members_quote, scan_escape.
    cbn [skip_ws]. change (is_ws ":") with false. cbn iota.
    change (N_of_ascii ":" =? 58)%N with true. cbn iota.
    rewrite ?skip_ws_space.
    rewrite skip_ws_value by (by eapply encode_head).
    rewrite (Hx Hex e He m) by (simpl; (lia || tauto)).
    change ((sep ++ ?a) ++ ?b) with (","%char :: " "%char :: a ++ b).
    cbn [skip_ws]. change (is_ws ",") with false. cbn iota.
    change (N_of_ascii "," =? 125)%N with false.
    change (N_of_ascii "," =? 44)%N with true. cbn iota.
    rewrite ?skip_ws_space.
    assert (Hq : skip_ws (join sep (e' :: es'') ++ "}"%char :: rest)
                 = join sep (e' :: es'') ++ "}"%char :: rest).
    { apply skip_ws_value. apply join_head. by rewrite He'. }
    rewrite Hq, (IH Hexl _ eq_refl) by (done || lia).
    by rewrite str_of_chars_of.
Qed.

(** *** Dictionaries without a repeated key *)

Lemma dict_set_fresh k v acc :
  ~ In k (fst <$> acc) -> dict_set k v acc = acc ++ [(k, v)].
Proof.
  induction acc as [|[k' v'] acc IH]; simpl; [done|]. intros Hn.
  destruct (String.eqb_spec k k') as [->|_]; [tauto|]. rewrite IH; tauto.
Qed.

Lemma make_dict_from acc d :
  NoDup (fst <$> (acc ++ d)) ->
  fold_left (fun m kv => dict_set (fst kv) (snd kv) m) d acc = acc ++ d.
Proof.
  revert acc. induction d as [|[k v] d IH]; intros acc Hnd; simpl.
  - by rewrite app_nil_r.
  - rewrite dict_set_fresh.
    + rewrite IH; rewrite <- app_assoc; done.
    + rewrite fmap_app in Hnd. apply NoDup_app in Hnd as (_ & Hd & _).
      intros Hin. apply (Hd k); [by apply list_elem_of_In|]. simpl. left.
Qed.

Lemma make_dict_nodup d : NoDup (fst <$> d) -> make_dict d = d.
Proof. intros Hnd. unfold make_dict. by rewrite make_dict_from. Qed.

(** *** The round trip *)

Lemma encode_list_inv l t :
  match encode_all encode l with
  | Some es => Some ("["%char :: join sep es ++ ["]"%char])
  | None => None
  end = Some t ->
  exists es, encode_all encode l = Some es
             /\ t = "["%char :: join sep es ++ ["]"%char].
Proof. destruct (encode_all encode l); [|done]. intros [= <-]. eauto. Qed.

Lemma encode_dict_inv d t :
  encode (PDict d) = Some t ->
  exists es, encode_members encode d = Some es
             /\ t = "{"%char :: join sep es ++ ["}"%char].
Proof.
  cbn [encode]. destruct (encode_members encode d); [|done].
  intros [= <-]. eauto.
Qed.

Lemma reads_back_all v : reads_back v.
Proof.
  induction v as [| | | | |l IH|l IH|d IH] using pyval_nested_ind;
    intros Hex t Henc n rest Hn Hrest.
  - injection Henc as <-. destruct n as [|n]; [simpl in Hn; lia|]. reflexivity.
  - destruct b; injection Henc as <-;
      (destruct n as [|n]; [simpl in Hn; lia|]); reflexivity.
  - injection Henc as <-.
    destruct (encode_int_head z) as (c & s & Hz & Hc).
    destruct n as [|n]; [rewrite Hz in Hn; simpl in Hn; lia|].
    pose proof (scan_number_encode z rest Hrest) as Hs.
    rewrite Hz in *. cbn [app] in *.
    by rewrite parse_value_number, Hs.
  - injection Henc as <-. destruct n as [|n]; [simpl in Hn; lia|].
    unfold encode_str. cbn [app parse_value].
    change (N_of_ascii quote =? 34)%N with true. cbn iota.
    rewrite <- app_assoc. cbn [app]. rewrite scan_escape.
    by rewrite str_of_chars_of.
  - done.
  - apply encode_list_inv in Henc as (es & Hes & ->).
    inversion Hex as [| | | |l' Hexl|]; subst.
    destruct n as [|n]; [simpl in Hn; lia|].
    cbn [app parse_value]. change (N_of_ascii "[" =? 34)%N with false.
    change (N_of_ascii "[" =? 123)%N with false.
    change (N_of_ascii "[" =? 91)%N with true. cbn iota.
    rewrite <- app_assoc. cbn [app].
    destruct l as [|x l].
    + injection Hes as <-. reflexivity.
    + assert (Hstart : starts_value (join sep es)).
      { cbn [encode_all] in Hes. destruct (encode x) eqn:Hx; [|done].
        destruct (encode_all encode l); [|done]. injection Hes as <-.
        apply join_head. by eapply encode_head. }
      rewrite skip_ws_value by done.
      destruct (join sep es) as [|c r] eqn:Hj; [done|].
      destruct Hstart as (_ & H93 & _). cbn [app]. rewrite H93.
      change (c :: r ++ "]"%char :: rest) with ((c :: r) ++ "]"%char :: rest).
      rewrite <- Hj.
      rewrite (parse_elems_encode _ IH Hexl es Hes); [done|done|].
      rewrite Hj. simpl in Hn. rewrite length_app in Hn. simpl in Hn. simpl. lia.
  - inversion Hex.
  - apply encode_dict_inv in Henc as (es & Hes & ->).
    inversion Hex as [| | | | |d' Hnd Hexd]; subst.
    destruct n as [|n]; [simpl in Hn; lia|].
    cbn [app parse_value]. change (N_of_ascii "{" =? 34)%N with false.
    change (N_of_ascii "{" =? 123)%N with true. cbn iota.
    rewrite <- app_assoc. cbn [app].
    destruct d as [|[k x] d].
    + injection Hes as <-. reflexivity.
    + assert (Hstart : starts_value (join sep es)).
      { cbn [encode_members] in Hes. destruct (encode _) eqn:Hx; [|done].
        destruct (encode_members encode d); [|done]. injection Hes as <-.
        apply join_head. done. }
      rewrite skip_ws_value by done.
      destruct (join sep es) as [|c r] eqn:Hj; [done|].
      destruct Hstart as (_ & _ & H125). cbn [app]. rewrite H125.
      change (c :: r ++ "}"%char :: rest) with ((c :: r) ++ "}"%char :: rest).
      rewrite <- Hj.
      rewrite (parse_members_encode _ IH Hexd es Hes); [|done|].
      * by rewrite make_dict_nodup.
      * rewrite Hj. simpl in Hn. rewrite length_app in Hn. simpl in Hn. simpl. lia.
Qed.

(** A value without tuples and bytes comes back from its text. *)
Lemma loads_dumps v :
  json_exact v -> exists text, dumps v = Ok text /\ loads text = Ok v.
Proof.
  intros Hex. unfold dumps, loads.
  assert (exists t, encode v = Some t) as [t Ht].
  { induction v as [| | | | |l IH|l IH|d IH] using pyval_nested_ind;
      try (cbn [encode]; eauto; fail).
    - destruct b; cbn [encode]; eauto.
    - inversion Hex.
    - inversion Hex as [| | | |l' Hexl|]; subst. cbn [encode].
      assert (exists es, encode_all encode l = Some es) as [es ->]; [|eauto].
      induction IH as [|x l Hx _ IHl]; [simpl; eauto|].
      apply Forall_cons in Hexl as [Hex1 Hexl].
      destruct (Hx Hex1) as [e He]. destruct (IHl (json_exact_list _ Hexl) Hexl) as [es Hes].
      cbn [encode_all]. rewrite He, Hes. eauto.
    - inversion Hex.
    - inversion Hex as [| | | | |d' Hnd Hexd]; subst. cbn [encode].
      assert (exists es, encode_members encode d = Some es) as [es ->]; [|eauto].
      clear Hnd Hex.
      induction IH as [|x l Hx _ IHl]; [simpl; eauto|].
      apply Forall_cons in Hexd as [Hex1 Hexl].
      destruct (Hx Hex1) as [e He]. destruct (IHl Hexl) as [es Hes].
      cbn [encode_members]. rewrite He, Hes. eauto. }
  rewrite Ht. eexists. split; [reflexivity|].
  rewrite chars_of_str_of.
  pose proof (encode_head v t Ht) as Hstart.
  rewrite <- (app_nil_r t) at 1 2.
  rewrite skip_ws_value by done. rewrite app_nil_r.
  pose proof (reads_back_all v Hex t Ht (S (length t)) []) as Hp.
  rewrite app_nil_r in Hp. rewrite Hp by (done || lia). reflexivity.
Qed.

(** *** No NUL character in a text *)

Lemma clean_app a b : clean (a ++ b) <-> clean a /\ clean b.
Proof. unfold clean. rewrite existsb_app. apply orb_false_iff. Qed.

Lemma clean_escape c : clean (escape c).
Proof. destruct c as [[] [] [] [] [] [] [] []]; reflexivity. Qed.

Lemma clean_encode_str s : clean (encode_str s).
Proof.
  unfold encode_str. change (quote :: ?x) with ([quote] ++ x).
  rewrite !clean_app. split; [done|]. split; [|done].
  induction s as [|c s IH]; [done|]. cbn [flat_map]. rewrite clean_app.
  split; [apply clean_escape|done].
Qed.

Lemma clean_digits u : clean (digits u).
Proof. induction u; done. Qed.

Lemma clean_encode_int z : clean (encode_int z).
Proof.
  unfold encode_int. destruct (Z.to_int z); [apply clean_digits|].
  change (clean (["-"%char] ++ digits d)). rewrite clean_app. split; [done|].
  apply clean_digits.
Qed.

Lemma clean_join es : Forall clean es -> clean (join sep es).
Proof.
  induction 1 as [|e es He Hes IH]; [done|].
  destruct es as [|e' es]; [done|]. rewrite join_cons2, !clean_app. done.
Qed.

Lemma clean_brackets a es b :
  Forall clean es -> clean [a] -> clean [b] ->
  clean (a :: join sep es ++ [b]).
Proof.
  intros Hes Ha Hb. change (a :: ?x) with ([a] ++ x). rewrite !clean_app.
  split; [done|]. split; [by apply clean_join|done].
Qed.

Lemma encode_clean v : forall t, encode v = Some t -> clean t.
Proof.
  induction v as [| | | | |l IH|l IH|d IH] using pyval_nested_ind;
    intros t Henc; cbn [encode] in Henc.
  - by injection Henc as <-.
  - destruct b; by injection Henc as <-.
  - injection Henc as <-. apply clean_encode_int.
  - injection Henc as <-. apply clean_encode_str.
  - done.
  - destruct (encode_all encode l) as [es|] eqn:Hes; [|done].
    injection Henc as <-. apply clean_brackets; [|done..].
    revert es Hes. induction IH as [|x l Hx _ IHl]; intros es Hes.
    + by injection Hes as <-.
    + cbn [encode_all] in Hes. destruct (encode x) as [e|]; [|done].
      destruct (encode_all encode l) as [es'|]; [|done].
      injection Hes as <-. constructor; eauto.
  - destruct (encode_all encode l) as [es|] eqn:Hes; [|done].
    injection Henc as <-. apply clean_brackets; [|done..].
    revert es Hes. induction IH as [|x l Hx _ IHl]; intros es Hes.
    + by injection Hes as <-.
    + cbn [encode_all] in Hes. destruct (encode x) as [e|]; [|done].
      destruct (encode_all encode l) as [es'|]; [|done].
      injection Hes as <-. constructor; eauto.
  - destruct (encode_members encode d) as [es|] eqn:Hes; [|done].
    injection Henc as <-. apply clean_brackets; [|done..].
    revert es Hes. induction IH as [|x l Hx _ IHl]; intros es Hes.
    + by injection Hes as <-.
    + cbn [encode_members] in Hes. destruct (encode (snd x)) as [e|]; [|done].
      destruct (encode_members encode l) as [es'|]; [|done].
      injection Hes as <-. constructor; [|eauto].
      change (clean (encode_str (chars_of (fst x)) ++ chars_of ": " ++ e)).
      rewrite !clean_app. split; [apply clean_encode_str|]. split; [done|eauto].
Qed.

Lemma dumps_no_nul v text : dumps v = Ok text -> H5.has_nul text = false.
Proof.
  unfold dumps. destruct (encode v) as [t|] eqn:Ht; [|done].
  intros [= <-]. unfold H5.has_nul. rewrite chars_of_str_of.
  by apply (encode_clean v).
Qed.
End JsonFacts.

(** ** Facts for the further properties *)

(** *** What the pattern matches, on any string *)

Module ParseMore.
Import Re First Grammar ReFacts.

Lemma skip_word_split s :
  exists w, s = w ++ skip_word s /\ forallb is_word w = true.
Proof.
  induction s as [|b s (w & Hs & Hw)]; [by exists []|].
  simpl. destruct (is_word b) eqn:Hb; [|by exists []].
  exists (b :: w). split; [by rewrite <- app_comm_cons, <- Hs|].
  simpl. by rewrite Hb.
Qed.

Lemma take_consumed_eq {A} (s l r : list A) :
  s = l ++ r -> take (length s - length r) s = l.
Proof. intros ->. apply firstn_consumed. Qed.

Lemma skip_keys_split n s :
  exists segs, s = keys_text segs ++ skip_keys n s /\ Forall segment segs.
Proof.
  revert s. induction n as [|n IH]; intros s; [by exists []|].
  cbn [skip_keys]. destruct s as [|a [|b s]]; [by exists []..|].
  destruct (Ascii.eqb_spec "/"%char a) as [<-|_]; [|by exists []].
  destruct (is_word b) eqn:Hb; [|by exists []]. cbn [andb].
  destruct (skip_word_split s) as (w & Hs & Hw).
  destruct (IH (skip_word s)) as (segs & Hr & Hsegs).
  exists ((b :: w) :: segs). split.
  - unfold keys_text. cbn [map concat]. fold (keys_text segs).
    rewrite <- !app_assoc, <- Hr. cbn [app]. by rewrite <- Hs.
  - constructor; [|done]. split; [done|]. simpl. by rewrite Hb.
Qed.

Lemma doc_first_split t c r c' :
  doc_first t c = Some (r, c') ->
  exists k, match k with KDesc w => segment w | _ => True end
            /\ t = kind_text k ++ r
            /\ c' = ("doc", kind_text k)
                      :: match k with KDesc w => [("stream", w)] | _ => [] end
                      ++ c.
Proof.
  unfold doc_first.
  destruct (startswith (chars_of "start") t) eqn:H1.
  { apply startswith_spec in H1 as [x ->]. intros [= <- <-].
    by exists KStart. }
  destruct (startswith (chars_of "stop") t) eqn:H2.
  { apply startswith_spec in H2 as [x ->]. intros [= <- <-].
    by exists KStop. }
  destruct (startswith (chars_of "desc/") t) eqn:H3; [|done].
  apply startswith_spec in H3 as [x ->].
  change (drop 5 (chars_of "desc/" ++ x)) with x.
  destruct x as [|b s']; [done|]. destruct (is_word b) eqn:Hb; [|done].
  intros [= <- <-]. destruct (skip_word_split s') as (w & Hs & Hw).
  remember (skip_word s') as r eqn:Hr. clear Hr. subst s'.
  exists (KDesc (b :: w)). split; [|split].
  - split; [done|]. simpl. by rewrite Hb.
  - cbn [kind_text]. by rewrite <- app_assoc.
  - cbn [app]. f_equal; [f_equal|f_equal; f_equal].
    + apply (firstn_consumed (chars_of "desc/" ++ b :: w) r).
    + apply (firstn_consumed (b :: w) r).
Qed.

Lemma attr_first_split s c :
  exists attr rest,
    match attr with Some a => segment a | None => True end
    /\ s = attr_text attr ++ rest
    /\ snd (attr_first s c)
       = match attr with Some a => ("attribute", a) :: c | None => c end.
Proof.
  unfold attr_first. destruct s as [|a [|b s']]; [by exists None, []|by exists None, [a]|].
  destruct (Ascii.eqb_spec "@"%char a) as [<-|_]; [|by exists None, (a :: b :: s')].
  destruct (is_word b) eqn:Hb; [|by exists None, ("@"%char :: b :: s')].
  cbn [andb snd]. destruct (skip_word_split s') as (w & Hs & Hw).
  remember (skip_word s') as r eqn:Hr. clear Hr. subst s'.
  exists (Some (b :: w)), r. split; [|split].
  - split; [done|]. simpl. by rewrite Hb.
  - done.
  - f_equal. f_equal. apply (firstn_consumed (b :: w) r).
Qed.

(** What the pattern matches is a reference of the grammar, and the groups
    are those of that reference alone. *)
Lemma query_first_prefix s m :
  query_first s = Some m ->
  exists k segs attr rest,
    well_formed k segs attr
    /\ s = reference k segs attr ++ rest
    /\ query_first (reference k segs attr) = Some m.
Proof.
  unfold query_first at 1.
  destruct (startswith (chars_of "#bluesky/") s) eqn:H0; [|done].
  apply startswith_spec in H0 as [t ->].
  change (drop 9 (chars_of "#bluesky/" ++ t)) with t.
  destruct (doc_first t []) as [[r1 c1]|] eqn:Hd; [|done].
  apply doc_first_split in Hd as (k & Hk & -> & ->).
  intros [= <-]. cbn [fst snd]. unfold keys_first. cbn [fst snd].
  destruct (skip_keys_split (length r1) r1) as (segs & Hr1 & Hsegs).
  set (r2 := skip_keys (length r1) r1) in *.
  rewrite (take_consumed_eq _ _ _ Hr1).
  destruct (attr_first_split r2
              (("all_keys", keys_text segs)
                 :: ("doc", kind_text k)
                 :: match k with KDesc w => [("stream", w)] | _ => [] end ++ []))
    as (attr & rest & Hattr & Hr2 & ->).
  exists k, segs, attr, rest. split; [done|]. split.
  - unfold reference. rewrite <- !app_assoc. by rewrite <- Hr2, <- Hr1.
  - rewrite query_first_reference by done. rewrite app_nil_r. by destruct attr.
Qed.

Lemma parse_prefix s p :
  _parse_bluesky_document_path s = Ok p ->
  exists k segs attr rest,
    well_formed k segs attr
    /\ chars_of s = reference k segs attr ++ rest
    /\ p = descriptor k segs attr.
Proof.
  rewrite parse_query.
  destruct (query_first (chars_of s)) as [m|] eqn:Hq; [|done].
  destruct (query_first_prefix _ _ Hq) as (k & segs & attr & rest & Hwf & Hs & Hm).
  intros Hp. exists k, segs, attr, rest. split; [done|]. split; [done|].
  pose proof (parse_reference k segs attr Hwf) as Hr.
  rewrite parse_query, chars_of_str_of, Hm in Hr.
  rewrite Hp in Hr. by injection Hr.
Qed.
End ParseMore.

(** *** The fields of a descriptor *)

Module DescriptorFacts.
Import Re First Grammar ReFacts ParseMore.

Lemma segment_is_segment w : segment w -> is_segment (str_of w).
Proof.
  intros [Hne Hw]. split; [|by rewrite chars_of_str_of].
  intros E. apply Hne. rewrite <- (chars_of_str_of w). by rewrite E.
Qed.

Lemma str_of_app a b : str_of (a ++ b) = (str_of a ++ str_of b)%string.
Proof.
  unfold str_of. induction a as [|x a IH]; simpl; [done|]. by rewrite IH.
Qed.

Lemma keys_text_fold segs :
  str_of (keys_text segs)
  = fold_right (fun k acc => ("/" ++ k ++ acc)%string) EmptyString
      (str_of <$> segs).
Proof.
  induction segs as [|w segs IH]; [done|].
  unfold keys_text. cbn [map concat fmap list_fmap fold_right].
  fold (keys_text segs). cbn [app str_of string_of_list_ascii].
  fold (str_of (w ++ keys_text segs)). rewrite str_of_app, IH. reflexivity.
Qed.
End DescriptorFacts.
(** *** Files that grow *)

Module KeepFacts.
Import H5 H5ops Obs Keep Nexus Copy H5Facts CopyFacts NexusFacts.
Local Open Scope h5_scope.

Lemma extends_refl o : extends o o.
Proof. unfold extends. destruct (content o); eauto. Qed.

Lemma extends_trans o1 o2 o3 : extends o1 o2 -> extends o2 o3 -> extends o1 o3.
Proof.
  unfold extends. destruct (content o1) as [l1|d1].
  - intros (l2 & -> & H12) (l3 & -> & H23). eauto.
  - intros ->. done.
Qed.

Lemma grows_refl st : grows st st.
Proof. intros i o Hs. exists o. split; [done|apply extends_refl]. Qed.

Lemma grows_trans st1 st2 st3 : grows st1 st2 -> grows st2 st3 -> grows st1 st3.
Proof.
  intros H12 H23 i o Hs. destruct (H12 i o Hs) as (o2 & Hs2 & He2).
  destruct (H23 i o2 Hs2) as (o3 & Hs3 & He3).
  exists o3. split; [done|]. by eapply extends_trans.
Qed.

Lemma grows_insert st h o o' :
  st !! h = Some o -> extends o o' -> grows st (<[h := o']> st).
Proof.
  intros Hs He i x Hi. destruct (decide (i = h)) as [->|Hne].
  - assert (x = o) as -> by congruence. exists o'. split; [|done].
    apply list_lookup_insert_eq. by eapply lookup_lt_Some.
  - exists x. split; [by rewrite list_lookup_insert_ne|apply extends_refl].
Qed.

Lemma grows_app st st' extra : grows st st' -> grows st (st' ++ extra).
Proof.
  intros Hg i o Hs. destruct (Hg i o Hs) as (o' & Hs' & He).
  exists o'. split; [|done]. rewrite lookup_app_l; [done|].
  by eapply lookup_lt_Some.
Qed.

Lemma extends_add_link a a' links k g :
  links !! k = None -> extends (Obj a (Group links)) (Obj a' (Group (<[k := g]> links))).
Proof.
  intros Hk. eexists. split; [done|]. intros n x Hn.
  rewrite lookup_insert_ne; [done|]. congruence.
Qed.

Lemma extends_attrs a a' b : extends (Obj a b) (Obj a' b).
Proof. unfold extends. simpl. destruct b; eauto. Qed.

Lemma grows_length st st' : grows st st' -> length st <= length st'.
Proof.
  intros Hg. destruct (decide (length st <= length st')) as [|Hlt]; [done|].
  destruct (lookup_lt_is_Some_2 st (length st')) as [o Ho]; [lia|].
  destruct (Hg _ _ Ho) as (o' & Ho' & _).
  apply lookup_lt_Some in Ho'. lia.
Qed.

Lemma grows_child st st' h k g :
  grows st st' -> child st h k = Some g -> child st' h k = Some g.
Proof.
  intros Hg (a & links & Hs & Hl)%child_lookup.
  destruct (Hg _ _ Hs) as ([a' b'] & Hs' & l' & Hc & Hsub). simpl in Hc.
  subst b'. unfold child. rewrite Hs'. by apply Hsub.
Qed.

Lemma grows_walk st st' path : forall g x,
  grows st st' -> walk st g path = Some x -> walk st' g path = Some x.
Proof.
  induction path as [|k path IH]; intros g x Hg; [done|]. cbn [walk].
  destruct (child st g k) as [g'|] eqn:Hc; [|done].
  rewrite (grows_child _ _ _ _ _ Hg Hc). by apply IH.
Qed.

Lemma grows_data st st' i d :
  grows st st' -> data_of st i = Some d -> data_of st' i = Some d.
Proof.
  intros Hg. unfold data_of.
  destruct (st !! i) as [[a [l|x]]|] eqn:Hs; try done. intros [= ->].
  destruct (Hg _ _ Hs) as ([a' b'] & -> & Hc). unfold extends in Hc.
  simpl in Hc. by subst b'.
Qed.

(** *** The operations *)

Section WithFormat.
Context {F : Format}.

Lemma growing_ret {A} (a : A) : growing (ret a).
Proof. intros st r st' [= <- <-]. apply grows_refl. Qed.

Lemma growing_raise {A} e : growing (raise (A := A) e).
Proof. intros st r st' [= <- <-]. apply grows_refl. Qed.

Lemma growing_lift {A} (x : result A) : growing (lift x).
Proof. intros st r st' [= <- <-]. apply grows_refl. Qed.

Lemma growing_bind {A B} (m : M A) (f : A -> M B) :
  growing m -> (forall a, growing (f a)) -> growing (bind m f).
Proof.
  intros Hm Hf st r st' Hrun. unfold bind in Hrun.
  destruct (m st) as [[a|e] st1] eqn:H1.
  - eapply grows_trans; [by eapply Hm|by eapply Hf].
  - injection Hrun as <- <-. by eapply Hm.
Qed.

Lemma growing_except {A} (m h : M A) :
  growing m -> growing h -> growing (except_TypeError m h).
Proof.
  intros Hm Hh st r st' Hrun. unfold except_TypeError in Hrun.
  destruct (m st) as [[a|e] st1] eqn:H1.
  - injection Hrun as <- <-. by eapply Hm.
  - destruct e; try (injection Hrun as <- <-; by eapply Hm).
    eapply grows_trans; [by eapply Hm|by eapply Hh].
Qed.

Lemma growing_for_each {A} (f : A -> M unit) l :
  Forall (fun x => growing (f x)) l -> growing (for_each f l).
Proof.
  induction 1 as [|x l Hx _ IH]; [apply growing_ret|].
  cbn [for_each]. apply growing_bind; [done|]. by intros _.
Qed.

Lemma growing_get_item h k : growing (get_item h k).
Proof.
  intros st r st' [-> _]%get_item_inv. apply grows_refl.
Qed.

Lemma growing_set_item h k t : growing (set_item h k t).
Proof.
  intros st r st' [[-> _]|(_ & a & links & Hs & Hk & ->)]%set_item_inv;
    [apply grows_refl|].
  eapply grows_insert; [done|]. by apply extends_add_link.
Qed.

Lemma growing_set_attr h n v : growing (set_attr h n v).
Proof.
  intros st r st' [[-> _]|(_ & _ & a & b & Hs & ->)]%set_attr_inv;
    [apply grows_refl|].
  eapply grows_insert; [done|]. apply extends_attrs.
Qed.

Lemma growing_create_child h k chk o : growing (create_child h k chk o).
Proof.
  intros st r st' [[-> _]|(_ & _ & a & links & Hs & Hk & ->)]%create_child_inv;
    [apply grows_refl|].
  apply grows_app. eapply grows_insert; [done|]. by apply extends_add_link.
Qed.

Lemma growing_descend ks : forall t, growing (descend t ks).
Proof.
  induction ks as [|k ks IH]; intros t; [apply growing_ret|].
  cbn [descend]. apply growing_bind; [apply growing_get_item|done].
Qed.

Lemma growing_resolve p root : growing (_get_h5_group_or_dataset p root).
Proof. rewrite resolve_descend. apply growing_descend. Qed.

Lemma growing_set_attrs h al : growing (set_attrs h al).
Proof.
  induction al as [|[n v] al IH]; [apply growing_ret|].
  cbn [set_attrs]. apply growing_bind; [apply growing_set_attr|by intros _].
Qed.

Ltac growing_step :=
  first [ apply growing_ret | apply growing_raise | apply growing_lift
        | apply growing_get_item | apply growing_set_item
        | apply growing_set_attr | apply growing_create_child
        | apply growing_resolve | apply growing_set_attrs
        | apply growing_bind; [|intros ?] ].

Lemma growing_nexus_item self h k v :
  (forall g, growing (self v g)) -> growing (nexus_item self h k v).
Proof.
  intros Hself. unfold nexus_item, dict_item, parse_link, create_dataset,
    create_group.
  repeat match goal with
         | |- growing (if ?b then _ else _) => destruct b
         | |- growing (match ?x with _ => _ end) => destruct x
         | |- growing (self _ _) => apply Hself
         | _ => growing_step
         end.
Qed.

Lemma growing_copy_nexus v : forall h, growing (copy_nexus v h).
Proof.
  induction v as [| | | | | | |items IH] using pyval_nested_ind; intros h;
    try apply growing_raise.
  rewrite copy_nexus_dict. apply growing_for_each.
  eapply Forall_impl; [exact IH|]. intros [k v] Hv. cbn [fst snd] in *.
  by apply growing_nexus_item.
Qed.

Lemma growing_attr_leaf h k v : growing (attr_leaf h k v).
Proof.
  unfold attr_leaf. apply growing_except; repeat growing_step.
Qed.

Lemma growing_dataset_leaf_unit h k v : growing (dataset_leaf_unit h k v).
Proof.
  unfold dataset_leaf_unit, dataset_leaf, create_dataset.
  apply growing_bind; [|intros ?; apply growing_ret].
  apply growing_except; [destruct (str_or_str_sequence _)|];
    repeat growing_step.
Qed.

Lemma growing_copy_with leaf :
  (forall h k v, growing (leaf h k v)) ->
  forall v h, growing (Shared.copy_with leaf v h).
Proof.
  intros Hleaf v.
  induction v as [| | | | | | |items IH] using pyval_nested_ind; intros h;
    try apply growing_raise.
  rewrite copy_with_dict. apply growing_for_each.
  eapply Forall_impl; [exact IH|]. intros [k v] Hv. cbn [fst snd] in *.
  unfold Shared.item_with, create_group.
  destruct v; try apply Hleaf.
  apply growing_bind; [apply growing_create_child|]. intros g. apply Hv.
Qed.

End WithFormat.
End KeepFacts.
(** *** The lookup along a path *)

Module LookupFacts.
Import H5 H5ops Obs Nexus H5Facts NexusFacts.
Local Open Scope h5_scope.

Lemma descend_app pre post t g st :
  walk st t pre = Some g -> descend t (pre ++ post) st = descend g post st.
Proof.
  revert t. induction pre as [|k pre IH]; intros t; cbn [walk app descend].
  - by intros [= ->].
  - destruct (child st t k) as [t'|] eqn:Hc; [|done]. intros Hw.
    unfold bind. rewrite (get_item_ok _ _ _ _ Hc). by apply IH.
Qed.

Lemma descend_missing k post g st a links :
  st !! g = Some (Obj a (Group links)) -> links !! k = None ->
  descend g (k :: post) st = (Raise (KeyError k), st).
Proof.
  intros Hs Hk. cbn [descend]. unfold bind, get_item. by rewrite Hs, Hk.
Qed.

End LookupFacts.
(** *** The walk, item by item *)

Module NexusMore.
Import H5 H5ops Obs Keep Nexus H5Facts NexusFacts KeepFacts.
Local Open Scope h5_scope.

Section WithFormat.
Context {F : Format}.

Lemma bind_ok_inv {A B} (m : M A) (f : A -> M B) st b st' :
  bind m f st = (Ok b, st') ->
  exists a st1, m st = (Ok a, st1) /\ f a st1 = (Ok b, st').
Proof.
  unfold bind. destruct (m st) as [[a|e] st1]; [eauto|done].
Qed.

Lemma bind_run {A B} (m : M A) (f : A -> M B) st a st1 :
  m st = (Ok a, st1) -> bind m f st = f a st1.
Proof. intros H. unfold bind. by rewrite H. Qed.

Lemma bind_raise {A B} (m : M A) (f : A -> M B) st e st1 :
  m st = (Raise e, st1) -> bind m f st = (Raise e, st1).
Proof. intros H. unfold bind. by rewrite H. Qed.

(** The run of the walk on a dictionary, cut at the first place of a
    key. *)
Lemma copy_nexus_at_key items key v h st st' :
  dict_get key items = Some v ->
  copy_nexus (PDict items) h st = (Ok tt, st') ->
  exists st0 st1,
    grows st st0
    /\ nexus_item copy_nexus h key v st0 = (Ok tt, st1)
    /\ grows st1 st'.
Proof.
  intros (pre & post & -> & _)%dict_get_split Hrun.
  rewrite copy_nexus_dict, for_each_app in Hrun.
  destruct (for_each _ pre st) as [[[]|e] st0] eqn:Hpre; [|done].
  rewrite for_each_cons in Hrun. cbn [fst snd] in Hrun.
  destruct (nexus_item copy_nexus h key v st0) as [[[]|e] st1] eqn:Hitem;
    [|done].
  exists st0, st1. split; [|split; [done|]].
  - by eapply (growing_copy_nexus (PDict pre)).
  - by eapply (growing_copy_nexus (PDict post)).
Qed.

Lemma nexus_item_plain self h k v :
  ~ reserved k -> is_mapping v = false -> is_reference v = false ->
  nexus_item self h k v = (create_dataset h k (Raw v) ;; ret tt).
Proof.
  intros Hk Hm Hr. rewrite nexus_item_branch by done.
  destruct v; try done. unfold is_reference in Hr. by rewrite Hr.
Qed.

Lemma created_child h k o st a links :
  st !! h = Some (Obj a (Group links)) ->
  let st' := <[h := Obj a (Group (<[k := length st]> links))]> st ++ [o] in
  child st' h k = Some (length st) /\ st' !! length st = Some o.
Proof.
  intros Hs st'. assert (Hh : h < length st) by (by eapply lookup_lt_Some).
  split.
  - unfold child, st'. rewrite lookup_app_l by (by rewrite length_insert).
    rewrite list_lookup_insert_eq by done. apply lookup_insert_eq.
  - unfold st'. rewrite lookup_app_r by (by rewrite length_insert).
    by rewrite length_insert, Nat.sub_diag.
Qed.

Lemma linked_child h k t st a links :
  st !! h = Some (Obj a (Group links)) ->
  child (<[h := Obj a (Group (<[k := t]> links))]> st) h k = Some t.
Proof.
  intros Hs. assert (Hh : h < length st) by (by eapply lookup_lt_Some).
  unfold child. rewrite list_lookup_insert_eq by done. apply lookup_insert_eq.
Qed.

Lemma dict_has_get k d v : dict_get k d = Some v -> dict_has k d = true.
Proof. unfold dict_has. by intros ->. Qed.

(** The item of a value that is turned into a link, when it returns. *)
Lemma nexus_item_link self h k v s st st' :
  ~ reserved k -> link_text v = Some s ->
  (forall g, growing (self v g)) ->
  nexus_item self h k v st = (Ok tt, st') ->
  exists p target,
    _parse_bluesky_document_path s = Ok p
    /\ walk st 0 ("bluesky" :: doc p :: keys p) = Some target
    /\ child st' h k = Some target
    /\ grows st st'.
Proof.
  intros Hk Hv Hself Hrun.
  pose proof (growing_nexus_item self h k v Hself _ _ _ Hrun) as Hgrow.
  rewrite nexus_item_branch in Hrun by done.
  destruct v as [| | |s0| | | |sub]; try done; cbn [link_text] in Hv.
  - destruct (startswith _ _); [|done]. injection Hv as ->.
    apply bind_ok_inv in Hrun as (p & st1 & Hp & Hrun).
    unfold lift in Hp. injection Hp as Hp <-.
    apply bind_ok_inv in Hrun as (t & st1 & Hr & Hrun).
    pose proof (resolve_state p (file_of h) st) as Hst. rewrite Hr in Hst.
    simpl in Hst. subst st1. apply resolve_ok in Hr.
    apply set_item_inv in Hrun
      as [[_ [? ?]]|(_ & a & links & Hs & _ & ->)]; [done|].
    exists p, t. split; [done|]. split; [done|]. split; [|done].
    by apply linked_child.
  - destruct (dict_get "_link" sub) as [[| | |s0| | | |]|] eqn:Hl; try done.
    injection Hv as ->. rewrite (dict_has_get _ _ _ Hl) in Hrun.
    unfold dict_item in Hrun. rewrite Hl in Hrun.
    apply bind_ok_inv in Hrun as (x & st1 & [= <- <-] & Hrun).
    apply bind_ok_inv in Hrun as (p & st1 & Hp & Hrun).
    cbn [parse_link] in Hp. unfold lift in Hp. injection Hp as Hp <-.
    apply bind_ok_inv in Hrun as (t & st1 & Hr & Hrun).
    pose proof (resolve_state p (file_of h) st) as Hst. rewrite Hr in Hst.
    simpl in Hst. subst st1. apply resolve_ok in Hr.
    apply bind_ok_inv in Hrun as ([] & st1 & Hset & Hrun).
    apply set_item_inv in Hset
      as [[_ [? ?]]|(_ & a & links & Hs & _ & ->)]; [done|].
    apply bind_ok_inv in Hrun as (c & st2 & Hget & Hrun).
    apply get_item_inv in Hget as [-> _].
    exists p, t. split; [done|]. split; [done|]. split; [|done].
    eapply grows_child; [by eapply Hself|]. by apply linked_child.
Qed.

(** The item of a mapping under a key that is not reserved, when it
    returns: the key names an object, and the walk has gone on in it. *)
Lemma nexus_item_mapping h k sub st st' :
  ~ reserved k ->
  nexus_item copy_nexus h k (PDict sub) st = (Ok tt, st') ->
  exists c st1,
    grows st st1 /\ child st1 h k = Some c
    /\ copy_nexus (PDict sub) c st1 = (Ok tt, st').
Proof.
  intros Hk Hrun. rewrite nexus_item_branch in Hrun by done.
  destruct (dict_has "_link" sub); [|destruct (dict_has "_data" sub)].
  - apply bind_ok_inv in Hrun as (link & s1 & Hl & Hrun).
    apply bind_ok_inv in Hrun as (p & s2 & Hp & Hrun).
    apply bind_ok_inv in Hrun as (t & s3 & Hr & Hrun).
    apply bind_ok_inv in Hrun as ([] & s4 & Hset & Hrun).
    apply bind_ok_inv in Hrun as (c & s5 & Hget & Hrun).
    apply get_item_inv in Hget as [-> Hc].
    exists c, s4. split; [|split; [by apply Hc|done]].
    assert (G1 : grows st s1).
    { unfold dict_item in Hl. destruct (dict_get "_link" sub); [|done].
      injection Hl as _ <-. apply grows_refl. }
    assert (G2 : grows s1 s2).
    { destruct link; try done. cbn [parse_link] in Hp. unfold lift in Hp.
      injection Hp as _ <-. apply grows_refl. }
    assert (G3 : grows s2 s3) by (by eapply growing_resolve).
    assert (G4 : grows s3 s4) by (by eapply growing_set_item).
    eauto using grows_trans.
  - apply bind_ok_inv in Hrun as (data & s1 & Hd & Hrun).
    apply bind_ok_inv in Hrun as (d & s2 & Hc & Hrun).
    apply bind_ok_inv in Hrun as (c & s3 & Hget & Hrun).
    apply get_item_inv in Hget as [-> Hchild].
    exists c, s2. split; [|split; [by apply Hchild|done]].
    assert (G1 : grows st s1).
    { unfold dict_item in Hd. destruct (dict_get "_data" sub); [|done].
      injection Hd as _ <-. apply grows_refl. }
    assert (G2 : grows s1 s2) by (by eapply growing_create_child).
    eauto using grows_trans.
  - apply bind_ok_inv in Hrun as (c & s1 & Hc & Hrun).
    pose proof (growing_create_child _ _ _ _ _ _ _ Hc) as G1.
    apply create_child_inv in Hc
      as [(_ & e & ? & _)|(Hg & _ & a & links & Hs & _ & ->)]; [done|].
    injection Hg as ->.
    eexists (length st), _. split; [exact G1|]. split; [|exact Hrun].
    by apply created_child.
Qed.

(** The run of the walk, cut at the item of a key at any depth. *)
Lemma copy_nexus_at_path path : forall items key v h st st',
  leaf_at items path key = Some v ->
  Forall (fun k => ~ reserved k) path ->
  copy_nexus (PDict items) h st = (Ok tt, st') ->
  exists g st0 st1,
    walk st' h path = Some g
    /\ grows st st0
    /\ nexus_item copy_nexus g key v st0 = (Ok tt, st1)
    /\ grows st1 st'.
Proof.
  induction path as [|p path IH]; intros items key v h st st' Hleaf Hpath Hrun.
  - destruct (copy_nexus_at_key _ _ _ _ _ _ Hleaf Hrun)
      as (st0 & st1 & Hg0 & Hitem & Hg1).
    by exists h, st0, st1.
  - cbn [leaf_at] in Hleaf.
    destruct (dict_get p items) as [[| | | | | | |sub]|] eqn:Hp; try done.
    apply Forall_cons in Hpath as [Hk Hpath].
    destruct (copy_nexus_at_key _ _ _ _ _ _ Hp Hrun)
      as (sa & sb & Ga & Hitem & Gb).
    destruct (nexus_item_mapping _ _ _ _ _ Hk Hitem)
      as (c & s1 & G1 & Hc & Hsub).
    destruct (IH _ _ _ _ _ _ Hleaf Hpath Hsub)
      as (g & st0 & st1 & Hw & G0 & Hit & G2).
    pose proof (growing_copy_nexus _ _ _ _ _ Hsub) as Gsub.
    exists g, st0, st1. split; [|split; [|split; [done|]]].
    + cbn [walk].
      rewrite (grows_child _ _ _ _ _ (grows_trans _ _ _ Gsub Gb) Hc).
      by eapply grows_walk.
    + eauto using grows_trans.
    + eauto using grows_trans.
Qed.

(** The walk on a dictionary that has the three reserved keys only sets
    the attributes of the object and nothing else, on a group as on a
    dataset. *)
Lemma copy_nexus_reserved items : forall d st a b,
  NoDup (fst <$> items) -> st !! d = Some (Obj a b) ->
  Forall (fun kv =>
            fst kv = "_data" \/ fst kv = "_link"
            \/ (fst kv = "_attributes"
                /\ exists al, snd kv = PDict al
                     /\ Forall (fun kv => attr_check (snd kv) = None) al))
         items ->
  copy_nexus (PDict items) d st
  = (Ok tt, <[d := Obj (match dict_get "_attributes" items with
                        | Some (PDict al) => set_all al a
                        | _ => a
                        end) b]> st).
Proof.
  induction items as [|[k v] items IH]; intros d st a b Hnd Hs Hall.
  - simpl. by rewrite list_insert_id.
  - cbn [fmap list_fmap fst] in Hnd. apply NoDup_cons in Hnd as [Hk Hnd].
    apply Forall_cons in Hall as [Hkv Hall]. cbn [fst snd] in Hkv.
    rewrite copy_nexus_dict, for_each_cons. cbn [fst snd].
    rewrite <- copy_nexus_dict.
    destruct Hkv as [->|[->|(-> & al & -> & Hal)]].
    + rewrite nexus_item_skip by tauto. cbn [dict_get String.eqb Ascii.eqb Bool.eqb].
      by apply IH.
    + rewrite nexus_item_skip by tauto. cbn [dict_get String.eqb Ascii.eqb Bool.eqb].
      by apply IH.
    + rewrite nexus_item_attributes.
      rewrite (set_attrs_ok al d st a b Hs Hal).
      assert (Hd : d < length st) by (by eapply lookup_lt_Some).
      rewrite (IH d _ (set_all al a) b Hnd); [|by apply list_lookup_insert_eq|done].
      rewrite list_insert_insert_eq. cbn [dict_get String.eqb Ascii.eqb Bool.eqb].
      rewrite dict_get_none
        by (intros Hin; apply Hk; by apply list_elem_of_In).
      done.
Qed.

(** *** A key that the walk skips *)

Lemma bind_ext {A B} (m : M A) (f g : A -> M B) st :
  (forall a st1, f a st1 = g a st1) -> bind m f st = bind m g st.
Proof. intros H. unfold bind. destruct (m st) as [[a|e] st1]; [apply H|done]. Qed.

Lemma dict_get_without k k' d :
  k <> k' -> dict_get k (without k' d) = dict_get k d.
Proof.
  intros Hne. induction d as [|[x v] d IH]; [done|].
  unfold without in *. cbn [List.filter fst dict_get].
  destruct (String.eqb_spec x k') as [->|Hx]; cbn [negb dict_get].
  - by rewrite (eqb_false k k').
  - by rewrite IH.
Qed.

Lemma copy_nexus_without k d h st :
  k = "_data" \/ k = "_link" ->
  copy_nexus (PDict (without k d)) h st = copy_nexus (PDict d) h st.
Proof.
  intros Hk. rewrite !copy_nexus_dict. revert st.
  induction d as [|[x v] d IH]; intros st; [done|].
  unfold without in *. cbn [List.filter fst].
  destruct (String.eqb_spec x k) as [->|Hx]; cbn [negb].
  - rewrite (for_each_cons _ (k, v)). cbn [fst snd].
    rewrite nexus_item_skip by done. apply IH.
  - rewrite !for_each_cons. destruct (nexus_item _ _ _ _ _) as [[[]|e] st1];
      [apply IH|done].
Qed.

End WithFormat.
End NexusMore.
(** *** The plain copies return *)

Module RunFacts.
Import H5 H5ops Obs Shared Copy Storable H5Facts CopyFacts NexusFacts JsonFacts.
Local Open Scope h5_scope.

Section WithFormat.
Context {F : Format}.

Section Shared.
Variable leaf : ref -> string -> pyval -> M unit.
Variable good : pyval -> Prop.
Hypothesis leaf_frame :
  forall h k v st r st',
    leaf h k v st = (r, st') -> frame h (fun n => n = k) st st'.
Hypothesis leaf_runs :
  forall h k v st a links,
    good v -> is_mapping v = false ->
    st !! h = Some (Obj a (Group links)) -> links !! k = None ->
    exists st', leaf h k v st = (Ok tt, st').



End Shared.



End WithFormat.
End RunFacts.
(** *** Tuples and bytes in JSON texts *)

Module JsonMore.
Import Json Text JsonFacts.

Lemma encode_all_listify l :
  Forall (fun x => encode (listify x) = encode x) l ->
  encode_all encode (map listify l) = encode_all encode l.
Proof.
  induction 1 as [|x l Hx _ IH]; [done|].
  cbn [map encode_all]. by rewrite Hx, IH.
Qed.

Lemma encode_members_listify d :
  Forall (fun kv => encode (listify (snd kv)) = encode (snd kv)) d ->
  encode_members encode (map (fun kv => (fst kv, listify (snd kv))) d)
  = encode_members encode d.
Proof.
  induction 1 as [|x l Hx _ IH]; [done|].
  cbn [map encode_members fst snd]. by rewrite Hx, IH.
Qed.

(** A tuple has the text of the list of its items. *)
Lemma encode_listify v : encode (listify v) = encode v.
Proof.
  induction v as [| | | | |l IH|l IH|d IH] using pyval_nested_ind; try done.
  - cbn [listify encode]. by rewrite encode_all_listify.
  - cbn [listify encode]. by rewrite encode_all_listify.
  - cbn [listify encode]. by rewrite encode_members_listify.
Qed.

Lemma json_exact_listify v : json_value v -> json_exact (listify v).
Proof.
  induction v as [| | | | |l IH|l IH|d IH] using pyval_nested_ind;
    intros Hv; try (by constructor); try (by inversion Hv).
  - inversion Hv as [| | | |l' Hl| |]; subst. cbn [listify]. constructor.
    apply Forall_fmap. apply Forall_forall. intros x Hx.
    rewrite Forall_forall in IH, Hl. apply IH; [done|]. by apply Hl.
  - inversion Hv as [| | | | |l' Hl|]; subst. cbn [listify]. constructor.
    apply Forall_fmap. apply Forall_forall. intros x Hx.
    rewrite Forall_forall in IH, Hl. apply IH; [done|]. by apply Hl.
  - inversion Hv as [| | | | | |d' Hnd Hd]; subst. cbn [listify]. constructor.
    + assert (E : fst <$> map (fun kv => (fst kv, listify (snd kv))) d
                  = fst <$> d).
      { clear. induction d as [|kv d IH]; [done|].
        cbn [map]. rewrite !fmap_cons. cbn [fst]. by rewrite IH. }
      by rewrite E.
    + apply Forall_fmap. apply Forall_forall. intros x Hx. cbn [snd].
      rewrite Forall_forall in IH, Hd. apply (IH x); [done|]. by apply Hd.
Qed.

Lemma loads_dumps_listify v :
  json_value v ->
  exists text, dumps v = Ok text /\ loads text = Ok (listify v).
Proof.
  intros Hv.
  destruct (loads_dumps (listify v) (json_exact_listify v Hv))
    as (text & Hd & Hl).
  exists text. split; [|done]. unfold dumps in *.
  by rewrite <- encode_listify.
Qed.

(** *** The values without a JSON text *)





End JsonMore.
(** *** Names that are taken *)

Module TakenFacts.
Import H5 H5ops Obs Nexus Copy H5Facts CopyFacts NexusFacts.
Local Open Scope h5_scope.

Section WithFormat.
Context {F : Format}.

Lemma create_child_taken h k chk o st a links x :
  st !! h = Some (Obj a (Group links)) -> links !! k = Some x ->
  exists e, create_child h k chk o st = (Raise e, st).
Proof.
  intros Hs Hk. unfold create_child. rewrite Hs, Hk. destruct chk; eauto.
Qed.

Lemma set_item_taken h k t st a links x :
  st !! h = Some (Obj a (Group links)) -> links !! k = Some x ->
  set_item h k t st = (Raise ValueError, st).
Proof. intros Hs Hk. unfold set_item. by rewrite Hs, Hk. Qed.

Lemma link_taken p h k st a links x :
  st !! h = Some (Obj a (Group links)) -> links !! k = Some x ->
  exists e,
    (let* target := _get_h5_group_or_dataset p (file_of h) in
     set_item h k target) st = (Raise e, st).
Proof.
  intros Hs Hk. unfold bind.
  destruct (resolve_cases p (file_of h) st) as [(g & -> & _)|(e & ->)];
    [|eauto].
  erewrite set_item_taken by done. eauto.
Qed.

Lemma nexus_item_taken self h k v st a links x :
  st !! h = Some (Obj a (Group links)) -> links !! k = Some x ->
  ~ reserved k ->
  exists e, nexus_item self h k v st = (Raise e, st).
Proof.
  intros Hs Hk Hres. rewrite nexus_item_branch by done.
  assert (Hd : forall data,
             exists e, (create_dataset h k data ;; ret tt) st = (Raise e, st)).
  { intros data. unfold bind, create_dataset.
    destruct (create_child_taken h k (data_check data) (Obj ∅ (Dataset data))
                st a links x Hs Hk) as [e ->].
    eauto. }
  destruct v as [| | |s| | | |sub]; try apply Hd.
  - destruct (startswith _ _); [|apply Hd].
    unfold bind at 1, lift.
    destruct (_parse_bluesky_document_path s) as [p|e]; [|eauto].
    by eapply link_taken.
  - destruct (dict_has "_link" sub).
    + unfold bind at 1, dict_item.
      destruct (dict_get "_link" sub) as [link|]; [|by eexists].
      cbn [ret]. unfold bind at 1.
      destruct link as [| | |s| | | |]; try by eexists.
      cbn [parse_link lift].
      destruct (_parse_bluesky_document_path s) as [p|e]; [|eauto].
      unfold bind at 1.
      destruct (resolve_cases p (file_of h) st) as [(g & -> & _)|(e & ->)];
        [|eauto].
      unfold bind at 1. erewrite set_item_taken by done. eauto.
    + destruct (dict_has "_data" sub).
      * unfold bind at 1, dict_item.
        destruct (dict_get "_data" sub) as [data|]; [|by eexists].
        cbn [ret]. unfold bind at 1, create_dataset.
        destruct (create_child_taken h k (data_check (Raw data))
                    (Obj ∅ (Dataset (Raw data))) st a links x Hs Hk) as [e ->].
        eauto.
      * unfold bind at 1, create_group.
        destruct (create_child_taken h k None (Obj ∅ (Group ∅)) st a links x
                    Hs Hk) as [e ->].
        eauto.
Qed.

Lemma dataset_leaf_taken h k v st a links x :
  st !! h = Some (Obj a (Group links)) -> links !! k = Some x ->
  exists e, dataset_leaf h k v st = (Raise e, st).
Proof.
  intros Hs Hk.
  destruct (dataset_leaf h k v st) as [[g|e] st1] eqn:Hl.
  - apply dataset_leaf_inv in Hl
      as [[_ [? ?]]|(_ & a' & l' & d & Hs' & Hk' & _)]; [done|].
    congruence.
  - apply dataset_leaf_inv in Hl as [[-> _]|[? _]]; [eauto|done].
Qed.

End WithFormat.
End TakenFacts.
(** *** The walk returns *)

Module WellFormedFacts.
Import H5 H5ops Obs Keep Links WellFormed Nexus.
Import H5Facts NexusFacts KeepFacts NexusMore.
Local Open Scope h5_scope.

Lemma links_kept_refl h K st : links_kept h K st st.
Proof. split; eauto. Qed.

Lemma links_kept_weaken h (K K' : string -> Prop) st st' :
  (forall n, K n -> K' n) -> links_kept h K st st' -> links_kept h K' st st'.
Proof.
  intros HK [Ho Hh]. split; [done|]. intros a l Hs.
  destruct (Hh a l Hs) as (a' & l' & Hs' & Hl). exists a', l'.
  split; [done|]. intros n Hn. apply Hl. naive_solver.
Qed.

Lemma links_kept_trans h K st1 st2 st3 :
  links_kept h K st1 st2 -> links_kept h K st2 st3 -> links_kept h K st1 st3.
Proof.
  intros [Ho1 Hh1] [Ho2 Hh2]. split.
  - intros i o Hs Hne. destruct (Ho1 i o Hs Hne) as (o2 & Hs2 & Hc2).
    destruct (Ho2 i o2 Hs2 Hne) as (o3 & Hs3 & Hc3).
    exists o3. split; [done|]. congruence.
  - intros a l Hs. destruct (Hh1 a l Hs) as (a2 & l2 & Hs2 & Hl2).
    destruct (Hh2 a2 l2 Hs2) as (a3 & l3 & Hs3 & Hl3).
    exists a3, l3. split; [done|]. intros n Hn. by rewrite Hl3, Hl2.
Qed.

(** A change of the attributes of one object keeps all the links. *)
Lemma links_kept_attrs h K st g a a' b :
  st !! g = Some (Obj a b) -> links_kept h K st (<[g := Obj a' b]> st).
Proof.
  intros Hg. assert (Hlt : g < length st) by (by eapply lookup_lt_Some).
  split.
  - intros i o Hs _. destruct (decide (i = g)) as [->|Hne].
    + exists (Obj a' b). rewrite list_lookup_insert_eq by done.
      split; [done|]. assert (o = Obj a b) as -> by congruence. done.
    + exists o. by rewrite list_lookup_insert_ne.
  - intros a0 l Hs. destruct (decide (h = g)) as [->|Hne].
    + assert (b = Group l) as -> by congruence.
      exists a', l. by rewrite list_lookup_insert_eq.
    + exists a0, l. by rewrite list_lookup_insert_ne.
Qed.

(** A new link [k] in the group [h]. *)
Lemma links_kept_link h k t st a links :
  st !! h = Some (Obj a (Group links)) ->
  links_kept h (fun n => n = k) st
    (<[h := Obj a (Group (<[k := t]> links))]> st).
Proof.
  intros Hh. assert (Hlt : h < length st) by (by eapply lookup_lt_Some).
  split.
  - intros i o Hs Hne. exists o. by rewrite list_lookup_insert_ne.
  - intros a0 l Hs. assert (a0 = a /\ l = links) as [-> ->]
      by (split; congruence).
    exists a, (<[k := t]> links). rewrite list_lookup_insert_eq by done.
    split; [done|]. intros n Hn. by rewrite lookup_insert_ne by congruence.
Qed.

Lemma links_kept_app h K st st' extra :
  links_kept h K st st' -> links_kept h K st (st' ++ extra).
Proof.
  intros [Ho Hh]. split.
  - intros i o Hs Hne. destruct (Ho i o Hs Hne) as (o' & Hs' & Hc).
    exists o'. split; [|done]. rewrite lookup_app_l; [done|].
    by eapply lookup_lt_Some.
  - intros a l Hs. destruct (Hh a l Hs) as (a' & l' & Hs' & Hl).
    exists a', l'. split; [|done]. rewrite lookup_app_l; [done|].
    by eapply lookup_lt_Some.
Qed.

(** What is done in an object made after [st] keeps the links of the
    objects of [st]. *)
Lemma links_kept_later h K c K' st st1 st2 :
  links_kept h K st st1 -> links_kept c K' st1 st2 -> length st <= c ->
  h < length st -> links_kept h K st st2.
Proof.
  intros [Ho1 Hh1] [Ho2 _] Hc Hh. split.
  - intros i o Hs Hne. destruct (Ho1 i o Hs Hne) as (o1 & Hs1 & Hc1).
    destruct (Ho2 i o1 Hs1) as (o2 & Hs2 & Hc2).
    { apply lookup_lt_Some in Hs. lia. }
    exists o2. split; [done|]. congruence.
  - intros a l Hs. destruct (Hh1 a l Hs) as (a1 & l1 & Hs1 & Hl1).
    destruct (Ho2 h _ Hs1) as ([a2 b2] & Hs2 & Hc2); [lia|].
    simpl in Hc2. subst b2. by exists a2, l1.
Qed.

Section WithFormat.
Context {F : Format}.

Lemma resolves_now st0 st v :
  resolves st0 v -> grows st0 st ->
  exists s p t o,
    v = PStr s /\ _parse_bluesky_document_path s = Ok p
    /\ _get_h5_group_or_dataset p 0 st = (Ok t, st) /\ st !! t = Some o.
Proof.
  intros (s & p & t & -> & Hp & Hw & [o Ho]) Hg.
  destruct (Hg _ _ Ho) as (o' & Ho' & _).
  exists s, p, t, o'. split; [done|]. split; [done|]. split; [|done].
  apply resolve_ok. by eapply grows_walk.
Qed.

Lemma described_reserved sub :
  described sub ->
  Forall (fun kv =>
            fst kv = "_data" \/ fst kv = "_link"
            \/ (fst kv = "_attributes"
                /\ exists al, snd kv = PDict al
                     /\ Forall (fun kv => attr_check (snd kv) = None) al))
         sub.
Proof. by intros [_ H]. Qed.

(** The item of a key that makes no group, on a group in which the key is
    a free name. *)
Lemma nexus_item_runs st0 h k v st a links :
  item_ok st0 k v -> grows st0 st ->
  (forall sub, v = PDict sub ->
     ~ reserved k -> dict_has "_link" sub = false ->
     dict_has "_data" sub = false -> False) ->
  st !! h = Some (Obj a (Group links)) ->
  (~ reserved k -> links !! k = None) ->
  exists st',
    nexus_item copy_nexus h k v st = (Ok tt, st')
    /\ links_kept h (fun n => n = k) st st'.
Proof.
  intros Hok Hg Hnogroup Hs Hfree. unfold item_ok in Hok.
  assert (Hh : h < length st) by (by eapply lookup_lt_Some).
  destruct (String.eqb k "_data" || String.eqb k "_link") eqn:Hskip.
  { exists st. split; [|apply links_kept_refl].
    unfold nexus_item. by rewrite Hskip. }
  apply orb_false_iff in Hskip as [Hk1 Hk2].
  apply String.eqb_neq in Hk1, Hk2.
  destruct (String.eqb_spec k "_attributes") as [->|Hk3].
  { destruct Hok as (al & -> & Hal). rewrite nexus_item_attributes.
    rewrite (set_attrs_ok al h st _ _ Hs Hal).
    eexists. split; [done|]. by eapply links_kept_attrs. }
  assert (Hres : ~ reserved k) by (unfold reserved; tauto).
  specialize (Hfree Hres). rewrite nexus_item_branch by done.
  assert (Hplain : forall w, data_check (Raw w) = None ->
            exists st',
              (create_dataset h k (Raw w) ;; ret tt) st = (Ok tt, st')
              /\ links_kept h (fun n => n = k) st st').
  { intros w Hw. unfold bind.
    rewrite (create_dataset_ok _ _ _ _ _ _ Hs Hfree Hw).
    eexists. split; [done|]. apply links_kept_app. by apply links_kept_link. }
  assert (Hlink : forall w,
            resolves st0 w ->
            exists s p t o,
              w = PStr s /\ _parse_bluesky_document_path s = Ok p
              /\ st !! t = Some o
              /\ (let* target := _get_h5_group_or_dataset p (file_of h) in
                  set_item h k target) st
                 = (Ok tt, <[h := Obj a (Group (<[k := t]> links))]> st)).
  { intros w Hw.
    destruct (resolves_now _ _ _ Hw Hg) as (s & p & t & o & -> & Hp & Hr & Ho).
    exists s, p, t, o. split; [done|]. split; [done|]. split; [done|].
    rewrite (bind_run _ _ st t st) by done. by apply set_item_ok. }
  destruct v as [| | |s| | | |sub]; try by apply Hplain.
  - destruct (startswith _ _); [|by apply Hplain].
    destruct (Hlink _ Hok) as (s' & p & t & o & [= <-] & Hp & Ho & Hrun).
    rewrite (bind_run _ _ st p st) by (unfold lift; by rewrite Hp).
    rewrite Hrun. eexists. split; [done|]. by apply links_kept_link.
  - unfold dict_has, dict_item in *.
    destruct (dict_get "_link" sub) as [link|] eqn:Hl.
    + destruct Hok as [Hr Hdesc].
      destruct (Hlink _ Hr) as (s' & p & t & o & -> & Hp & Ho & Hrun).
      rewrite (bind_run _ _ st (PStr s') st) by done.
      rewrite (bind_run _ _ st p st)
        by (cbn [parse_link]; unfold lift; by rewrite Hp).
      set (st1 := <[h := Obj a (Group (<[k := t]> links))]> st) in *.
      assert (H1 : (let* target := _get_h5_group_or_dataset p (file_of h) in
                    set_item h k target ;;
                    let* child := get_item h k in
                    copy_nexus (PDict sub) child) st
                   = copy_nexus (PDict sub) t st1).
      { unfold bind in Hrun |- *.
        destruct (_get_h5_group_or_dataset p (file_of h) st) as [[g|e] s2];
          [|done].
        destruct (set_item h k g s2) as [[[]|e] s3] eqn:Hset; [|done].
        injection Hrun as ->.
        assert (Hc : child st1 h k = Some t) by (by apply linked_child).
        by rewrite (get_item_ok _ _ _ _ Hc). }
      rewrite H1.
      assert (Ht1 : exists o1, st1 !! t = Some o1).
      { apply lookup_lt_is_Some_2. unfold st1. rewrite length_insert.
        by eapply lookup_lt_Some. }
      destruct Ht1 as [[a1 b1] Ht1].
      rewrite (copy_nexus_reserved sub t st1 a1 b1 (proj1 Hdesc) Ht1
                 (described_reserved _ Hdesc)).
      eexists. split; [done|].
      eapply links_kept_trans; [by apply links_kept_link|].
      by eapply links_kept_attrs.
    + destruct (dict_get "_data" sub) as [data|] eqn:Hd.
      * destruct Hok as [Hchk Hdesc].
        rewrite (bind_run _ _ st data st) by done.
        rewrite (bind_run _ _ st (length st) _
                   (create_dataset_ok _ _ _ _ _ _ Hs Hfree Hchk)).
        destruct (created_child h k (Obj ∅ (Dataset (Raw data))) _ _ _ Hs)
          as [Hc Hnew].
        rewrite (bind_run _ _ _ (length st) _ (get_item_ok _ _ _ _ Hc)).
        rewrite (copy_nexus_reserved sub (length st) _ ∅ _ (proj1 Hdesc) Hnew
                   (described_reserved _ Hdesc)).
        eexists. split; [done|].
        eapply links_kept_trans;
          [apply links_kept_app; by apply links_kept_link|].
        by eapply links_kept_attrs.
      * exfalso. apply (Hnogroup sub); [done|done|by rewrite Hl|by rewrite Hd].
Qed.

Lemma classic_group k v :
  (exists sub, v = PDict sub /\ ~ reserved k
               /\ dict_has "_link" sub = false
               /\ dict_has "_data" sub = false)
  \/ ~ (exists sub, v = PDict sub /\ ~ reserved k
                    /\ dict_has "_link" sub = false
                    /\ dict_has "_data" sub = false).
Proof.
  destruct v as [| | | | | | |sub];
    try (right; intros (sub & ? & _); done).
  destruct (decide (k = "_data")) as [->|H1];
    [right; intros (? & _ & Hr & _); apply Hr; by left|].
  destruct (decide (k = "_link")) as [->|H2];
    [right; intros (? & _ & Hr & _); apply Hr; right; by left|].
  destruct (decide (k = "_attributes")) as [->|H3];
    [right; intros (? & _ & Hr & _); apply Hr; right; by right|].
  destruct (dict_has "_link" sub) eqn:Hl;
    [right; intros (? & [= <-] & _ & ? & _); congruence|].
  destruct (dict_has "_data" sub) eqn:Hd;
    [right; intros (? & [= <-] & _ & _ & ?); congruence|].
  left. exists sub. unfold reserved. tauto.
Qed.

(** The walk on the items of a dictionary that [nexus_ok] takes, when
    the walk on the mappings that become groups returns. *)
Lemma nexus_items_run st0 h items :
  NoDup (fst <$> items) ->
  (forall k v, In (k, v) items -> item_ok st0 k v) ->
  (forall k sub,
     In (k, PDict sub) items -> ~ reserved k ->
     dict_has "_link" sub = false -> dict_has "_data" sub = false ->
     forall c st,
       grows st0 st -> st !! c = Some (Obj ∅ (Group ∅)) ->
       exists st', copy_nexus (PDict sub) c st = (Ok tt, st')
                   /\ links_kept c (fun n => In n (fst <$> sub)) st st') ->
  forall st a links,
    grows st0 st -> st !! h = Some (Obj a (Group links)) ->
    (forall n, In n (fst <$> items) -> ~ reserved n -> links !! n = None) ->
    exists st',
      for_each (fun kv => nexus_item copy_nexus h (fst kv) (snd kv)) items st
      = (Ok tt, st')
      /\ links_kept h (fun n => In n (fst <$> items)) st st'.
Proof.
  induction items as [|[k v] items IH];
    intros Hnd Hok Hsub st a links Hg Hs Hfree.
  { exists st. split; [done|apply links_kept_refl]. }
  cbn [fmap list_fmap fst] in Hnd. apply NoDup_cons in Hnd as [Hk Hnd].
  assert (Hh : h < length st) by (by eapply lookup_lt_Some).
  assert (Hitem : exists st1,
             nexus_item copy_nexus h k v st = (Ok tt, st1)
             /\ links_kept h (fun n => n = k) st st1).
  { destruct (classic_group k v) as [(sub & -> & Hres & Hl & Hd)|Hng].
    - rewrite nexus_item_branch by done. rewrite Hl, Hd.
      unfold create_group.
      pose proof (Hfree k (or_introl eq_refl) Hres) as Hkfree.
      set (st1 := <[h := Obj a (Group (<[k := length st]> links))]> st
                    ++ [Obj ∅ (Group ∅)]).
      assert (Hc : create_child h k None (Obj ∅ (Group ∅)) st
                   = (Ok (length st), st1)) by (by apply create_child_ok).
      rewrite (bind_run _ _ st (length st) st1 Hc).
      destruct (created_child h k (Obj ∅ (Group ∅)) _ _ _ Hs) as [_ Hnew].
      fold st1 in Hnew.
      destruct (Hsub k sub (or_introl eq_refl) Hres Hl Hd (length st) st1)
        as (st2 & Hrun & Hkept).
      { eapply grows_trans; [exact Hg|]. by eapply growing_create_child. }
      { exact Hnew. }
      exists st2. split; [done|].
      eapply links_kept_later;
        [apply links_kept_app; by apply links_kept_link|exact Hkept|done|done].
    - eapply nexus_item_runs; [by apply Hok; left|done| |done|].
      + intros sub -> Hres Hl Hd. apply Hng. by exists sub.
      + intros Hres. apply Hfree; [by left|done]. }
  destruct Hitem as (st1 & Hrun & Hkept).
  pose proof (growing_nexus_item copy_nexus h k v (growing_copy_nexus v)
                _ _ _ Hrun) as Hg1.
  destruct (proj2 Hkept _ _ Hs) as (a1 & l1 & Hs1 & Hl1).
  destruct (IH Hnd) with (st := st1) (a := a1) (links := l1)
    as (st' & Hrest & Hkept').
  - intros k0 v0 Hin. apply Hok. by right.
  - intros k0 sub Hin. apply Hsub. by right.
  - by eapply grows_trans.
  - done.
  - intros n Hn Hres. rewrite Hl1.
    + apply Hfree; [by right|done].
    + intros ->. apply Hk. by apply list_elem_of_In.
  - exists st'. rewrite for_each_cons. cbn [fst snd]. rewrite Hrun.
    split; [done|].
    eapply links_kept_trans.
    + eapply links_kept_weaken; [|exact Hkept]. intros n ->. by left.
    + eapply links_kept_weaken; [|exact Hkept']. intros n Hn. by right.
Qed.

Lemma nexus_runs st0 items :
  nexus_ok st0 items ->
  forall h st a links,
    grows st0 st -> st !! h = Some (Obj a (Group links)) ->
    (forall n, In n (fst <$> items) -> ~ reserved n -> links !! n = None) ->
    exists st',
      copy_nexus (PDict items) h st = (Ok tt, st')
      /\ links_kept h (fun n => In n (fst <$> items)) st st'.
Proof.
  induction 1 as [items Hnd Hok _ IH]. intros h st a links Hg Hs Hfree.
  rewrite copy_nexus_dict. eapply nexus_items_run; try done.
  intros k sub Hin Hres Hl Hd c st1 Hg1 Hc1.
  eapply IH; try done.
Qed.

End WithFormat.
End WellFormedFacts.

(** *** The plain copies, item by item *)

Module PathFacts.
Import H5 H5ops Obs Keep Shared Copy H5Facts CopyFacts NexusFacts KeepFacts.
Local Open Scope h5_scope.

Section WithFormat.
Context {F : Format}.
Variable leaf : ref -> string -> pyval -> M unit.
Hypothesis leaf_growing : forall h k v, growing (leaf h k v).

(** The run of a plain copy, cut at the first place of a key. *)
Lemma copy_with_at_key items key v h st st' :
  dict_get key items = Some v ->
  copy_with leaf (PDict items) h st = (Ok tt, st') ->
  exists st0 st1,
    grows st st0
    /\ item_with leaf (copy_with leaf) h key v st0 = (Ok tt, st1)
    /\ grows st1 st'.
Proof.
  intros (pre & post & -> & _)%dict_get_split Hrun.
  rewrite copy_with_dict, for_each_app in Hrun.
  destruct (for_each _ pre st) as [[[]|e] st0] eqn:Hpre; [|done].
  rewrite for_each_cons in Hrun. cbn [fst snd] in Hrun.
  destruct (item_with leaf (copy_with leaf) h key v st0)
    as [[[]|e] st1] eqn:Hitem; [|done].
  exists st0, st1. split; [|split; [done|]].
  - by eapply (growing_copy_with leaf leaf_growing (PDict pre)).
  - by eapply (growing_copy_with leaf leaf_growing (PDict post)).
Qed.

(** The item of a mapping, when it returns: a new group under the key,
    and the copy has gone on in it. *)
Lemma item_with_mapping h k sub st st' :
  item_with leaf (copy_with leaf) h k (PDict sub) st = (Ok tt, st') ->
  exists st1,
    grows st st1 /\ child st1 h k = Some (length st)
    /\ st1 !! length st = Some (Obj ∅ (Group ∅))
    /\ copy_with leaf (PDict sub) (length st) st1 = (Ok tt, st').
Proof.
  cbn [item_with]. intros Hrun.
  apply NexusMore.bind_ok_inv in Hrun as (c & s1 & Hc & Hrun).
  pose proof (growing_create_child _ _ _ _ _ _ _ Hc) as G1.
  apply create_child_inv in Hc
    as [(_ & e & ? & _)|(Hg & _ & a & links & Hs & _ & ->)]; [done|].
  injection Hg as ->.
  destruct (NexusMore.created_child h k (Obj ∅ (Group ∅)) _ _ _ Hs)
    as [Hchild Hnew].
  eexists. split; [exact G1|]. split; [exact Hchild|]. split; [exact Hnew|].
  exact Hrun.
Qed.

(** The run of a plain copy, cut at the item of a key at any depth. *)
Lemma copy_with_at_path path : forall items key v h st st',
  leaf_at items path key = Some v ->
  copy_with leaf (PDict items) h st = (Ok tt, st') ->
  exists g st0 st1,
    walk st' h path = Some g
    /\ grows st st0
    /\ item_with leaf (copy_with leaf) g key v st0 = (Ok tt, st1)
    /\ grows st1 st'.
Proof.
  induction path as [|p path IH]; intros items key v h st st' Hleaf Hrun.
  - destruct (copy_with_at_key _ _ _ _ _ _ Hleaf Hrun)
      as (st0 & st1 & Hg0 & Hitem & Hg1).
    by exists h, st0, st1.
  - cbn [leaf_at] in Hleaf.
    destruct (dict_get p items) as [[| | | | | | |sub]|] eqn:Hp; try done.
    destruct (copy_with_at_key _ _ _ _ _ _ Hp Hrun)
      as (sa & sb & Ga & Hitem & Gb).
    destruct (item_with_mapping _ _ _ _ _ Hitem)
      as (s1 & G1 & Hc & _ & Hsub).
    destruct (IH _ _ _ _ _ _ Hleaf Hsub)
      as (g & st0 & st1 & Hw & G0 & Hit & G2).
    pose proof (growing_copy_with leaf leaf_growing _ _ _ _ _ Hsub) as Gsub.
    exists g, st0, st1. split; [|split; [|split; [done|]]].
    + cbn [walk].
      rewrite (grows_child _ _ _ _ _ (grows_trans _ _ _ Gsub Gb) Hc).
      by eapply grows_walk.
    + eauto using grows_trans.
    + eauto using grows_trans.
Qed.

(** A mapping at any depth is a group that the copy has made. *)
Lemma copy_with_group path items key sub h st st' :
  leaf_at items path key = Some (PDict sub) ->
  copy_with leaf (PDict items) h st = (Ok tt, st') ->
  exists g c a links,
    walk st' h path = Some g /\ child st' g key = Some c
    /\ st' !! c = Some (Obj a (Group links)) /\ length st <= c.
Proof.
  intros Hleaf Hrun.
  destruct (copy_with_at_path _ _ _ _ _ _ _ Hleaf Hrun)
    as (g & st0 & st1 & Hw & G0 & Hitem & G1).
  destruct (item_with_mapping _ _ _ _ _ Hitem)
    as (s1 & Gc & Hc & Hnew & Hsub).
  pose proof (growing_copy_with leaf leaf_growing _ _ _ _ _ Hsub) as Gsub.
  pose proof (grows_trans _ _ _ Gsub G1) as G.
  destruct (G _ _ Hnew) as ([a' b'] & Hs' & l' & Hcont & _).
  simpl in Hcont. subst b'.
  exists g, (length st0), a', l'. split; [done|].
  split; [by eapply grows_child|]. split; [done|]. by apply grows_length.
Qed.

End WithFormat.
End PathFacts.

(** * The properties of the specification *)

Import H5 H5ops Obs Nexus Copy.
Import ReFacts H5Facts CopyFacts NexusFacts JsonFacts.

Example parse_start_two_keys :
  _parse_bluesky_document_path "#bluesky/start/blah/bleh@blih"
  = Ok (PathInfo "start" None (Some "/blah/bleh") (Some "blih") ["blah"; "bleh"]).
Proof. vm_compute. reflexivity. Qed.

Example parse_desc_primary :
  _parse_bluesky_document_path "#bluesky/desc/primary/blah/bleh"
  = Ok (PathInfo "desc" (Some "primary") (Some "/blah/bleh") None ["blah"; "bleh"]).
Proof. vm_compute. reflexivity. Qed.

(** C1 (the code departs from the claim).  The claim: a reference of kind
    [desc] is looked up under [/bluesky/desc/<stream>].  The code: the parser
    sets the stream apart and the lookup never reads it, so
    [#bluesky/desc/primary/k1] is looked up as [/bluesky/desc/k1].  In the
    file [Sample.streams_file] the lookup returns object 5, the dataset
    [/bluesky/desc/k1], while [/bluesky/desc/primary/k1] is object 4. *)
Theorem C1_desc_lookup_skips_the_stream :
  _parse_bluesky_document_path "#bluesky/desc/primary/k1"
  = Ok (PathInfo "desc" (Some "primary") (Some "/k1") None ["k1"])
  /\ _get_h5_group_or_dataset
       (PathInfo "desc" (Some "primary") (Some "/k1") None ["k1"]) 0
       Sample.streams_file
     = (Ok 5, Sample.streams_file)
  /\ walk Sample.streams_file 0 ["bluesky"; "desc"; "primary"; "k1"] = Some 4.
Proof. split; [|split]; vm_compute; reflexivity. Qed.

(** C2, the claim as the specification states it, fails: the string
    [#bluesky/start!garbage] is no reference of the grammar, and the parser
    returns a descriptor for it. *)
Lemma C2_trailing_characters_are_accepted :
  _parse_bluesky_document_path "#bluesky/start!garbage"
  = Ok (PathInfo "start" None (Some EmptyString) None [])
  /\ ~ Grammar.matches_grammar (chars_of "#bluesky/start!garbage").
Proof.
  split; [vm_compute; reflexivity|].
  intros Hm.
  assert (Hparse : _parse_bluesky_document_path
                     (str_of (chars_of "#bluesky/start!garbage"))
                   = Ok (PathInfo "start" None (Some EmptyString) None []))
    by (vm_compute; reflexivity).
  destruct (matches_grammar_parse _ _ Hm Hparse) as (k & segs & attr & Hp & Hd).
  unfold Grammar.descriptor in Hd. injection Hd as Hk Hs _ Ha Hsegs.
  destruct segs; [|done]. destruct attr; [done|].
  destruct k; done.
Qed.

(** C2, amended.  For every string the parser returns a descriptor exactly
    when the string starts with a reference of the grammar
    [#bluesky/<kind>[/<stream>](/<segment>)*[@<attr>]], and raises the
    exception "failed to parse" on every other string; what follows the
    recognized part is not looked at. *)
Theorem C2_parser_takes_a_grammar_prefix (s : string) :
  match _parse_bluesky_document_path s with
  | Ok _ => Grammar.has_grammar_prefix (chars_of s)
  | Raise e =>
      e = FailedToParse s /\ ~ Grammar.has_grammar_prefix (chars_of s)
  end.
Proof. apply parse_outcome. Qed.

Lemma is_segment_chars w : is_segment w -> Grammar.segment (chars_of w).
Proof. intros [Hne Hw]. split; [|done]. by destruct w. Qed.

(** C4.  The parser returns, for [#bluesky/start] and [#bluesky/stop], the
    kind, no stream and no key; for [#bluesky/desc/<stream>/<k1>/<k2>] with
    segments of word characters, the kind [desc], the stream and the two keys
    in order; and it fails on [#bluesky/desc] when no stream segment
    follows. *)
Theorem C4_parser_recovers_the_segments :
  _parse_bluesky_document_path "#bluesky/start"
  = Ok (PathInfo "start" None (Some EmptyString) None [])
  /\ _parse_bluesky_document_path "#bluesky/stop"
     = Ok (PathInfo "stop" None (Some EmptyString) None [])
  /\ (forall st k1 k2 : string,
        is_segment st -> is_segment k1 -> is_segment k2 ->
        _parse_bluesky_document_path
          ("#bluesky/desc/" ++ st ++ "/" ++ k1 ++ "/" ++ k2)%string
        = Ok (PathInfo "desc" (Some st)
                (Some ("/" ++ k1 ++ "/" ++ k2)%string) None [k1; k2]))
  /\ (forall r : string,
        (forall b r', r = String "/" (String b r') -> Re.is_word b = false) ->
        _parse_bluesky_document_path ("#bluesky/desc" ++ r)%string
        = Raise (FailedToParse ("#bluesky/desc" ++ r)%string)).
Proof.
  split; [vm_compute; reflexivity|]. split; [vm_compute; reflexivity|]. split.
  - intros st k1 k2 Hst Hk1 Hk2.
    pose proof (parse_reference (Grammar.KDesc (chars_of st))
                  [chars_of k1; chars_of k2] None) as Hp.
    assert (Heq : str_of (Grammar.reference (Grammar.KDesc (chars_of st))
                            [chars_of k1; chars_of k2] None)
                  = ("#bluesky/desc/" ++ st ++ "/" ++ k1 ++ "/" ++ k2)%string).
    { rewrite <- (str_of_chars_of ("#bluesky/desc/" ++ _)%string). f_equal.
      rewrite !chars_of_app. unfold Grammar.reference, Grammar.keys_text.
      cbn [Grammar.kind_text Grammar.attr_text map concat].
      rewrite !app_nil_r, <- !app_assoc. reflexivity. }
    rewrite Heq in Hp. rewrite Hp.
    2:{ split; [by apply is_segment_chars|]. split; [|done].
        repeat constructor; by apply is_segment_chars. }
    unfold Grammar.descriptor. f_equal.
    cbn [Grammar.kind_stream Grammar.keys_text map concat fmap option_fmap
         option_map list_fmap].
    rewrite !str_of_chars_of. do 2 f_equal.
    rewrite <- (str_of_chars_of ("/" ++ _)%string). f_equal.
    rewrite !chars_of_app, ?app_nil_r, <- ?app_assoc. reflexivity.
  - intros r Hr. rewrite parse_query.
    assert (Hq : First.query_first (chars_of ("#bluesky/desc" ++ r)%string) = None);
      [|by rewrite Hq].
    rewrite chars_of_app. unfold First.query_first.
    change (startswith _ (chars_of "#bluesky/desc" ++ _)) with true. cbn iota.
    change (drop 9 (chars_of "#bluesky/desc" ++ ?x)) with (chars_of "desc" ++ x).
    unfold First.doc_first.
    change (startswith (chars_of "start") _) with false.
    change (startswith (chars_of "stop") _) with false. cbn iota.
    destruct r as [|a r]; [reflexivity|].
    destruct (Ascii.eqb_spec "/"%char a) as [<-|Hne].
    + destruct r as [|b r]; [reflexivity|].
      change (startswith _ _) with true. cbn iota.
      change (drop 5 _) with (b :: chars_of r). cbn iota.
      by rewrite (Hr b r).
    + assert (Hsw : startswith (chars_of "desc/") (chars_of "desc" ++ chars_of (String a r)) = false).
      { apply not_true_is_false. intros [x Hx]%startswith_spec.
        injection Hx as Hx _. congruence. }
      by rewrite Hsw.
Qed.

(** C4 on [#bluesky/desc/primary/data_keys/en_energy] and on
    [#bluesky/desc/@x]. *)
Lemma C4_witness :
  _parse_bluesky_document_path "#bluesky/desc/primary/data_keys/en_energy"
  = Ok (PathInfo "desc" (Some "primary") (Some "/data_keys/en_energy") None
          ["data_keys"; "en_energy"])
  /\ _parse_bluesky_document_path "#bluesky/desc/@x"
     = Raise (FailedToParse "#bluesky/desc/@x").
Proof.
  split.
  - apply (proj1 (proj2 (proj2 C4_parser_recovers_the_segments))
             "primary" "data_keys" "en_energy");
      (split; [discriminate|reflexivity]).
  - apply (proj2 (proj2 (proj2 C4_parser_recovers_the_segments)) "/@x").
    intros b r' [= <- _]. reflexivity.
Defined.

(** C10, the claim as the specification states it, fails: the string under
    the key [_data] is stored as the data of a dataset although it begins
    with [#bluesky], and the string under a key [_link] of the mapping that is
    walked is skipped, with no link and no error. *)
Lemma C10_inline_data_is_stored_as_it_is :
  let run := _copy_nexus_md_to_nexus_h5 (F := Sample.format)
               [("x", PDict [("_data", PStr "#bluesky/start")])] 0
               Sample.empty_file in
  fst run = Ok tt
  /\ child (snd run) 0 "x" = Some 1
  /\ data_of (snd run) 1 = Some (Raw (PStr "#bluesky/start"))
  /\ _copy_nexus_md_to_nexus_h5 (F := Sample.format)
       [("_link", PStr "#bluesky/start")] 0 Sample.empty_file
     = (Ok tt, Sample.empty_file).
Proof. repeat split; vm_compute; reflexivity. Qed.

(** C10, amended.  For every key other than [_data] and [_link] whose value
    is a string that begins with [#bluesky], the walk either raises and
    leaves the file as it was, or adds to the group one link, named by the
    key, to the object that the lookup of the parsed string returns; no
    dataset is created. *)
Theorem C10_reference_string_is_a_link_or_an_error
    {F : Format} (h : ref) (key s : string) (st : file) :
  startswith (chars_of "#bluesky") (chars_of s) = true ->
  key <> "_data" -> key <> "_link" ->
  (exists e, _copy_nexus_md_to_nexus_h5 [(key, PStr s)] h st = (Raise e, st))
  \/ (exists p target a links,
        _parse_bluesky_document_path s = Ok p
        /\ _get_h5_group_or_dataset p 0 st = (Ok target, st)
        /\ st !! h = Some (Obj a (Group links)) /\ links !! key = None
        /\ _copy_nexus_md_to_nexus_h5 [(key, PStr s)] h st
           = (Ok tt, <[h := Obj a (Group (<[key := target]> links))]> st)).
Proof.
  intros Hs Hd Hl. unfold _copy_nexus_md_to_nexus_h5.
  rewrite copy_nexus_dict, for_each_cons. cbn [fst snd for_each ret].
  destruct (decide (key = "_attributes")) as [->|Ha].
  { left. rewrite nexus_item_attributes. by eexists. }
  rewrite nexus_item_branch by (unfold reserved; tauto). rewrite Hs.
  unfold bind at 1, lift.
  destruct (_parse_bluesky_document_path s) as [p|e] eqn:Hp; [|left; eauto].
  unfold bind.
  destruct (resolve_cases p (file_of h) st) as [(g & Hr & _)|(e & Hr)];
    rewrite Hr; [|left; eauto].
  destruct (set_item h key g st) as [r st'] eqn:Hset.
  apply set_item_inv in Hset
    as [(-> & e & ->)|(-> & a & links & Hh & Hk & ->)]; [left; eauto|].
  right. exists p, g, a, links. done.
Qed.

(** C10, amended, on the key [title] with the value
    [#bluesky/start/sample_name]. *)
Lemma C10_witness :
  (exists e, _copy_nexus_md_to_nexus_h5 (F := Sample.format)
               [("title", PStr "#bluesky/start/sample_name")] 0
               Sample.bluesky_file
             = (Raise e, Sample.bluesky_file))
  \/ (exists p target a links,
        _parse_bluesky_document_path "#bluesky/start/sample_name" = Ok p
        /\ _get_h5_group_or_dataset p 0 Sample.bluesky_file
           = (Ok target, Sample.bluesky_file)
        /\ Sample.bluesky_file !! 0 = Some (Obj a (Group links))
        /\ links !! "title" = None
        /\ _copy_nexus_md_to_nexus_h5 (F := Sample.format)
             [("title", PStr "#bluesky/start/sample_name")] 0
             Sample.bluesky_file
           = (Ok tt, <[0 := Obj a (Group (<["title" := target]> links))]>
                       Sample.bluesky_file)).
Proof.
  apply (C10_reference_string_is_a_link_or_an_error (F := Sample.format)
           0 "title" "#bluesky/start/sample_name" Sample.bluesky_file);
    [reflexivity|discriminate|discriminate].
Defined.

(** C7.  When the format refuses a value as an attribute with [TypeError],
    [_copy_metadata_to_h5_attrs] stores the JSON text of the value as the
    attribute, and [_copy_nexus_md_to_nexus_h5] raises [TypeError] on the same
    value under [_attributes] and leaves the file as it was. *)
Theorem C7_attribute_fallback_in_one_component_only
    {F : Format} (h : ref) (o : obj) (key : string) (v : pyval)
    (text : string) (st : file) :
  st !! h = Some o -> is_mapping v = false -> v <> PNone ->
  attr_check v = Some TypeError -> Json.dumps v = Ok text ->
  _copy_metadata_to_h5_attrs [(key, v)] h st
  = (Ok tt, <[h := Obj (<[key := PStr text]> (attrs o)) (content o)]> st)
  /\ _copy_nexus_md_to_nexus_h5 [("_attributes", PDict [(key, v)])] h st
     = (Raise TypeError, st).
Proof.
  intros Hs Hv Hn Hc Hd. destruct o as [a b]. split.
  - unfold _copy_metadata_to_h5_attrs. cbn [copy_attrs for_each fst snd].
    assert (Hitem : attrs_item copy_attrs h key v = attr_leaf h key v)
      by (by destruct v).
    assert (Hval : attr_value v = v) by (by destruct v).
    unfold bind at 1. rewrite Hitem. unfold attr_leaf, except_TypeError.
    rewrite Hval. unfold set_attr at 1. rewrite Hs, Hc.
    unfold bind, lift. rewrite Hd.
    erewrite set_attr_ok; [done|done|].
    apply attr_check_text. by eapply dumps_no_nul.
  - unfold _copy_nexus_md_to_nexus_h5.
    rewrite copy_nexus_dict, for_each_cons. cbn [fst snd].
    rewrite nexus_item_attributes. cbn [set_attrs]. unfold bind, set_attr.
    by rewrite Hs, Hc.
Qed.

(** C7 on the value [[[1], 2]]. *)
Lemma C7_witness :
  _copy_metadata_to_h5_attrs (F := Sample.format)
    [("shape", PList [PList [PInt 1]; PInt 2])] 0 Sample.empty_file
  = (Ok tt,
     <[0 := Obj (<["shape" := PStr "[[1], 2]"]> ∅) (Group ∅)]>
       Sample.empty_file)
  /\ _copy_nexus_md_to_nexus_h5 (F := Sample.format)
       [("_attributes", PDict [("shape", PList [PList [PInt 1]; PInt 2])])]
       0 Sample.empty_file
     = (Raise TypeError, Sample.empty_file).
Proof.
  apply (C7_attribute_fallback_in_one_component_only (F := Sample.format)
           0 (Obj ∅ (Group ∅)) "shape" (PList [PList [PInt 1]; PInt 2])
           "[[1], 2]" Sample.empty_file);
    [reflexivity|reflexivity|discriminate|reflexivity|reflexivity].
Defined.

(** C3.  On the tree [entry_tree] and a file in which
    [/bluesky/start/sample_name] is a dataset, the walk returns and the file
    then has the group [/entry] with the one attribute [NX_Class = "NXEntry"]
    and the one link [title], which names the very object of
    [/bluesky/start/sample_name]; the data of that dataset is as before. *)
Theorem C3_entry_group_and_title_link
    {F : Format} (st : file) (a0 : gmap string pyval)
    (links0 : gmap string ref) (b s d : ref) (x : h5data) :
  st !! 0 = Some (Obj a0 (Group links0)) ->
  links0 !! "bluesky" = Some b -> links0 !! "entry" = None ->
  child st b "start" = Some s -> child st s "sample_name" = Some d ->
  data_of st d = Some x ->
  exists st' e,
    _copy_nexus_md_to_nexus_h5 entry_tree 0 st = (Ok tt, st')
    /\ child st' 0 "entry" = Some e
    /\ st' !! e = Some (Obj {[ "NX_Class" := PStr "NXEntry" ]}
                          (Group {[ "title" := d ]}))
    /\ walk st' 0 ["entry"; "title"] = Some d
    /\ walk st' 0 ["bluesky"; "start"; "sample_name"] = Some d
    /\ data_of st' d = Some x.
Proof.
  intros H0 Hb He Hs Hd Hx.
  set (e := length st).
  set (st1 := <[0 := Obj a0 (Group (<["entry" := e]> links0))]> st
                ++ [Obj ∅ (Group ∅)]).
  set (st2 := <[e := Obj (<["NX_Class" := PStr "NXEntry"]> ∅) (Group ∅)]> st1).
  set (st3 := <[e := Obj (<["NX_Class" := PStr "NXEntry"]> ∅)
                       (Group (<["title" := d]> ∅))]> st2).
  assert (Hlen : 0 < length st) by (by eapply lookup_lt_Some).
  assert (Hlen1 : length st1 = S e).
  { unfold st1. rewrite length_app, length_insert. simpl. lia. }
  assert (He1 : st1 !! e = Some (Obj ∅ (Group ∅))).
  { unfold st1. rewrite lookup_app_r by (by rewrite length_insert).
    by rewrite length_insert, Nat.sub_diag. }
  assert (Hc1 : create_group 0 "entry" st = (Ok e, st1))
    by (by apply create_child_ok).
  assert (Hf1 : frame 0 (fun n => n = "entry") st st1)
    by (by eapply create_child_frame).
  assert (Hc2 : set_attr e "NX_Class" (PStr "NXEntry") st1 = (Ok tt, st2)).
  { apply set_attr_ok; [done|]. by apply attr_check_text. }
  assert (Hf2 : frame e (fun n => n = "NX_Class") st1 st2)
    by (by eapply set_attr_frame).
  assert (He2 : st2 !! e
                = Some (Obj (<["NX_Class" := PStr "NXEntry"]> ∅) (Group ∅))).
  { unfold st2. apply list_lookup_insert_eq. lia. }
  assert (Hc3 : set_item e "title" d st2 = (Ok tt, st3))
    by (by apply set_item_ok).
  assert (Hf3 : frame e (fun n => n = "title") st2 st3)
    by (by eapply set_item_frame).
  assert (Hw0 : walk st 0 ["bluesky"; "start"; "sample_name"] = Some d).
  { cbn [walk]. unfold child at 1. rewrite H0, Hb. by rewrite Hs, Hd. }
  assert (Hw2 : walk st2 0 ["bluesky"; "start"; "sample_name"] = Some d).
  { eapply walk_frame; [exact Hf2|by repeat constructor|].
    eapply walk_frame; [exact Hf1|by repeat constructor|done]. }
  assert (Hw3 : walk st3 0 ["bluesky"; "start"; "sample_name"] = Some d).
  { eapply walk_frame; [exact Hf3|by repeat constructor|done]. }
  assert (Hdlt : d < length st).
  { unfold data_of in Hx. destruct (st !! d) eqn:E; [|done].
    by eapply lookup_lt_Some. }
  assert (Hce : child st3 0 "entry" = Some e).
  { assert (Hce1 : child st1 0 "entry" = Some e).
    { unfold child, st1. rewrite lookup_app_l by (by rewrite length_insert).
      rewrite list_lookup_insert_eq by done. apply lookup_insert_eq. }
    eapply child_frame_any; [exact Hf3|done|].
    eapply child_frame_any; [exact Hf2|done|done]. }
  assert (He3 : st3 !! e = Some (Obj {[ "NX_Class" := PStr "NXEntry" ]}
                                   (Group {[ "title" := d ]}))).
  { unfold st3. rewrite list_lookup_insert_eq; [done|].
    unfold st2. rewrite length_insert. lia. }
  exists st3, e. split; [|split; [done|split; [done|split; [|split; [done|]]]]].
  - unfold _copy_nexus_md_to_nexus_h5, entry_tree.
    rewrite copy_nexus_dict, for_each_cons. cbn [fst snd for_each ret].
    rewrite nexus_item_branch by (unfold reserved; intros [|[|]]; done).
    cbn [dict_has dict_get String.eqb Ascii.eqb Bool.eqb].
    unfold bind at 1. rewrite Hc1.
    rewrite copy_nexus_dict, !for_each_cons. cbn [fst snd for_each ret].
    rewrite nexus_item_attributes. cbn [set_attrs]. unfold bind at 1.
    rewrite Hc2.
    rewrite nexus_item_branch by (unfold reserved; intros [|[|]]; done).
    change (startswith _ _) with true. cbn iota.
    assert (Hp : _parse_bluesky_document_path "#bluesky/start/sample_name"
                 = Ok (PathInfo "start" None (Some "/sample_name") None
                         ["sample_name"])) by (vm_compute; reflexivity).
    rewrite Hp. unfold bind, lift, file_of, ret. cbn beta iota.
    rewrite (proj2 (resolve_ok (PathInfo "start" None (Some "/sample_name")
                                  None ["sample_name"]) 0 st2 d) Hw2).
    by rewrite Hc3.
  - cbn [walk]. rewrite Hce. unfold child. rewrite He3.
    by rewrite lookup_singleton_eq.
  - rewrite (data_frame _ _ _ _ _ Hf3) by (unfold st2; rewrite length_insert; lia).
    rewrite (data_frame _ _ _ _ _ Hf2) by lia.
    by rewrite (data_frame _ _ _ _ _ Hf1).
Qed.

(** C3 on the file [Sample.bluesky_file], whose dataset holds
    ["Sample A"]. *)
Lemma C3_witness :
  exists st' e,
    _copy_nexus_md_to_nexus_h5 (F := Sample.format) entry_tree 0
      Sample.bluesky_file = (Ok tt, st')
    /\ child st' 0 "entry" = Some e
    /\ st' !! e = Some (Obj {[ "NX_Class" := PStr "NXEntry" ]}
                          (Group {[ "title" := 3 ]}))
    /\ walk st' 0 ["entry"; "title"] = Some 3
    /\ walk st' 0 ["bluesky"; "start"; "sample_name"] = Some 3
    /\ data_of st' 3 = Some (StrArray (PStr "Sample A")).
Proof.
  apply (C3_entry_group_and_title_link (F := Sample.format)
           Sample.bluesky_file ∅ {[ "bluesky" := 1 ]} 1 2 3
           (StrArray (PStr "Sample A"))); reflexivity.
Defined.



(** C5.  For a mapping value with the keys [_attributes] and [_data] and
    without [_link], under a key that is not reserved: when the walk returns,
    the object under the key is a dataset that holds the value of [_data] and
    has exactly the attributes listed under [_attributes]; and the walk does
    return when the mapping has these two keys only, the name is free in the
    group and the format takes the data and the attribute values. *)
Theorem C5_inline_data_gives_a_dataset_with_the_attributes
    {F : Format} (h : ref) (key : string) (sub attrs : list (string * pyval))
    (data : pyval) (st : file) :
  dict_get "_attributes" sub = Some (PDict attrs) ->
  dict_get "_data" sub = Some data ->
  dict_has "_link" sub = false ->
  NoDup (fst <$> sub) -> NoDup (fst <$> attrs) -> ~ reserved key ->
  (forall st',
      _copy_nexus_md_to_nexus_h5 [(key, PDict sub)] h st = (Ok tt, st') ->
      exists d,
        child st' h key = Some d
        /\ data_of st' d = Some (Raw data)
        /\ forall n, attr st' d n = dict_get n attrs)
  /\ (forall a links,
        st !! h = Some (Obj a (Group links)) -> links !! key = None ->
        data_check (Raw data) = None ->
        Forall (fun kv => attr_check (snd kv) = None) attrs ->
        (forall k, In k (fst <$> sub) -> k = "_attributes" \/ k = "_data") ->
        exists st',
          _copy_nexus_md_to_nexus_h5 [(key, PDict sub)] h st = (Ok tt, st')).
Proof.
  intros Hattrs Hdata Hlink Hnd Hnda Hkey.
  assert (Hrun : _copy_nexus_md_to_nexus_h5 [(key, PDict sub)] h st
                 = match create_dataset h key (Raw data) st with
                   | (Ok _, st1) =>
                       match get_item h key st1 with
                       | (Ok d, st2) =>
                           match copy_nexus (PDict sub) d st2 with
                           | (Ok _, st3) => (Ok tt, st3)
                           | (Raise e, st3) => (Raise e, st3)
                           end
                       | (Raise e, st2) => (Raise e, st2)
                       end
                   | (Raise e, st1) => (Raise e, st1)
                   end).
  { unfold _copy_nexus_md_to_nexus_h5.
    rewrite copy_nexus_dict, for_each_cons. cbn [fst snd for_each].
    rewrite nexus_item_branch by done. rewrite Hlink.
    unfold dict_has, dict_item. rewrite Hdata. unfold bind, ret.
    destruct (create_dataset h key (Raw data) st) as [[g|e] st1]; [|done].
    destruct (get_item h key st1) as [[d|e] st2]; [|done].
    by destruct (copy_nexus (PDict sub) d st2) as [[[]|e] st3]. }
  rewrite Hrun. split.
  - intros st' Hok.
    destruct (create_dataset h key (Raw data) st) as [[g|e] st1] eqn:Hc; [|done].
    apply create_dataset_inv in Hc
      as [(_ & e & ? & _)|(Hg & _ & a & links & Hs & Hk & ->)]; [done|].
    injection Hg as ->.
    set (st1 := <[h := Obj a (Group (<[key := length st]> links))]> st
                  ++ [Obj ∅ (Dataset (Raw data))]) in *.
    assert (Hh : h < length st) by (by eapply lookup_lt_Some).
    assert (Hchild : child st1 h key = Some (length st)).
    { unfold child, st1. rewrite lookup_app_l by (by rewrite length_insert).
      rewrite list_lookup_insert_eq by done. apply lookup_insert_eq. }
    rewrite (get_item_ok _ _ _ _ Hchild) in Hok.
    assert (Hd1 : st1 !! length st = Some (Obj ∅ (Dataset (Raw data)))).
    { unfold st1. rewrite lookup_app_r by (by rewrite length_insert).
      by rewrite length_insert, Nat.sub_diag. }
    destruct (copy_nexus (PDict sub) (length st) st1) as [[[]|e] st3] eqn:Hsub;
      [|done].
    injection Hok as <-.
    destruct (copy_nexus_on_dataset _ _ _ _ _ _ Hnd Hd1 Hsub) as [-> _].
    rewrite Hattrs.
    assert (Hl1 : length st < length st1).
    { unfold st1. rewrite length_app, length_insert. simpl. lia. }
    exists (length st). split; [|split].
    + unfold child. rewrite list_lookup_insert_ne by lia. exact Hchild.
    + unfold data_of. by rewrite list_lookup_insert_eq.
    + intros n. unfold attr. rewrite list_lookup_insert_eq by done. simpl.
      rewrite set_all_lookup by done. by destruct (dict_get n attrs).
  - intros a links Hs Hk Hdc Hac Hkeys.
    rewrite (create_dataset_ok _ _ _ _ _ _ Hs Hk Hdc).
    assert (Hh : h < length st) by (by eapply lookup_lt_Some).
    erewrite get_item_ok.
    2:{ unfold child. rewrite lookup_app_l by (by rewrite length_insert).
        rewrite list_lookup_insert_eq by done. apply lookup_insert_eq. }
    edestruct (copy_nexus_on_dataset_ok sub (length st)) as [st' ->];
      [| |by eexists].
    + rewrite lookup_app_r by (by rewrite length_insert).
      by rewrite length_insert, Nat.sub_diag.
    + apply Forall_forall. intros [k v] Hin. cbn [fst snd].
      assert (Hk' : In k (fst <$> sub)).
      { apply list_elem_of_In, list_elem_of_fmap. by exists (k, v). }
      apply list_elem_of_In in Hin.
      destruct (Hkeys k Hk') as [->| ->]; [|by left].
      right. right. split; [done|]. exists attrs. split; [|done].
      pose proof (dict_get_unique _ _ _ Hnd Hin). congruence.
Qed.

(** C5 on the second end-to-end example of the specification. *)
Lemma C5_witness :
  let sub := [("_attributes", PDict [("NDAttrName", PStr "ProgramName")]);
              ("_data", PStr "EPICS areaDetector")] in
  (forall st',
      _copy_nexus_md_to_nexus_h5 (F := Sample.format)
        [("program_name", PDict sub)] 0 Sample.empty_file = (Ok tt, st') ->
      exists d,
        child st' 0 "program_name" = Some d
        /\ data_of st' d = Some (Raw (PStr "EPICS areaDetector"))
        /\ forall n, attr st' d n
                     = dict_get n [("NDAttrName", PStr "ProgramName")])
  /\ (exists st',
        _copy_nexus_md_to_nexus_h5 (F := Sample.format)
          [("program_name", PDict sub)] 0 Sample.empty_file = (Ok tt, st')).
Proof.
  intros sub.
  destruct (C5_inline_data_gives_a_dataset_with_the_attributes
              (F := Sample.format) 0 "program_name" sub
              [("NDAttrName", PStr "ProgramName")]
              (PStr "EPICS areaDetector") Sample.empty_file)
    as [Hpost Hruns].
  - reflexivity.
  - reflexivity.
  - reflexivity.
  - apply (bool_decide_unpack _). vm_compute. reflexivity.
  - apply (bool_decide_unpack _). vm_compute. reflexivity.
  - unfold reserved. intros [|[|]]; discriminate.
  - split; [exact Hpost|].
    apply (Hruns ∅ ∅); [reflexivity|reflexivity|reflexivity| |].
    + repeat constructor.
    + simpl. intros k [<-|[<-|[]]]; tauto.
Defined.

(** C8.  For a key at any depth of a dictionary whose value is [None]: when
    [_copy_metadata_to_h5_attrs] returns, the attribute of that name on the
    group of that path is the text ["None"]; when
    [_copy_metadata_to_h5_datasets] returns, the dataset of that name holds
    the text ["None"]; and the leaf itself does not raise: on a group (for the
    dataset, one in which the name is free) it returns and stores that
    text. *)
Theorem C8_null_is_stored_as_the_text_None
    {F : Format} (m : list (string * pyval)) (path : list string)
    (key : string) (h : ref) (st st' : file) :
  flat_mapping m -> leaf_at m path key = Some PNone ->
  (_copy_metadata_to_h5_attrs m h st = (Ok tt, st') ->
   exists h', walk st' h path = Some h'
              /\ attr st' h' key = Some (PStr "None"))
  /\ (_copy_metadata_to_h5_datasets m h st = (Ok tt, st') ->
      exists h' d, walk st' h path = Some h' /\ child st' h' key = Some d
                   /\ data_of st' d = Some (StrArray (PStr "None")))
  /\ (forall g s0 o, s0 !! g = Some o ->
        attr_leaf g key PNone s0
        = (Ok tt, <[g := Obj (<[key := PStr "None"]> (attrs o)) (content o)]> s0))
  /\ (forall g s0 a links,
        s0 !! g = Some (Obj a (Group links)) -> links !! key = None ->
        dataset_leaf g key PNone s0
        = (Ok (length s0),
           <[g := Obj a (Group (<[key := length s0]> links))]> s0
             ++ [Obj ∅ (Dataset (StrArray (PStr "None")))])).
Proof.
  intros Hflat Hleaf.
  assert (Ha : attr_check (PStr "None") = None) by (by apply attr_check_text).
  assert (Hd : data_check (StrArray (PStr "None")) = None)
    by (by apply data_check_text).
  split; [|split; [|split]].
  - intros Hrun.
    destruct (copy_attrs_leaf _ _ _ _ _ _ _ Hflat Hleaf eq_refl Hrun)
      as (h' & w & Hw & Hattr & [[-> _]|[Hc _]]); [eauto|].
    cbn [attr_value] in Hc. congruence.
  - intros Hrun.
    destruct (copy_datasets_leaf _ _ _ _ _ _ _ Hflat Hleaf eq_refl Hrun)
      as (h' & g & d & Hw & Hc & Hg & [[-> _]|[Hc' _]]).
    + exists h', g. split; [done|]. split; [done|]. unfold data_of. by rewrite Hg.
    + cbn in Hc'. congruence.
  - intros g s0 [a b] Hs. unfold attr_leaf, except_TypeError. cbn [attr_value].
    by rewrite (set_attr_ok _ _ _ _ _ _ Hs Ha).
  - intros g s0 a links Hs Hk. unfold dataset_leaf, except_TypeError.
    cbn [dataset_value str_or_str_sequence].
    by rewrite (create_dataset_ok _ _ _ _ _ _ Hs Hk Hd).
Qed.

(** C8 on the dictionary [{"plan": {"detector": None}}]. *)
Lemma C8_witness :
  let m := [("plan", PDict [("detector", PNone)])] in
  (exists h', walk (snd (_copy_metadata_to_h5_attrs (F := Sample.format) m 0
                           Sample.empty_file)) 0 ["plan"] = Some h'
              /\ attr (snd (_copy_metadata_to_h5_attrs (F := Sample.format) m 0
                              Sample.empty_file)) h' "detector"
                 = Some (PStr "None"))
  /\ (exists h' d,
        walk (snd (_copy_metadata_to_h5_datasets (F := Sample.format) m 0
                     Sample.empty_file)) 0 ["plan"] = Some h'
        /\ child (snd (_copy_metadata_to_h5_datasets (F := Sample.format) m 0
                         Sample.empty_file)) h' "detector" = Some d
        /\ data_of (snd (_copy_metadata_to_h5_datasets (F := Sample.format) m 0
                           Sample.empty_file)) d
           = Some (StrArray (PStr "None"))).
Proof.
  intros m.
  assert (Hflat : flat_mapping m).
  { constructor; [apply (bool_decide_unpack _); vm_compute; reflexivity|].
    intros k sub [[= <- <-]|[]].
    constructor; [apply (bool_decide_unpack _); vm_compute; reflexivity|].
    intros k' sub' [[=]|[]]. }
  split.
  - eapply (proj1 (C8_null_is_stored_as_the_text_None (F := Sample.format)
                     m ["plan"] "detector" 0 Sample.empty_file _ Hflat eq_refl)).
    vm_compute. reflexivity.
  - eapply (proj1 (proj2 (C8_null_is_stored_as_the_text_None
                            (F := Sample.format) m ["plan"] "detector" 0
                            Sample.empty_file _ Hflat eq_refl))).
    vm_compute. reflexivity.
Defined.

(** C9.  For a key at any depth of a dictionary whose value is the one NUL
    byte: when [_copy_metadata_to_h5_datasets] returns, the dataset of that
    name holds the empty text; the leaf itself returns on a group in which
    the name is free; and what it hands to the format is the empty text,
    which has no NUL character. *)
Theorem C9_nul_byte_is_stored_as_the_empty_text
    {F : Format} (m : list (string * pyval)) (path : list string)
    (key : string) (h : ref) (st st' : file) :
  flat_mapping m -> leaf_at m path key = Some (PBytes ["000"%char]) ->
  (_copy_metadata_to_h5_datasets m h st = (Ok tt, st') ->
   exists h' d, walk st' h path = Some h' /\ child st' h' key = Some d
                /\ data_of st' d = Some (StrArray (PStr EmptyString)))
  /\ (forall g s0 a links,
        s0 !! g = Some (Obj a (Group links)) -> links !! key = None ->
        dataset_leaf g key (PBytes ["000"%char]) s0
        = (Ok (length s0),
           <[g := Obj a (Group (<[key := length s0]> links))]> s0
             ++ [Obj ∅ (Dataset (StrArray (PStr EmptyString)))]))
  /\ first_data (dataset_value (PBytes ["000"%char])) = StrArray (PStr EmptyString)
  /\ has_nul EmptyString = false.
Proof.
  intros Hflat Hleaf.
  assert (Hd : data_check (StrArray (PStr EmptyString)) = None)
    by (by apply data_check_text).
  split; [|split; [|done]].
  - intros Hrun.
    destruct (copy_datasets_leaf _ _ _ _ _ _ _ Hflat Hleaf eq_refl Hrun)
      as (h' & g & d & Hw & Hc & Hg & [[-> _]|[Hc' _]]).
    + exists h', g. split; [done|]. split; [done|]. unfold data_of. by rewrite Hg.
    + cbn in Hc'. congruence.
  - intros g s0 a links Hs Hk. unfold dataset_leaf, except_TypeError.
    cbn [dataset_value str_or_str_sequence].
    by rewrite (create_dataset_ok _ _ _ _ _ _ Hs Hk Hd).
Qed.

(** C9 on the dictionary of the comment in the source. *)
Lemma C9_witness :
  let m := [("en", PDict [("lower_ctrl_limit", PBytes ["000"%char]);
                          ("upper_ctrl_limit", PBytes ["000"%char])])] in
  exists h' d,
    walk (snd (_copy_metadata_to_h5_datasets (F := Sample.format) m 0
                 Sample.empty_file)) 0 ["en"] = Some h'
    /\ child (snd (_copy_metadata_to_h5_datasets (F := Sample.format) m 0
                     Sample.empty_file)) h' "upper_ctrl_limit" = Some d
    /\ data_of (snd (_copy_metadata_to_h5_datasets (F := Sample.format) m 0
                       Sample.empty_file)) d
       = Some (StrArray (PStr EmptyString)).
Proof.
  intros m.
  assert (Hflat : flat_mapping m).
  { constructor; [apply (bool_decide_unpack _); vm_compute; reflexivity|].
    intros k sub [[= <- <-]|[]].
    constructor; [apply (bool_decide_unpack _); vm_compute; reflexivity|].
    intros k' sub' [[=]|[[=]|[]]]. }
  eapply (proj1 (C9_nul_byte_is_stored_as_the_empty_text (F := Sample.format)
                   m ["en"] "upper_ctrl_limit" 0 Sample.empty_file _ Hflat
                   eq_refl)).
  vm_compute. reflexivity.
Defined.

(** C6, the claim as the specification states it, fails: the tuple
    [(1, [2])] has a JSON text, the format refuses it with [TypeError], the
    text [[1, [2]]] is stored, and the text reads back as the list
    [[1, [2]]], which is not the tuple. *)
Lemma C6_tuple_is_read_back_as_a_list :
  let v := PTuple [PInt 1; PList [PInt 2]] in
  let run := _copy_metadata_to_h5_datasets (F := Sample.format)
               [("shape", v)] 0 Sample.empty_file in
  Json.dumps v = Ok "[1, [2]]"
  /\ data_check (Format := Sample.format) (first_data (dataset_value v))
     = Some TypeError
  /\ fst run = Ok tt
  /\ child (snd run) 0 "shape" = Some 1
  /\ data_of (snd run) 1 = Some (StrArray (PStr "[1, [2]]"))
  /\ Json.loads "[1, [2]]" = Ok (PList [PInt 1; PList [PInt 2]])
  /\ PList [PInt 1; PList [PInt 2]] <> v.
Proof. repeat split; try (vm_compute; reflexivity). discriminate. Qed.

(** C6, amended.  For a leaf at any depth of a dictionary that is built
    from [None], booleans, integers, strings, lists and dictionaries with
    string keys (no tuple, no bytes): when the format refuses the leaf with
    [TypeError] and [_copy_metadata_to_h5_datasets] returns, the dataset of
    that name holds a text, and [json.loads] of the text is the leaf. *)
Theorem C6_fallback_text_reads_back
    {F : Format} (m : list (string * pyval)) (path : list string)
    (key : string) (v : pyval) (h : ref) (st st' : file) :
  flat_mapping m -> leaf_at m path key = Some v -> is_mapping v = false ->
  json_exact v ->
  data_check (first_data (dataset_value v)) = Some TypeError ->
  _copy_metadata_to_h5_datasets m h st = (Ok tt, st') ->
  exists h' d text,
    walk st' h path = Some h' /\ child st' h' key = Some d
    /\ data_of st' d = Some (StrArray (PStr text))
    /\ Json.loads text = Ok v.
Proof.
  intros Hflat Hleaf Hv Hex Hcheck Hrun.
  destruct (copy_datasets_leaf _ _ _ _ _ _ _ Hflat Hleaf Hv Hrun)
    as (h' & g & d & Hw & Hc & Hg & [[_ Hnone]|[_ (text & Hd & ->)]]);
    [congruence|].
  assert (Hval : dataset_value v = v).
  { destruct v; try done.
    - cbn in Hcheck. rewrite data_check_text in Hcheck; done.
    - inversion Hex. }
  rewrite Hval in Hd.
  destruct (loads_dumps v Hex) as (text' & Hd' & Hl).
  assert (text' = text) as -> by congruence.
  exists h', g, text. split; [done|]. split; [done|]. split; [|done].
  unfold data_of. by rewrite Hg.
Qed.

(** C6, amended, on the list [[1, [2]]] under [hints/shape]. *)
Lemma C6_witness :
  let v := PList [PInt 1; PList [PInt 2]] in
  exists h' d text,
    walk (snd (_copy_metadata_to_h5_datasets (F := Sample.format)
                 [("hints", PDict [("shape", v)])] 0 Sample.empty_file))
      0 ["hints"] = Some h'
    /\ child (snd (_copy_metadata_to_h5_datasets (F := Sample.format)
                     [("hints", PDict [("shape", v)])] 0 Sample.empty_file))
         h' "shape" = Some d
    /\ data_of (snd (_copy_metadata_to_h5_datasets (F := Sample.format)
                       [("hints", PDict [("shape", v)])] 0 Sample.empty_file))
         d = Some (StrArray (PStr text))
    /\ Json.loads text = Ok v.
Proof.
  intros v.
  eapply (C6_fallback_text_reads_back (F := Sample.format)
            [("hints", PDict [("shape", v)])] ["hints"] "shape" v 0
            Sample.empty_file).
  - constructor; [apply (bool_decide_unpack _); vm_compute; reflexivity|].
    intros k sub [[= <- <-]|[]].
    constructor; [apply (bool_decide_unpack _); vm_compute; reflexivity|].
    intros k' sub' [[=]|[]].
  - reflexivity.
  - reflexivity.
  - repeat constructor.
  - reflexivity.
  - vm_compute. reflexivity.
Defined.

(** * Further properties of the code *)

Import Keep ParseMore KeepFacts LookupFacts.

(** ** The parser *)

(** X1.  Whenever [_parse_bluesky_document_path] returns, the string starts
    with a reference [#bluesky/<kind>[/<stream>](/<segment>)*[@<attr>]] whose
    segments are runs of word characters, the descriptor is the one of that
    reference, and the parser returns the same descriptor on the reference
    alone: what follows it in the string plays no part. *)
Theorem X1_parser_returns_the_descriptor_of_a_reference
    (s : string) (p : path_info) :
  _parse_bluesky_document_path s = Ok p ->
  exists k segs attr rest,
    Grammar.well_formed k segs attr
    /\ chars_of s = Grammar.reference k segs attr ++ rest
    /\ p = Grammar.descriptor k segs attr
    /\ _parse_bluesky_document_path (str_of (Grammar.reference k segs attr))
       = Ok p.
Proof.
  intros Hp.
  destruct (parse_prefix s p Hp) as (k & segs & attr & rest & Hwf & Hs & ->).
  exists k, segs, attr, rest. split; [done|]. split; [done|]. split; [done|].
  by apply parse_reference.
Qed.

(** X1 on [#bluesky/desc/primary/a@b c]. *)
Lemma X1_witness :
  exists k segs attr rest,
    Grammar.well_formed k segs attr
    /\ chars_of "#bluesky/desc/primary/a@b c"
       = Grammar.reference k segs attr ++ rest
    /\ PathInfo "desc" (Some "primary") (Some "/a") (Some "b") ["a"]
       = Grammar.descriptor k segs attr
    /\ _parse_bluesky_document_path (str_of (Grammar.reference k segs attr))
       = Ok (PathInfo "desc" (Some "primary") (Some "/a") (Some "b") ["a"]).
Proof.
  apply (X1_parser_returns_the_descriptor_of_a_reference
           "#bluesky/desc/primary/a@b c").
  vm_compute. reflexivity.
Defined.

(** X2.  The descriptor that the parser returns: [doc] is [start], [stop]
    or [desc]; there is a stream exactly when [doc] is [desc]; every key,
    the stream and the attribute are non-empty runs of word characters (so
    no key is empty and none has a slash); and [all_keys] is the keys, each
    after a slash. *)
Theorem X2_descriptor_invariants (s : string) (p : path_info) :
  _parse_bluesky_document_path s = Ok p ->
  (doc p = "start" \/ doc p = "stop" \/ doc p = "desc")
  /\ (is_Some (stream p) <-> doc p = "desc")
  /\ Forall is_segment (keys p)
  /\ match stream p with Some w => is_segment w | None => True end
  /\ match attribute p with Some w => is_segment w | None => True end
  /\ all_keys p
     = Some (fold_right (fun k acc => ("/" ++ k ++ acc)%string) EmptyString
               (keys p)).
Proof.
  intros Hp.
  destruct (parse_prefix s p Hp)
    as (k & segs & attr & rest & (Hk & Hsegs & Hattr) & _ & ->).
  unfold Grammar.descriptor. cbn [doc stream keys attribute all_keys].
  split; [destruct k; tauto|]. split.
  { destruct k; cbn; split; (done || by intros []|| eauto). }
  split.
  { apply Forall_fmap. eapply Forall_impl; [exact Hsegs|].
    intros w Hw. by apply DescriptorFacts.segment_is_segment. }
  split.
  { destruct k; cbn; [done|done|]. by apply DescriptorFacts.segment_is_segment. }
  split.
  { destruct attr; cbn; [|done]. by apply DescriptorFacts.segment_is_segment. }
  by rewrite DescriptorFacts.keys_text_fold.
Qed.

(** X2 on [#bluesky/start/blah/bleh@blih]. *)
Lemma X2_witness :
  let p := PathInfo "start" None (Some "/blah/bleh") (Some "blih")
             ["blah"; "bleh"] in
  (doc p = "start" \/ doc p = "stop" \/ doc p = "desc")
  /\ (is_Some (stream p) <-> doc p = "desc")
  /\ Forall is_segment (keys p)
  /\ match stream p with Some w => is_segment w | None => True end
  /\ match attribute p with Some w => is_segment w | None => True end
  /\ all_keys p
     = Some (fold_right (fun k acc => ("/" ++ k ++ acc)%string) EmptyString
               (keys p)).
Proof.
  apply (X2_descriptor_invariants "#bluesky/start/blah/bleh@blih").
  vm_compute. reflexivity.
Defined.

(** ** The lookup *)

(** X3.  For a reference of the grammar, parsing it and looking the
    descriptor up returns the object at the end of the links [bluesky],
    the kind and the segments, in this order, when there is one, and raises
    when there is none; neither the stream nor the attribute is looked at,
    and the file is as before in both cases. *)
Theorem X3_reference_lookup_is_the_walk_along_kind_and_keys
    (k : Grammar.kind) (segs : list chars)
    (attr : option chars) (root : ref) (st : file) :
  Grammar.well_formed k segs attr ->
  exists p,
    _parse_bluesky_document_path (str_of (Grammar.reference k segs attr))
    = Ok p
    /\ match walk st root
               ("bluesky" :: str_of (Grammar.kind_name k) :: (str_of <$> segs))
       with
       | Some g => _get_h5_group_or_dataset p root st = (Ok g, st)
       | None => exists e, _get_h5_group_or_dataset p root st = (Raise e, st)
       end.
Proof.
  intros Hwf. exists (Grammar.descriptor k segs attr).
  split; [by apply parse_reference|].
  set (p := Grammar.descriptor k segs attr).
  change ("bluesky" :: str_of (Grammar.kind_name k) :: (str_of <$> segs))
    with ("bluesky" :: doc p :: keys p).
  destruct (resolve_cases p root st) as [(g & Hr & ->)|[e Hr]]; [done|].
  destruct (walk st root _) as [g|] eqn:Hw; [|eauto].
  apply resolve_ok in Hw. congruence.
Qed.

(** X3 on [#bluesky/desc/primary/k1@units] in the file
    [Sample.streams_file]. *)
Lemma X3_witness :
  exists p,
    _parse_bluesky_document_path
      (str_of (Grammar.reference (Grammar.KDesc (chars_of "primary"))
                 [chars_of "k1"] (Some (chars_of "units"))))
    = Ok p
    /\ match walk Sample.streams_file 0
               ("bluesky" :: str_of (Grammar.kind_name
                                       (Grammar.KDesc (chars_of "primary")))
                  :: (str_of <$> [chars_of "k1"]))
       with
       | Some g => _get_h5_group_or_dataset p 0
                     Sample.streams_file = (Ok g, Sample.streams_file)
       | None => exists e, _get_h5_group_or_dataset p 0
                             Sample.streams_file
                           = (Raise e, Sample.streams_file)
       end.
Proof.
  apply (X3_reference_lookup_is_the_walk_along_kind_and_keys
           (Grammar.KDesc (chars_of "primary"))
           [chars_of "k1"] (Some (chars_of "units")) 0 Sample.streams_file).
  split; [split; [discriminate|reflexivity]|].
  split; [|split; [discriminate|reflexivity]].
  constructor; [split; [discriminate|reflexivity]|constructor].
Defined.

(** X4.  The lookup raises [KeyError] at the first name that the group
    reached so far does not have, be it [bluesky], the kind or a key, and
    leaves the file as it was. *)
Theorem X4_lookup_of_a_missing_name_raises_KeyError
    (p : path_info) (root : ref) (st : file)
    (pre : list string) (k : string) (post : list string) (g : ref)
    (a : gmap string pyval) (links : gmap string ref) :
  "bluesky" :: doc p :: keys p = pre ++ k :: post ->
  walk st root pre = Some g ->
  st !! g = Some (Obj a (Group links)) -> links !! k = None ->
  _get_h5_group_or_dataset p root st = (Raise (KeyError k), st).
Proof.
  intros Hpath Hw Hs Hk. rewrite resolve_descend, Hpath.
  rewrite (descend_app _ _ _ _ _ Hw). by eapply descend_missing.
Qed.

(** X4 on the descriptor of [#bluesky/start/uid/x] in the file
    [Sample.bluesky_file], where [/bluesky/start] has no [uid]. *)
Lemma X4_witness :
  _get_h5_group_or_dataset
    (PathInfo "start" None (Some "/uid/x") None ["uid"; "x"]) 0
    Sample.bluesky_file
  = (Raise (KeyError "uid"), Sample.bluesky_file).
Proof.
  apply (X4_lookup_of_a_missing_name_raises_KeyError
           (PathInfo "start" None (Some "/uid/x") None ["uid"; "x"]) 0
           Sample.bluesky_file ["bluesky"; "start"] "uid" ["x"] 2 ∅
           {[ "sample_name" := 3 ]});
    reflexivity.
Defined.

(** ** What every run keeps *)

(** X5.  Whatever the three copies do, and whether they return or raise:
    no object leaves the file, every path of links that led to an object
    still leads to it, and every dataset has the data it had. *)
Theorem X5_paths_and_data_persist
    {F : Format} (m : list (string * pyval)) (h : ref) (st st' : file)
    (r : result unit) :
  _copy_nexus_md_to_nexus_h5 m h st = (r, st')
  \/ _copy_metadata_to_h5_attrs m h st = (r, st')
  \/ _copy_metadata_to_h5_datasets m h st = (r, st') ->
  length st <= length st'
  /\ (forall g path x, walk st g path = Some x -> walk st' g path = Some x)
  /\ (forall i d, data_of st i = Some d -> data_of st' i = Some d).
Proof.
  intros Hrun.
  assert (Hg : grows st st').
  { destruct Hrun as [Hrun|[Hrun|Hrun]].
    - by eapply (growing_copy_nexus (PDict m)).
    - by eapply (growing_copy_with attr_leaf growing_attr_leaf (PDict m)).
    - by eapply (growing_copy_with dataset_leaf_unit
                   growing_dataset_leaf_unit (PDict m)). }
  split; [by apply grows_length|]. split.
  - intros g path x. by apply grows_walk.
  - intros i d. by apply grows_data.
Qed.

(** X5 on a walk that raises after it has made a group: the tree
    [{"entry": {"title": "#bluesky/stop"}}] in the file
    [Sample.bluesky_file], which has no [/bluesky/stop]. *)
Lemma X5_witness :
  let run := _copy_nexus_md_to_nexus_h5 (F := Sample.format)
               [("entry", PDict [("title", PStr "#bluesky/stop")])] 0
               Sample.bluesky_file in
  fst run = Raise (KeyError "stop")
  /\ length Sample.bluesky_file <= length (snd run)
  /\ walk (snd run) 0 ["bluesky"; "start"; "sample_name"] = Some 3
  /\ data_of (snd run) 3 = Some (StrArray (PStr "Sample A")).
Proof.
  intros run.
  destruct (X5_paths_and_data_persist (F := Sample.format)
              [("entry", PDict [("title", PStr "#bluesky/stop")])] 0
              Sample.bluesky_file (snd run) (fst run))
    as (Hlen & Hwalk & Hdata); [left; reflexivity|].
  split; [vm_compute; reflexivity|]. split; [exact Hlen|]. split.
  - apply Hwalk. reflexivity.
  - apply Hdata. reflexivity.
Defined.

(** ** The walk over the nexus metadata *)

(** X6.  In a walk that returns, a key at any depth of the dictionary (no
    key on the way being reserved) whose value is neither a mapping nor a
    string that begins with [#bluesky] names, under the path of the keys, a
    dataset that the walk has made and that holds the value as it is. *)
Theorem X6_plain_value_is_stored_as_a_dataset
    {F : Format} (items : list (string * pyval)) (h : ref)
    (path : list string) (key : string) (v : pyval) (st st' : file) :
  leaf_at items path key = Some v ->
  Forall (fun k => ~ reserved k) path -> ~ reserved key ->
  is_mapping v = false -> is_reference v = false ->
  _copy_nexus_md_to_nexus_h5 items h st = (Ok tt, st') ->
  exists g d,
    walk st' h path = Some g /\ child st' g key = Some d
    /\ data_of st' d = Some (Raw v) /\ length st <= d.
Proof.
  intros Hget Hpath Hkey Hm Hr Hrun.
  destruct (NexusMore.copy_nexus_at_path _ _ _ _ _ _ _ Hget Hpath Hrun)
    as (g & st0 & st1 & Hw & Hg0 & Hitem & Hg1).
  rewrite NexusMore.nexus_item_plain in Hitem by done.
  apply NexusMore.bind_ok_inv in Hitem as (d & st1' & Hc & Hret).
  injection Hret as ->.
  apply create_dataset_inv in Hc
    as [(_ & e & ? & _)|(Hd & _ & a & links & Hs & _ & ->)]; [done|].
  injection Hd as ->.
  destruct (NexusMore.created_child g key (Obj ∅ (Dataset (Raw v))) _ _ _ Hs)
    as [Hchild Hobj].
  exists g, (length st0). split; [done|]. split; [by eapply grows_child|].
  split.
  - eapply grows_data; [done|]. unfold data_of. by rewrite Hobj.
  - by apply grows_length.
Qed.

(** X6 on a tree of the documentation of the source: the key
    [description] of the group [aperture] of the group [instrument]. *)
Lemma X6_witness :
  let items :=
    [("instrument",
      PDict [("_attributes", PDict [("NX_Class", PStr "NXInstrument")]);
             ("aperture",
              PDict [("_attributes", PDict [("NX_Class", PStr "NXAperture")]);
                     ("vcenter", PInt 1);
                     ("description", PStr "USAXSslit")])])] in
  let run := _copy_nexus_md_to_nexus_h5 (F := Sample.format) items 0
               Sample.empty_file in
  exists g d,
    walk (snd run) 0 ["instrument"; "aperture"] = Some g
    /\ child (snd run) g "description" = Some d
    /\ data_of (snd run) d = Some (Raw (PStr "USAXSslit"))
    /\ length Sample.empty_file <= d.
Proof.
  intros items run.
  apply (X6_plain_value_is_stored_as_a_dataset (F := Sample.format)
           items 0 ["instrument"; "aperture"] "description"
           (PStr "USAXSslit") Sample.empty_file (snd run)).
  - reflexivity.
  - repeat constructor; unfold reserved; intros [|[|]]; discriminate.
  - unfold reserved. intros [|[|]]; discriminate.
  - reflexivity.
  - reflexivity.
  - vm_compute. reflexivity.
Defined.

(** X7.  In a walk that returns, a key at any depth (no key on the way
    being reserved) whose value is a reference string, or a mapping with a
    reference string under [_link], names a link to the object that the
    reference named in the file before the walk; the reference still names
    that object after the walk. *)
Theorem X7_reference_is_linked_to_the_object_it_named
    {F : Format} (items : list (string * pyval)) (h : ref)
    (path : list string) (key : string) (v : pyval) (s : string)
    (p : path_info) (target : ref) (st st' : file) :
  leaf_at items path key = Some v ->
  Forall (fun k => ~ reserved k) path -> ~ reserved key ->
  link_text v = Some s ->
  _parse_bluesky_document_path s = Ok p ->
  walk st 0 ("bluesky" :: doc p :: keys p) = Some target ->
  _copy_nexus_md_to_nexus_h5 items h st = (Ok tt, st') ->
  exists g,
    walk st' h path = Some g /\ child st' g key = Some target
    /\ walk st' 0 ("bluesky" :: doc p :: keys p) = Some target.
Proof.
  intros Hget Hpath Hkey Hv Hp Hw Hrun.
  destruct (NexusMore.copy_nexus_at_path _ _ _ _ _ _ _ Hget Hpath Hrun)
    as (g & st0 & st1 & Hwg & Hg0 & Hitem & Hg1).
  destruct (NexusMore.nexus_item_link copy_nexus g key v s st0 st1 Hkey Hv
              (growing_copy_nexus v) Hitem)
    as (p' & t & Hp' & Hw' & Hc & Hg).
  assert (p' = p) as -> by congruence.
  pose proof (grows_walk _ _ _ _ _ Hg0 Hw) as Hw0.
  assert (t = target) as -> by congruence.
  exists g. split; [done|]. split; [by eapply grows_child|].
  eapply grows_walk; [exact Hg1|]. by eapply grows_walk.
Qed.

(** X7 on the keys [name_1] and [name_2] of the documentation of the
    source: a reference string, and a mapping with attributes and the
    reference under [_link], both in the group [instrument]. *)
Lemma X7_witness :
  let items :=
    [("instrument",
      PDict [("name_1", PStr "#bluesky/start/sample_name");
             ("name_2",
              PDict [("_attributes", PDict [("NX_This", PStr "NXThat")]);
                     ("_link", PStr "#bluesky/start/sample_name")])])] in
  let run := _copy_nexus_md_to_nexus_h5 (F := Sample.format) items 0
               Sample.bluesky_file in
  (exists g,
     walk (snd run) 0 ["instrument"] = Some g
     /\ child (snd run) g "name_1" = Some 3
     /\ walk (snd run) 0 ("bluesky" :: ["start"; "sample_name"]) = Some 3)
  /\ (exists g,
        walk (snd run) 0 ["instrument"] = Some g
        /\ child (snd run) g "name_2" = Some 3
        /\ walk (snd run) 0 ("bluesky" :: ["start"; "sample_name"]) = Some 3).
Proof.
  intros items run.
  assert (Hres : forall k, k = "instrument" \/ k = "name_1" \/ k = "name_2" ->
                           ~ reserved k).
  { unfold reserved. intros k [->|[->| ->]] [|[|]]; discriminate. }
  split.
  - apply (X7_reference_is_linked_to_the_object_it_named (F := Sample.format)
             items 0 ["instrument"] "name_1"
             (PStr "#bluesky/start/sample_name") "#bluesky/start/sample_name"
             (PathInfo "start" None (Some "/sample_name") None ["sample_name"])
             3 Sample.bluesky_file (snd run));
      [reflexivity|repeat constructor; apply Hres; tauto|apply Hres; tauto
      |reflexivity|vm_compute; reflexivity|reflexivity|vm_compute; reflexivity].
  - apply (X7_reference_is_linked_to_the_object_it_named (F := Sample.format)
             items 0 ["instrument"] "name_2"
             (PDict [("_attributes", PDict [("NX_This", PStr "NXThat")]);
                     ("_link", PStr "#bluesky/start/sample_name")])
             "#bluesky/start/sample_name"
             (PathInfo "start" None (Some "/sample_name") None ["sample_name"])
             3 Sample.bluesky_file (snd run));
      [reflexivity|repeat constructor; apply Hres; tauto|apply Hres; tauto
      |reflexivity|vm_compute; reflexivity|reflexivity|vm_compute; reflexivity].
Defined.

(** X8.  A mapping with a reference under [_link] and attributes under
    [_attributes] makes no object: the key becomes a link to the object
    that the reference names, and the attributes are set on that very
    object, so that they are read under the path of the reference as
    well; the other attributes of the object stay. *)
Theorem X8_attributes_of_a_link_are_set_on_the_linked_object
    {F : Format} (h : ref) (key : string) (sub al : list (string * pyval))
    (s : string) (p : path_info) (target : ref) (st : file)
    (a : gmap string pyval) (links : gmap string ref) (ot : obj) :
  ~ reserved key ->
  NoDup (fst <$> sub) -> NoDup (fst <$> al) ->
  dict_get "_link" sub = Some (PStr s) ->
  dict_get "_attributes" sub = Some (PDict al) ->
  (forall k, In k (fst <$> sub) -> reserved k) ->
  Forall (fun kv => attr_check (snd kv) = None) al ->
  _parse_bluesky_document_path s = Ok p ->
  walk st 0 ("bluesky" :: doc p :: keys p) = Some target ->
  st !! target = Some ot ->
  st !! h = Some (Obj a (Group links)) -> links !! key = None ->
  exists st',
    _copy_nexus_md_to_nexus_h5 [(key, PDict sub)] h st = (Ok tt, st')
    /\ length st' = length st
    /\ child st' h key = Some target
    /\ walk st' 0 ("bluesky" :: doc p :: keys p) = Some target
    /\ forall n, attr st' target n
                 = match dict_get n al with
                   | Some v => Some v
                   | None => attr st target n
                   end.
Proof.
  intros Hkey Hnd Hnda Hlink Hattrs Hres Hal Hp Hw Ht Hh Hfree.
  set (st1 := <[h := Obj a (Group (<[key := target]> links))]> st).
  assert (Hhlt : h < length st) by (by eapply lookup_lt_Some).
  assert (Ht1 : exists b1, st1 !! target = Some (Obj (attrs ot) b1)
                           /\ (target = h ->
                               b1 = Group (<[key := target]> links))).
  { destruct (decide (target = h)) as [->|Hne].
    - exists (Group (<[key := h]> links)). split; [|done].
      unfold st1. rewrite list_lookup_insert_eq by done.
      assert (ot = Obj a (Group links)) as -> by congruence. done.
    - exists (content ot). split; [|done].
      unfold st1. rewrite list_lookup_insert_ne by done. by destruct ot. }
  destruct Ht1 as (b1 & Ht1 & Hb1).
  set (st2 := <[target := Obj (set_all al (attrs ot)) b1]> st1).
  assert (Hrun : _copy_nexus_md_to_nexus_h5 [(key, PDict sub)] h st
                 = (Ok tt, st2)).
  { unfold _copy_nexus_md_to_nexus_h5.
    rewrite copy_nexus_dict, for_each_cons. cbn [fst snd for_each].
    rewrite nexus_item_branch by done.
    rewrite (NexusMore.dict_has_get _ _ _ Hlink).
    unfold dict_item. rewrite Hlink.
    rewrite (NexusMore.bind_run _ _ st (PStr s) st) by done.
    rewrite (NexusMore.bind_run _ _ st p st)
      by (cbn [parse_link]; unfold lift; by rewrite Hp).
    rewrite (NexusMore.bind_run _ _ st target st)
      by (by apply resolve_ok).
    rewrite (NexusMore.bind_run _ _ st tt st1)
      by (by apply set_item_ok).
    rewrite (NexusMore.bind_run _ _ st1 target st1)
      by (apply get_item_ok; by apply NexusMore.linked_child).
    rewrite (NexusMore.copy_nexus_reserved sub target st1 (attrs ot) b1 Hnd Ht1).
    - by rewrite Hattrs.
    - apply Forall_forall. intros [k v] Hin. cbn [fst snd].
      assert (Hk' : In k (fst <$> sub)).
      { apply list_elem_of_In, list_elem_of_fmap. by exists (k, v). }
      apply list_elem_of_In in Hin.
      destruct (Hres k Hk') as [->|[->| ->]]; [by left|by right; left|].
      right. right. split; [done|]. exists al. split; [|done].
      pose proof (dict_get_unique _ _ _ Hnd Hin). congruence. }
  exists st2. split; [done|]. split; [|split; [|split]].
  - unfold st2, st1. by rewrite !length_insert.
  - unfold child, st2. destruct (decide (target = h)) as [E|Hne].
    + rewrite E at 1. rewrite list_lookup_insert_eq
        by (unfold st1; by rewrite length_insert).
      rewrite (Hb1 E). apply lookup_insert_eq.
    + rewrite list_lookup_insert_ne by done. unfold st1.
      rewrite list_lookup_insert_eq by done. apply lookup_insert_eq.
  - eapply grows_walk; [|exact Hw].
    by eapply (growing_copy_nexus (PDict [(key, PDict sub)])).
  - intros n. unfold attr, st2.
    rewrite list_lookup_insert_eq
      by (unfold st1; rewrite length_insert; by eapply lookup_lt_Some).
    rewrite Ht. cbn [attrs]. by apply set_all_lookup.
Qed.

(** X8 on the key [GUPNumber] of the documentation of the source. *)
Lemma X8_witness :
  exists st',
    _copy_nexus_md_to_nexus_h5 (F := Sample.format)
      [("GUPNumber",
        PDict [("_attributes", PDict [("NDAttrName", PStr "GUPNumber")]);
               ("_link", PStr "#bluesky/start/sample_name")])] 0
      Sample.bluesky_file = (Ok tt, st')
    /\ length st' = length Sample.bluesky_file
    /\ child st' 0 "GUPNumber" = Some 3
    /\ walk st' 0 ("bluesky" :: ["start"; "sample_name"]) = Some 3
    /\ forall n, attr st' 3 n
                 = match dict_get n [("NDAttrName", PStr "GUPNumber")] with
                   | Some v => Some v
                   | None => attr Sample.bluesky_file 3 n
                   end.
Proof.
  apply (X8_attributes_of_a_link_are_set_on_the_linked_object
           (F := Sample.format) 0 "GUPNumber"
           [("_attributes", PDict [("NDAttrName", PStr "GUPNumber")]);
            ("_link", PStr "#bluesky/start/sample_name")]
           [("NDAttrName", PStr "GUPNumber")]
           "#bluesky/start/sample_name"
           (PathInfo "start" None (Some "/sample_name") None ["sample_name"])
           3 Sample.bluesky_file ∅ {[ "bluesky" := 1 ]}
           (Obj ∅ (Dataset (StrArray (PStr "Sample A"))))).
  - unfold reserved. intros [|[|]]; discriminate.
  - apply (bool_decide_unpack _). vm_compute. reflexivity.
  - apply (bool_decide_unpack _). vm_compute. reflexivity.
  - reflexivity.
  - reflexivity.
  - unfold reserved. simpl. intros k [<-|[<-|[]]]; tauto.
  - repeat constructor.
  - vm_compute. reflexivity.
  - reflexivity.
  - reflexivity.
  - reflexivity.
  - reflexivity.
Defined.

(** X9.  When a mapping has a [_link], its [_data] is without effect: the
    walk does the same with and without it (the link is made, and no
    dataset). *)
Theorem X9_link_takes_precedence_over_data
    {F : Format} (h : ref) (key : string) (sub : list (string * pyval))
    (st : file) :
  ~ reserved key -> dict_has "_link" sub = true ->
  _copy_nexus_md_to_nexus_h5 [(key, PDict sub)] h st
  = _copy_nexus_md_to_nexus_h5 [(key, PDict (without "_data" sub))] h st.
Proof.
  intros Hkey Hlink. unfold _copy_nexus_md_to_nexus_h5.
  rewrite !copy_nexus_dict, !for_each_cons. cbn [fst snd for_each].
  rewrite !nexus_item_branch by done.
  assert (Hget : dict_get "_link" (without "_data" sub) = dict_get "_link" sub)
    by (by apply NexusMore.dict_get_without).
  unfold dict_has, dict_item in *. rewrite Hget.
  destruct (dict_get "_link" sub) as [link|]; [|done].
  assert (Hsame : (let* link := ret link in
                   let* path := parse_link link in
                   let* target := _get_h5_group_or_dataset path (file_of h) in
                   set_item h key target ;;
                   let* child := get_item h key in
                   copy_nexus (PDict sub) child)%h5 st
                  = (let* link := ret link in
                     let* path := parse_link link in
                     let* target := _get_h5_group_or_dataset path (file_of h) in
                     set_item h key target ;;
                     let* child := get_item h key in
                     copy_nexus (PDict (without "_data" sub)) child)%h5 st).
  { do 5 (apply NexusMore.bind_ext; intros ? ?).
    symmetry. apply NexusMore.copy_nexus_without. by left. }
  by rewrite Hsame.
Qed.

(** X9 on a mapping with both keys. *)
Lemma X9_witness :
  _copy_nexus_md_to_nexus_h5 (F := Sample.format)
    [("title", PDict [("_data", PStr "a title");
                      ("_link", PStr "#bluesky/start/sample_name")])] 0
    Sample.bluesky_file
  = _copy_nexus_md_to_nexus_h5 (F := Sample.format)
      [("title", PDict (without "_data"
                          [("_data", PStr "a title");
                           ("_link", PStr "#bluesky/start/sample_name")]))] 0
      Sample.bluesky_file.
Proof.
  apply (X9_link_takes_precedence_over_data (F := Sample.format) 0 "title"
           [("_data", PStr "a title");
            ("_link", PStr "#bluesky/start/sample_name")]
           Sample.bluesky_file).
  - unfold reserved. intros [|[|]]; discriminate.
  - reflexivity.
Defined.

(** X10.  On a dataset the walk takes the reserved keys only: a walk that
    returns has met no other key and has changed nothing but the
    attributes of the dataset, which are then those of [_attributes] over
    the ones it had; and any other key makes the walk raise at once, with
    the file as it was. *)
Theorem X10_a_dataset_takes_attributes_only
    {F : Format} (items : list (string * pyval)) (d : ref) (st : file)
    (a : gmap string pyval) (x : h5data) :
  NoDup (fst <$> items) -> st !! d = Some (Obj a (Dataset x)) ->
  (forall st',
      _copy_nexus_md_to_nexus_h5 items d st = (Ok tt, st') ->
      Forall (fun kv => reserved (fst kv)) items
      /\ st' = <[d := Obj (match dict_get "_attributes" items with
                           | Some (PDict al) => set_all al a
                           | _ => a
                           end) (Dataset x)]> st)
  /\ (forall key v,
        ~ reserved key ->
        exists e, _copy_nexus_md_to_nexus_h5 [(key, v)] d st = (Raise e, st)).
Proof.
  intros Hnd Hs. split.
  - intros st' Hrun.
    destruct (copy_nexus_on_dataset _ _ _ _ _ _ Hnd Hs Hrun) as [-> Hall].
    done.
  - intros key v Hkey. unfold _copy_nexus_md_to_nexus_h5.
    rewrite copy_nexus_dict, for_each_cons. cbn [fst snd].
    destruct (nexus_item_on_dataset copy_nexus d key v st a x Hs Hkey)
      as [e ->].
    eauto.
Qed.

(** X10 on the dataset [/bluesky/start/sample_name] of the file
    [Sample.bluesky_file]. *)
Lemma X10_witness :
  let items := [("_attributes", PDict [("units", PStr "mm")])] in
  let run := _copy_nexus_md_to_nexus_h5 (F := Sample.format) items 3
               Sample.bluesky_file in
  (Forall (fun kv => reserved (fst kv)) items
   /\ snd run = <[3 := Obj (set_all [("units", PStr "mm")] ∅)
                         (Dataset (StrArray (PStr "Sample A")))]>
                  Sample.bluesky_file)
  /\ (exists e, _copy_nexus_md_to_nexus_h5 (F := Sample.format)
                  [("units", PStr "mm")] 3 Sample.bluesky_file
                = (Raise e, Sample.bluesky_file)).
Proof.
  intros items run.
  destruct (X10_a_dataset_takes_attributes_only (F := Sample.format)
              items 3 Sample.bluesky_file ∅ (StrArray (PStr "Sample A")))
    as [Hok Hraise].
  - apply (bool_decide_unpack _). vm_compute. reflexivity.
  - reflexivity.
  - split.
    + apply (Hok (snd run)). vm_compute. reflexivity.
    + apply (Hraise "units" (PStr "mm")).
      unfold reserved. intros [|[|]]; discriminate.
Defined.

(** ** What the plain copies leave alone *)





(** ** The leaves of the two plain copies *)

(** X13.  When [_copy_metadata_to_h5_attrs] returns, every value of the
    dictionary that is no mapping, at any depth, is an attribute under its
    key of the group under the path of the keys above it: the value itself
    (the text ["None"] for [None]) when the format takes it, and its JSON
    text when the format refuses it with [TypeError]. *)
Theorem X13_every_leaf_is_an_attribute
    {F : Format} (m : list (string * pyval)) (path : list string)
    (key : string) (v : pyval) (h : ref) (st st' : file) :
  flat_mapping m -> leaf_at m path key = Some v -> is_mapping v = false ->
  _copy_metadata_to_h5_attrs m h st = (Ok tt, st') ->
  exists g w,
    walk st' h path = Some g /\ attr st' g key = Some w
    /\ (attr_check (attr_value v) = None /\ w = attr_value v
        \/ attr_check (attr_value v) = Some TypeError
           /\ exists text, Json.dumps (attr_value v) = Ok text
                           /\ w = PStr text).
Proof.
  intros Hflat Hleaf Hv Hrun.
  destruct (copy_attrs_leaf _ _ _ _ _ _ _ Hflat Hleaf Hv Hrun)
    as (g & w & Hw & Ha & [[-> Hc]|(Hc & text & Hd & ->)]).
  - exists g, (attr_value v). eauto.
  - exists g, (PStr text). eauto 10.
Qed.

(** X13 on the dictionary
    [{"plan": {"name": "count", "shape": [[1], 2]}}]. *)
Lemma X13_witness :
  let m := [("plan", PDict [("name", PStr "count");
                            ("shape", PList [PList [PInt 1]; PInt 2])])] in
  let run := _copy_metadata_to_h5_attrs (F := Sample.format) m 0
               Sample.empty_file in
  exists g w,
    walk (snd run) 0 ["plan"] = Some g /\ attr (snd run) g "shape" = Some w
    /\ (attr_check (Format := Sample.format)
          (attr_value (PList [PList [PInt 1]; PInt 2])) = None
        /\ w = attr_value (PList [PList [PInt 1]; PInt 2])
        \/ attr_check (Format := Sample.format)
             (attr_value (PList [PList [PInt 1]; PInt 2])) = Some TypeError
           /\ exists text,
                Json.dumps (attr_value (PList [PList [PInt 1]; PInt 2]))
                = Ok text
                /\ w = PStr text).
Proof.
  intros m run.
  apply (X13_every_leaf_is_an_attribute (F := Sample.format) m ["plan"]
           "shape" (PList [PList [PInt 1]; PInt 2]) 0 Sample.empty_file
           (snd run)).
  - constructor; [apply (bool_decide_unpack _); vm_compute; reflexivity|].
    intros k sub [[= <- <-]|[]].
    constructor; [apply (bool_decide_unpack _); vm_compute; reflexivity|].
    intros k' sub' [[=]|[[=]|[]]].
  - reflexivity.
  - reflexivity.
  - vm_compute. reflexivity.
Defined.

(** X14.  When [_copy_metadata_to_h5_datasets] returns, every value of
    the dictionary that is no mapping, at any depth, is a dataset without
    attributes under its key in the group under the path of the keys above
    it.  When the format takes the value, the dataset holds it (the text
    ["None"] for [None], the empty text for the one NUL byte), as an array
    of strings when it is a string or a sequence of strings; when the format
    refuses it with [TypeError], the dataset holds its JSON text. *)
Theorem X14_every_leaf_is_a_dataset
    {F : Format} (m : list (string * pyval)) (path : list string)
    (key : string) (v : pyval) (h : ref) (st st' : file) :
  flat_mapping m -> leaf_at m path key = Some v -> is_mapping v = false ->
  _copy_metadata_to_h5_datasets m h st = (Ok tt, st') ->
  exists g d x,
    walk st' h path = Some g /\ child st' g key = Some d
    /\ st' !! d = Some (Obj ∅ (Dataset x))
    /\ (data_check (first_data (dataset_value v)) = None
        /\ x = (if str_or_str_sequence (dataset_value v)
                then StrArray (dataset_value v) else Raw (dataset_value v))
        \/ data_check (first_data (dataset_value v)) = Some TypeError
           /\ exists text, Json.dumps (dataset_value v) = Ok text
                           /\ x = StrArray (PStr text)).
Proof.
  intros Hflat Hleaf Hv Hrun.
  destruct (copy_datasets_leaf _ _ _ _ _ _ _ Hflat Hleaf Hv Hrun)
    as (g & d & x & Hw & Hc & Hd & [[-> Hchk]|(Hchk & text & Ht & ->)]).
  - exists g, d, (first_data (dataset_value v)). eauto 10.
  - exists g, d, (StrArray (PStr text)). eauto 10.
Qed.

(** X14 on the dictionary [{"hints": {"fields": ["a", "b"]}}]. *)
Lemma X14_witness :
  let v := PList [PStr "a"; PStr "b"] in
  let m := [("hints", PDict [("fields", v)])] in
  let run := _copy_metadata_to_h5_datasets (F := Sample.format) m 0
               Sample.empty_file in
  exists g d x,
    walk (snd run) 0 ["hints"] = Some g /\ child (snd run) g "fields" = Some d
    /\ snd run !! d = Some (Obj ∅ (Dataset x))
    /\ (data_check (Format := Sample.format) (first_data (dataset_value v))
        = None
        /\ x = (if str_or_str_sequence (dataset_value v)
                then StrArray (dataset_value v) else Raw (dataset_value v))
        \/ data_check (Format := Sample.format)
             (first_data (dataset_value v)) = Some TypeError
           /\ exists text, Json.dumps (dataset_value v) = Ok text
                           /\ x = StrArray (PStr text)).
Proof.
  intros v m run.
  apply (X14_every_leaf_is_a_dataset (F := Sample.format) m ["hints"]
           "fields" v 0 Sample.empty_file (snd run)).
  - constructor; [apply (bool_decide_unpack _); vm_compute; reflexivity|].
    intros k sub [[= <- <-]|[]].
    constructor; [apply (bool_decide_unpack _); vm_compute; reflexivity|].
    intros k' sub' [[=]|[]].
  - reflexivity.
  - reflexivity.
  - vm_compute. reflexivity.
Defined.

(** X15.  A value without bytes that one of the plain copies has stored
    as its JSON text (the format having refused it with [TypeError]) is read
    back by [json.loads] with every tuple turned into a list, at any depth
    of the value, and is otherwise the value. *)
Theorem X15_json_text_reads_back_with_lists_for_tuples
    {F : Format} (m : list (string * pyval)) (path : list string)
    (key : string) (v : pyval) (h : ref) (st st' : file) :
  flat_mapping m -> leaf_at m path key = Some v -> is_mapping v = false ->
  json_value v ->
  (attr_check (attr_value v) = Some TypeError ->
   _copy_metadata_to_h5_attrs m h st = (Ok tt, st') ->
   exists g text,
     walk st' h path = Some g /\ attr st' g key = Some (PStr text)
     /\ Json.loads text = Ok (listify v))
  /\ (data_check (first_data (dataset_value v)) = Some TypeError ->
      _copy_metadata_to_h5_datasets m h st = (Ok tt, st') ->
      exists g d text,
        walk st' h path = Some g /\ child st' g key = Some d
        /\ data_of st' d = Some (StrArray (PStr text))
        /\ Json.loads text = Ok (listify v)).
Proof.
  intros Hflat Hleaf Hv Hjson.
  destruct (JsonMore.loads_dumps_listify v Hjson) as (text & Hd & Hl).
  split; intros Hchk Hrun.
  - assert (Hval : attr_value v = v).
    { destruct v; try done. cbn in Hchk.
      rewrite attr_check_text in Hchk; done. }
    destruct (copy_attrs_leaf _ _ _ _ _ _ _ Hflat Hleaf Hv Hrun)
      as (g & w & Hw & Ha & [[_ Hc]|(_ & text' & Hd' & ->)]); [congruence|].
    rewrite Hval in Hd'. assert (text' = text) as -> by congruence.
    by exists g, text.
  - assert (Hval : dataset_value v = v).
    { destruct v; try done; try (by inversion Hjson).
      cbn in Hchk. rewrite data_check_text in Hchk; done. }
    destruct (copy_datasets_leaf _ _ _ _ _ _ _ Hflat Hleaf Hv Hrun)
      as (g & d & x & Hw & Hc & Hx & [[_ Hn]|(_ & text' & Hd' & ->)]);
      [congruence|].
    rewrite Hval in Hd'. assert (text' = text) as -> by congruence.
    exists g, d, text. split; [done|]. split; [done|]. split; [|done].
    unfold data_of. by rewrite Hx.
Qed.

(** X15 on the tuple [(1, (2, 3))] under [hints/shape]. *)
Lemma X15_witness :
  let v := PTuple [PInt 1; PTuple [PInt 2; PInt 3]] in
  let m := [("hints", PDict [("shape", v)])] in
  let ra := _copy_metadata_to_h5_attrs (F := Sample.format) m 0
              Sample.empty_file in
  let rd := _copy_metadata_to_h5_datasets (F := Sample.format) m 0
              Sample.empty_file in
  (exists g text,
     walk (snd ra) 0 ["hints"] = Some g
     /\ attr (snd ra) g "shape" = Some (PStr text)
     /\ Json.loads text = Ok (PList [PInt 1; PList [PInt 2; PInt 3]]))
  /\ (exists g d text,
        walk (snd rd) 0 ["hints"] = Some g
        /\ child (snd rd) g "shape" = Some d
        /\ data_of (snd rd) d = Some (StrArray (PStr text))
        /\ Json.loads text = Ok (PList [PInt 1; PList [PInt 2; PInt 3]])).
Proof.
  intros v m ra rd.
  assert (Hflat : flat_mapping m).
  { constructor; [apply (bool_decide_unpack _); vm_compute; reflexivity|].
    intros k sub [[= <- <-]|[]].
    constructor; [apply (bool_decide_unpack _); vm_compute; reflexivity|].
    intros k' sub' [[=]|[]]. }
  assert (Hjson : json_value v) by (repeat constructor).
  split.
  - apply (proj1 (X15_json_text_reads_back_with_lists_for_tuples
                    (F := Sample.format) m ["hints"] "shape" v 0
                    Sample.empty_file (snd ra) Hflat eq_refl eq_refl Hjson));
      [reflexivity|vm_compute; reflexivity].
  - apply (proj2 (X15_json_text_reads_back_with_lists_for_tuples
                    (F := Sample.format) m ["hints"] "shape" v 0
                    Sample.empty_file (snd rd) Hflat eq_refl eq_refl Hjson));
      [reflexivity|vm_compute; reflexivity].
Defined.





(** X18.  In a walk that returns, a key at any depth (no key on the way
    being reserved) whose value is a mapping with neither [_link] nor
    [_data] names a group that the walk has made. *)
Theorem X18_plain_mapping_becomes_a_group
    {F : Format} (items : list (string * pyval)) (h : ref)
    (path : list string) (key : string) (sub : list (string * pyval))
    (st st' : file) :
  leaf_at items path key = Some (PDict sub) ->
  Forall (fun k => ~ reserved k) path -> ~ reserved key ->
  dict_has "_link" sub = false -> dict_has "_data" sub = false ->
  _copy_nexus_md_to_nexus_h5 items h st = (Ok tt, st') ->
  exists g c a links,
    walk st' h path = Some g /\ child st' g key = Some c
    /\ st' !! c = Some (Obj a (Group links)) /\ length st <= c.
Proof.
  intros Hget Hpath Hkey Hl Hd Hrun.
  destruct (NexusMore.copy_nexus_at_path _ _ _ _ _ _ _ Hget Hpath Hrun)
    as (g & st0 & st1 & Hw & Hg0 & Hitem & Hg1).
  rewrite nexus_item_branch in Hitem by done. rewrite Hl, Hd in Hitem.
  apply NexusMore.bind_ok_inv in Hitem as (c & s1 & Hc & Hsub).
  apply create_child_inv in Hc
    as [(_ & e & ? & _)|(Hcg & _ & a & links & Hs & _ & ->)]; [done|].
  injection Hcg as ->.
  destruct (NexusMore.created_child g key (Obj ∅ (Group ∅)) _ _ _ Hs)
    as [Hchild Hobj].
  pose proof (growing_copy_nexus _ _ _ _ _ Hsub) as Gsub.
  pose proof (grows_trans _ _ _ Gsub Hg1) as G.
  destruct (G _ _ Hobj) as ([a' b'] & Hs' & l' & Hcont & _).
  simpl in Hcont. subst b'.
  exists g, (length st0), a', l'. split; [done|]. split; [by eapply grows_child|].
  split; [done|]. by apply grows_length.
Qed.

(** X18 on the group [aperture] of the group [instrument] of the
    documentation of the source. *)
Lemma X18_witness :
  let aperture := [("_attributes", PDict [("NX_Class", PStr "NXAperture")]);
                   ("vcenter", PInt 1)] in
  let items :=
    [("instrument",
      PDict [("_attributes", PDict [("NX_Class", PStr "NXInstrument")]);
             ("aperture", PDict aperture)])] in
  let run := _copy_nexus_md_to_nexus_h5 (F := Sample.format) items 0
               Sample.empty_file in
  exists g c a links,
    walk (snd run) 0 ["instrument"] = Some g
    /\ child (snd run) g "aperture" = Some c
    /\ snd run !! c = Some (Obj a (Group links))
    /\ length Sample.empty_file <= c.
Proof.
  intros aperture items run.
  apply (X18_plain_mapping_becomes_a_group (F := Sample.format) items 0
           ["instrument"] "aperture" aperture Sample.empty_file (snd run)).
  - reflexivity.
  - repeat constructor; unfold reserved; intros [|[|]]; discriminate.
  - unfold reserved. intros [|[|]]; discriminate.
  - reflexivity.
  - reflexivity.
  - vm_compute. reflexivity.
Defined.

(** ** Names that are taken *)

(** X19.  No copy writes over a link: in a group that has a link of the
    name of the key, the walk over the nexus metadata (for a key that is
    not reserved), [_copy_metadata_to_h5_datasets] (for any value) and
    [_copy_metadata_to_h5_attrs] (for a mapping, which would be a group)
    raise and leave the file as it was. *)
Theorem X19_a_taken_name_is_not_written_over
    {F : Format} (h : ref) (key : string) (v : pyval) (st : file)
    (a : gmap string pyval) (links : gmap string ref) (x : ref) :
  st !! h = Some (Obj a (Group links)) -> links !! key = Some x ->
  (~ reserved key ->
   exists e, _copy_nexus_md_to_nexus_h5 [(key, v)] h st = (Raise e, st))
  /\ (exists e, _copy_metadata_to_h5_datasets [(key, v)] h st = (Raise e, st))
  /\ (is_mapping v = true ->
      exists e, _copy_metadata_to_h5_attrs [(key, v)] h st = (Raise e, st)).
Proof.
  intros Hs Hk. split; [|split].
  - intros Hres. unfold _copy_nexus_md_to_nexus_h5.
    rewrite copy_nexus_dict, for_each_cons. cbn [fst snd].
    destruct (TakenFacts.nexus_item_taken copy_nexus h key v st a links x
                Hs Hk Hres) as [e ->].
    eauto.
  - unfold _copy_metadata_to_h5_datasets.
    cbn [copy_datasets for_each fst snd]. unfold bind at 1.
    destruct v as [| | | | | | |sub];
      try (cbn [datasets_item]; unfold dataset_leaf_unit, bind;
           match goal with
           | |- context [dataset_leaf h key ?w st] =>
               destruct (TakenFacts.dataset_leaf_taken h key w st a links x
                           Hs Hk) as [e ->]
           end; eauto).
    cbn [datasets_item]. unfold bind, create_group.
    destruct (TakenFacts.create_child_taken h key None (Obj ∅ (Group ∅)) st
                a links x Hs Hk) as [e ->].
    eauto.
  - intros Hm. destruct v as [| | | | | | |sub]; try done.
    unfold _copy_metadata_to_h5_attrs.
    cbn [copy_attrs for_each fst snd attrs_item]. unfold bind, create_group.
    destruct (TakenFacts.create_child_taken h key None (Obj ∅ (Group ∅)) st
                a links x Hs Hk) as [e ->].
    eauto.
Qed.

(** X19 on the name [bluesky] in the root group of the file
    [Sample.bluesky_file]. *)
Lemma X19_witness :
  (exists e, _copy_nexus_md_to_nexus_h5 (F := Sample.format)
               [("bluesky", PStr "#bluesky/start/sample_name")] 0
               Sample.bluesky_file = (Raise e, Sample.bluesky_file))
  /\ (exists e, _copy_metadata_to_h5_datasets (F := Sample.format)
                  [("bluesky", PStr "#bluesky/start/sample_name")] 0
                  Sample.bluesky_file = (Raise e, Sample.bluesky_file)).
Proof.
  destruct (X19_a_taken_name_is_not_written_over (F := Sample.format) 0
              "bluesky" (PStr "#bluesky/start/sample_name")
              Sample.bluesky_file ∅ {[ "bluesky" := 1 ]} 1)
    as (Hnexus & Hdata & _); [reflexivity|reflexivity|].
  split; [|exact Hdata].
  apply Hnexus. unfold reserved. intros [|[|]]; discriminate.
Defined.

(** ** When the walk returns *)

(** X20.  The walk over the nexus metadata returns, on a group in which
    the keys of the metadata that are not reserved are free names, when at
    every depth each key occurs once, every reference string (as a value or
    under [_link]) parses and names an object of the file, the format takes
    every value that becomes a dataset (a plain value, or the value under
    [_data]) and every value under [_attributes], and the mappings with a
    [_link] or a [_data] have the reserved keys only. *)
Theorem X20_walk_returns_on_well_formed_metadata
    {F : Format} (items : list (string * pyval)) (h : ref) (st : file)
    (a : gmap string pyval) (links : gmap string ref) :
  WellFormed.nexus_ok st items ->
  st !! h = Some (Obj a (Group links)) ->
  (forall n, In n (fst <$> items) -> ~ reserved n -> links !! n = None) ->
  exists st', _copy_nexus_md_to_nexus_h5 items h st = (Ok tt, st').
Proof.
  intros Hok Hs Hfree.
  destruct (WellFormedFacts.nexus_runs st items Hok h st a links
              (grows_refl st) Hs Hfree) as (st' & Hrun & _).
  by exists st'.
Qed.

(** X20 on a tree with the kinds of entries of the documentation of the
    source: attributes, a reference string, a plain value, a link with
    attributes and a group. *)
Lemma X20_witness :
  exists st',
    _copy_nexus_md_to_nexus_h5 (F := Sample.format)
      [("entry",
        PDict [("_attributes", PDict [("NX_Class", PStr "NXEntry")]);
               ("title", PStr "#bluesky/start/sample_name");
               ("program_name", PStr "EPICS areaDetector");
               ("GUPNumber",
                PDict [("_attributes", PDict [("NDAttrName", PStr "GUPNumber")]);
                       ("_link", PStr "#bluesky/start/sample_name")]);
               ("aperture",
                PDict [("_attributes", PDict [("NX_Class", PStr "NXAperture")]);
                       ("vcenter", PInt 1)])])] 0
      Sample.bluesky_file = (Ok tt, st').
Proof.
  assert (Hresolves : WellFormed.resolves Sample.bluesky_file
                        (PStr "#bluesky/start/sample_name")).
  { exists "#bluesky/start/sample_name",
      (PathInfo "start" None (Some "/sample_name") None ["sample_name"]), 3.
    split; [reflexivity|]. split; [vm_compute; reflexivity|].
    split; [reflexivity|]. eexists. reflexivity. }
  assert (Htaken : forall k v,
             attr_check (Format := Sample.format) v = None ->
             WellFormed.attrs_taken (F := Sample.format) [(k, v)]).
  { intros k v Hv. by repeat constructor. }
  apply (X20_walk_returns_on_well_formed_metadata (F := Sample.format)
           _ 0 Sample.bluesky_file ∅ {[ "bluesky" := 1 ]});
    [|reflexivity|simpl; intros n [<-|[]] _; reflexivity].
  assert (Hitem : forall k v,
             (String.eqb k "_data" || String.eqb k "_link") = false ->
             String.eqb k "_attributes" = false ->
             match v with
             | PDict sub =>
                 match dict_get "_link" sub with
                 | Some link =>
                     WellFormed.resolves Sample.bluesky_file link
                     /\ WellFormed.described (F := Sample.format) sub
                 | None =>
                     match dict_get "_data" sub with
                     | Some data =>
                         data_check (Format := Sample.format) (Raw data) = None
                         /\ WellFormed.described (F := Sample.format) sub
                     | None => True
                     end
                 end
             | PStr s =>
                 if startswith (chars_of "#bluesky") (chars_of s)
                 then WellFormed.resolves Sample.bluesky_file v
                 else data_check (Format := Sample.format) (Raw v) = None
             | _ => data_check (Format := Sample.format) (Raw v) = None
             end ->
             WellFormed.item_ok (F := Sample.format) Sample.bluesky_file k v).
  { intros k v H1 H2 H3. unfold WellFormed.item_ok. by rewrite H1, H2. }
  assert (Hattrs : forall al,
             WellFormed.attrs_taken (F := Sample.format) al ->
             WellFormed.item_ok (F := Sample.format) Sample.bluesky_file
               "_attributes" (PDict al)).
  { intros al Hal. exists al. by split. }
  constructor; [apply (bool_decide_unpack _); vm_compute; reflexivity| |].
  - intros k v [[= <- <-]|[]]. by apply Hitem.
  - intros k sub [[= <- <-]|[]] _ _ _.
    constructor; [apply (bool_decide_unpack _); vm_compute; reflexivity| |].
    + intros k v [[= <- <-]|[[= <- <-]|[[= <- <-]|[[= <- <-]|[[= <- <-]|[]]]]]].
      * apply Hattrs. by apply Htaken.
      * apply Hitem; [reflexivity|reflexivity|exact Hresolves].
      * apply Hitem; reflexivity.
      * apply Hitem; [reflexivity|reflexivity|].
        split; [exact Hresolves|]. split.
        -- apply (bool_decide_unpack _). vm_compute. reflexivity.
        -- apply List.Forall_cons; [|apply List.Forall_cons; [|apply List.Forall_nil]].
           ++ right. right. split; [reflexivity|]. eexists.
              split; [reflexivity|]. by apply Htaken.
           ++ right. by left.
      * apply Hitem; [reflexivity|reflexivity|exact I].
    + intros k sub Hin Hres Hl Hd.
      destruct Hin as [[= <- <-]|[[=]|[[=]|[[= <- <-]|[[= <- <-]|[]]]]]].
      * destruct Hres. right. by right.
      * discriminate Hl.
      * constructor; [apply (bool_decide_unpack _); vm_compute; reflexivity| |].
        -- intros k v [[= <- <-]|[[= <- <-]|[]]].
           ++ apply Hattrs. by apply Htaken.
           ++ apply Hitem; reflexivity.
        -- intros k sub Hin' Hres' _ _.
           destruct Hin' as [[= <- <-]|[[=]|[]]].
           destruct Hres'. right. by right.
Defined.

(** X21.  A string that begins with [#bluesky] and does not go on as a
    reference does (a slash and a kind, with a stream after [desc]) is not
    stored as text: under a key that is not reserved, the walk raises the
    exception of the parser, with the string in it, and leaves the file as
    it was. *)
Theorem X21_text_that_begins_like_a_reference_is_not_stored
    {F : Format} (h : ref) (key s : string) (st : file) :
  ~ reserved key ->
  startswith (chars_of "#bluesky") (chars_of s) = true ->
  ~ Grammar.has_grammar_prefix (chars_of s) ->
  _copy_nexus_md_to_nexus_h5 [(key, PStr s)] h st
  = (Raise (FailedToParse s), st).
Proof.
  intros Hkey Hs Hno. unfold _copy_nexus_md_to_nexus_h5.
  rewrite copy_nexus_dict, for_each_cons. cbn [fst snd].
  rewrite nexus_item_branch by done. rewrite Hs.
  pose proof (parse_outcome s) as Hp.
  destruct (_parse_bluesky_document_path s) as [p|e] eqn:E; [done|].
  destruct Hp as [-> _]. reflexivity.
Qed.

(** X21 on the text [#bluesky is the name of the project]. *)
Lemma X21_witness :
  _copy_nexus_md_to_nexus_h5 (F := Sample.format)
    [("comment", PStr "#bluesky is the name of the project")] 0
    Sample.bluesky_file
  = (Raise (FailedToParse "#bluesky is the name of the project"),
     Sample.bluesky_file).
Proof.
  apply (X21_text_that_begins_like_a_reference_is_not_stored
           (F := Sample.format) 0 "comment"
           "#bluesky is the name of the project" Sample.bluesky_file).
  - unfold reserved. intros [|[|]]; discriminate.
  - reflexivity.
  - intros Hp.
    pose proof (parse_outcome "#bluesky is the name of the project") as Ho.
    assert (E : _parse_bluesky_document_path
                  "#bluesky is the name of the project"
                = Raise (FailedToParse "#bluesky is the name of the project"))
      by (vm_compute; reflexivity).
    rewrite E in Ho. by destruct Ho as [_ Hn].
Defined.

(** X22.  In a walk that returns, a key at any depth (no key on the way
    being reserved) whose value is a mapping with a [_data] and no [_link]
    names a dataset that the walk has made and that holds the value under
    [_data] as it is, be it a string that begins with [#bluesky]. *)
Theorem X22_inline_data_is_stored_as_a_dataset
    {F : Format} (items : list (string * pyval)) (h : ref)
    (path : list string) (key : string) (sub : list (string * pyval))
    (data : pyval) (st st' : file) :
  leaf_at items path key = Some (PDict sub) ->
  Forall (fun k => ~ reserved k) path -> ~ reserved key ->
  dict_has "_link" sub = false -> dict_get "_data" sub = Some data ->
  _copy_nexus_md_to_nexus_h5 items h st = (Ok tt, st') ->
  exists g d,
    walk st' h path = Some g /\ child st' g key = Some d
    /\ data_of st' d = Some (Raw data) /\ length st <= d.
Proof.
  intros Hget Hpath Hkey Hl Hd Hrun.
  destruct (NexusMore.copy_nexus_at_path _ _ _ _ _ _ _ Hget Hpath Hrun)
    as (g & st0 & st1 & Hw & Hg0 & Hitem & Hg1).
  rewrite nexus_item_branch in Hitem by done.
  rewrite Hl, (NexusMore.dict_has_get _ _ _ Hd) in Hitem.
  unfold dict_item in Hitem. rewrite Hd in Hitem.
  apply NexusMore.bind_ok_inv in Hitem as (x & s0 & [= <- <-] & Hitem).
  apply NexusMore.bind_ok_inv in Hitem as (d & s1 & Hc & Hitem).
  apply NexusMore.bind_ok_inv in Hitem as (c & s2 & Hget' & Hsub).
  apply get_item_inv in Hget' as [-> _].
  apply create_dataset_inv in Hc
    as [(_ & e & ? & _)|(Hdg & _ & a & links & Hs & _ & ->)]; [done|].
  injection Hdg as ->.
  destruct (NexusMore.created_child g key (Obj ∅ (Dataset (Raw data))) _ _ _ Hs)
    as [Hchild Hobj].
  pose proof (growing_copy_nexus _ _ _ _ _ Hsub) as Gsub.
  pose proof (grows_trans _ _ _ Gsub Hg1) as G.
  exists g, (length st0). split; [done|]. split; [by eapply grows_child|].
  split.
  - eapply grows_data; [exact G|]. unfold data_of. by rewrite Hobj.
  - by apply grows_length.
Qed.

(** X22 on a dataset with attributes of the documentation of the source,
    in a group. *)
Lemma X22_witness :
  let sub := [("_attributes", PDict [("NDAttrName", PStr "ProgramName")]);
              ("_data", PStr "EPICS areaDetector")] in
  let items := [("entry", PDict [("program_name", PDict sub)])] in
  let run := _copy_nexus_md_to_nexus_h5 (F := Sample.format) items 0
               Sample.empty_file in
  exists g d,
    walk (snd run) 0 ["entry"] = Some g
    /\ child (snd run) g "program_name" = Some d
    /\ data_of (snd run) d = Some (Raw (PStr "EPICS areaDetector"))
    /\ length Sample.empty_file <= d.
Proof.
  intros sub items run.
  apply (X22_inline_data_is_stored_as_a_dataset (F := Sample.format)
           items 0 ["entry"] "program_name" sub (PStr "EPICS areaDetector")
           Sample.empty_file (snd run)).
  - reflexivity.
  - repeat constructor; unfold reserved; intros [|[|]]; discriminate.
  - unfold reserved. intros [|[|]]; discriminate.
  - reflexivity.
  - reflexivity.
  - vm_compute. reflexivity.
Defined.

(** X23.  When one of the two plain copies returns, every value of the
    dictionary that is a mapping, at any depth, be it empty, is a group,
    made by the copy, under its key in the group under the path of the keys
    above it. *)
Theorem X23_every_mapping_is_a_group
    {F : Format} (m : list (string * pyval)) (path : list string)
    (key : string) (sub : list (string * pyval)) (h : ref) (st st' : file) :
  leaf_at m path key = Some (PDict sub) ->
  _copy_metadata_to_h5_attrs m h st = (Ok tt, st')
  \/ _copy_metadata_to_h5_datasets m h st = (Ok tt, st') ->
  exists g c a links,
    walk st' h path = Some g /\ child st' g key = Some c
    /\ st' !! c = Some (Obj a (Group links)) /\ length st <= c.
Proof.
  intros Hleaf [Hrun|Hrun].
  - by eapply (PathFacts.copy_with_group attr_leaf growing_attr_leaf).
  - by eapply (PathFacts.copy_with_group dataset_leaf_unit
                 growing_dataset_leaf_unit).
Qed.

(** X23 on the dictionary [{"plan": {"args": {}}}]. *)
Lemma X23_witness :
  let m := [("plan", PDict [("args", PDict [])])] in
  let run := _copy_metadata_to_h5_attrs (F := Sample.format) m 0
               Sample.empty_file in
  exists g c a links,
    walk (snd run) 0 ["plan"] = Some g /\ child (snd run) g "args" = Some c
    /\ snd run !! c = Some (Obj a (Group links))
    /\ length Sample.empty_file <= c.
Proof.
  intros m run.
  apply (X23_every_mapping_is_a_group (F := Sample.format) m ["plan"] "args"
           [] 0 Sample.empty_file (snd run)).
  - reflexivity.
  - left. vm_compute. reflexivity.
Defined.
